(** * IntelliScan: scan orchestration, port probing and anomaly rules

    A shallow embedding of [src/scanner/network_scanner.py] and
    [src/scanner/anomaly_detection.py], with the analysis and the target
    expansion of [src/scanner/ai_agent.py] and the target parsing of
    [src/utils/scanner_utils.py].

    - Python dictionaries whose iteration order is observable (the
      per-target results, the per-port results, the grouping tables of
      the anomaly detector) are insertion-ordered association lists
      ([PyDict]).
    - The two registries of [NetworkScanner] ([active_scans],
      [scan_results]) and the results directory are [gmap]s keyed by the
      scan id: they are only ever looked up and written by key.
    - The network ([srp], [sr1]), the clock and the collaborators that may
      raise are an explicit environment.
    - [_execute_scan] runs in a state-and-exception monad whose state also
      records every registry state a poller could observe.
    - Target strings are [string]s; the builtins [int], [str.strip] and
      [ipaddress.ip_network] are parameters of the functions that call
      them. *)

From Stdlib Require Import ZArith QArith.
From stdpp Require Import base option list sorting strings pretty gmap.

Local Open Scope string_scope.
Local Open Scope list_scope.
Local Open Scope Z_scope.

(** ** Python dictionaries as insertion-ordered association lists *)

Module PyDict.
Section Dict.
Context {K V : Type} `{EqDecision K}.

(** [d.get(k)] *)
Fixpoint get (d : list (K * V)) (k : K) : option V :=
  match d with
  | [] => None
  | (k', v) :: d' => if decide (k = k') then Some v else get d' k
  end.

(** [d[k] = v]: an existing key keeps its position, a new one goes last. *)
Fixpoint set (d : list (K * V)) (k : K) (v : V) : list (K * V) :=
  match d with
  | [] => [(k, v)]
  | (k', v') :: d' =>
      if decide (k = k') then (k', v) :: d' else (k', v') :: set d' k v
  end.

(** [k in d] *)
Definition mem (d : list (K * V)) (k : K) : bool :=
  match get d k with Some _ => true | None => false end.

Definition keys (d : list (K * V)) : list K := d.*1.

End Dict.
End PyDict.

(** ** Data model *)

Inductive Outcome (A : Type) : Type :=
| Ok (a : A)
| Raise (e : string).
Arguments Ok {A} a.
Arguments Raise {A} e.

(** [PortResult.status]: the four strings the code base writes. *)
Inductive PortStatus := st_open | st_closed | st_filtered | st_error.

#[global] Instance PortStatus_eq_dec : EqDecision PortStatus.
Proof. solve_decision. Defined.

(** The dictionary stored under [results['results'][target]['ports'][port]]. *)
Record PortResult := mkPortResult {
  pr_status : PortStatus;
  pr_service : string;
  pr_error : option string
}.

(** The dictionary stored under [results['results'][target]]. *)
Record TargetResult := mkTargetResult {
  tr_status : string;
  tr_ports : list (Z * PortResult)
}.

Inductive Severity := low | medium | high.

(** The three shapes of anomaly dictionaries the detector appends. *)
Inductive Finding :=
| unusual_port_combination
    (target : string) (ports : list Z) (description : string)
    (severity : Severity) (confidence : Q)
| potential_vulnerability
    (target : string) (port : Z) (service : string) (description : string)
    (severity : Severity) (confidence : Q)
| identical_port_pattern
    (targets : list string) (ports : list Z) (description : string)
    (severity : Severity) (confidence : Q).

(** The [results] dictionary built by [_execute_scan]. *)
Record Results := mkResults {
  r_scan_id : string;
  r_start_time : Q;
  r_targets : list string;
  r_ports : list Z;
  r_timeout : Q;
  r_results : list (string * TargetResult);
  r_anomalies : option (list Finding);
  r_end_time : option Q;
  r_duration : option Q
}.

(** ** anomaly_detection.py *)

Module AnomalyDetector.

(** The loop shared by rules 1 and 3:
    [for port, port_data in target_data.get('ports', {}).items():
       if port_data.get('status') == 'open': open_ports.append(int(port))] *)
Definition open_ports_of (target_data : TargetResult) : list Z :=
  (filter (λ pp, pr_status pp.2 = st_open) (tr_ports target_data)).*1.

Definition suspicious_combinations : list (list Z * string) :=
  [ ([22; 2222], "Multiple SSH ports open");
    ([80; 8080; 8888], "Multiple HTTP ports open");
    ([21; 22; 23], "Multiple remote access services");
    ([3306; 5432], "Multiple database services") ].

(** [matching_ports = [p for p in combo['ports'] if p in open_ports]] *)
Definition matching_ports (combo_ports open_ports : list Z) : list Z :=
  filter (λ p, p ∈ open_ports) combo_ports.

Definition combination_findings (target : string) (open_ports : list Z)
  : list Finding :=
  flat_map (λ combo,
    let matching := matching_ports combo.1 open_ports in
    if (2 <=? length matching)%nat
    then [unusual_port_combination target matching combo.2 medium 0.75]
    else []) suspicious_combinations.

Definition _check_unusual_port_combinations (scan_results : Results)
  : list Finding :=
  flat_map (λ item, combination_findings item.1 (open_ports_of item.2))
           (r_results scan_results).

(** [vulnerable_services]: port, service, description, severity. *)
Definition vulnerable_services : list (Z * string * string * Severity) :=
  [ (21, "FTP", "Plaintext FTP service detected", high);
    (23, "Telnet", "Plaintext Telnet service detected", high);
    (25, "SMTP", "SMTP service might be vulnerable to relay attacks", medium);
    (445, "SMB", "SMB service might be vulnerable to exploits", high);
    (3389, "RDP", "RDP service might be vulnerable to brute force", medium) ].

Definition _check_potential_vulnerabilities (scan_results : Results)
  : list Finding :=
  flat_map (λ item,
    flat_map (λ pp,
      if bool_decide (pr_status pp.2 = st_open) then
        flat_map (λ vuln,
          match vuln with
          | (vport, _, vdesc, vsev) =>
              if bool_decide (pp.1 = vport)
              then [potential_vulnerability item.1 pp.1 (pr_service pp.2)
                      vdesc vsev 0.8]
              else []
          end) vulnerable_services
      else []) (tr_ports item.2))
    (r_results scan_results).

(** [targets_with_open_ports[target] = open_ports] for every target with
    a non-empty list of open ports. *)
Definition targets_with_open_ports (scan_results : Results)
  : list (string * list Z) :=
  foldl (λ acc item,
           match open_ports_of item.2 with
           | [] => acc
           | open_ports => PyDict.set acc item.1 open_ports
           end) [] (r_results scan_results).

(** [sorted(open_ports)] *)
Definition sorted (l : list Z) : list Z := merge_sort Z.le l.

(** One turn of the grouping loop:
    [port_pattern = tuple(sorted(open_ports))
     if port_pattern not in port_patterns: port_patterns[port_pattern] = []
     port_patterns[port_pattern].append(target)] *)
Definition group_step (port_patterns : list (list Z * list string))
    (item : string * list Z) : list (list Z * list string) :=
  let port_pattern := sorted item.2 in
  let port_patterns' :=
    if PyDict.mem port_patterns port_pattern then port_patterns
    else PyDict.set port_patterns port_pattern [] in
  PyDict.set port_patterns' port_pattern
    (default [] (PyDict.get port_patterns' port_pattern) ++ [item.1]).

Definition group_by_pattern (twop : list (string * list Z))
  : list (list Z * list string) :=
  foldl group_step [] twop.

(** The targets of [targets_with_open_ports] whose sorted open ports are
    [pat], in insertion order: the group the claim speaks of. *)
Definition pattern_members (pat : list Z) (twop : list (string * list Z))
  : list string :=
  (filter (λ it, sorted it.2 = pat) twop).*1.

Definition pattern_description (n : nat) : string :=
  "Multiple hosts (" +:+ pretty n +:+ ") have identical open port patterns".

Definition pattern_finding (group : list Z * list string) : list Finding :=
  if (1 <? length group.2)%nat && (2 <? length group.1)%nat
  then [identical_port_pattern group.2 group.1
          (pattern_description (length group.2)) low 0.7]
  else [].

Definition _check_unusual_network_patterns (scan_results : Results)
  : list Finding :=
  let twop := targets_with_open_ports scan_results in
  if (1 <? length twop)%nat
  then flat_map pattern_finding (group_by_pattern twop)
  else [].

(** An [identical_port_pattern] finding whose shared pattern is [pat]. *)
Definition is_pattern_finding (pat : list Z) (f : Finding) : Prop :=
  match f with
  | identical_port_pattern _ ports _ _ _ => ports = pat
  | _ => False
  end.

#[global] Instance is_pattern_finding_dec pat f :
  Decision (is_pattern_finding pat f).
Proof. destruct f; cbn; apply _. Defined.

(** An [unusual_port_combination] finding about [target]. *)
Definition is_combination_for (target : string) (f : Finding) : Prop :=
  match f with
  | unusual_port_combination t _ _ _ _ => t = target
  | _ => False
  end.

#[global] Instance is_combination_for_dec target f :
  Decision (is_combination_for target f).
Proof. destruct f; cbn; apply _. Defined.

(** [detect]: the three passes, appended in this order. *)
Definition detect (scan_results : Results) : list Finding :=
  _check_unusual_port_combinations scan_results
  ++ _check_potential_vulnerabilities scan_results
  ++ _check_unusual_network_patterns scan_results.

End AnomalyDetector.


(** ** network_scanner.py: data *)

(** ['status'] of an entry of [active_scans]. *)
Inductive ScanStatus := running | completed | error.

#[global] Instance ScanStatus_eq_dec : EqDecision ScanStatus.
Proof. solve_decision. Defined.

(** An entry of [self.active_scans], as created by [start_scan]. *)
Record ScanRecord := mkScanRecord {
  sc_status : ScanStatus;
  sc_start_time : Q;
  sc_progress : Q;
  sc_targets : list string;
  sc_ports : list Z;
  sc_timeout : Q;
  sc_results : list (string * TargetResult);
  sc_end_time : option Q;
  sc_duration : option Q;
  sc_error : option string
}.

(** What a file of the results directory holds: the text [json.dump]
    wrote for some results, or something on which [open] or [json.load]
    raises, as a file that a failed write cut short; [e] is the message
    of that exception.  The directory is taken to be written by
    [_save_results] only. *)
Inductive FileContent :=
| dumped (results : Results)
| unreadable (e : string).

(** The scanner object together with the results directory:
    [files !! path] is the content of the file [path]. *)
Record Scanner := mkScanner {
  active_scans : gmap string ScanRecord;
  scan_results : gmap string Results;
  files : gmap string FileContent
}.

(** A reply packet: the flags of its TCP layer, if it has one. *)
Record Packet := mkPacket { tcp_flags : option Z }.

(** The places of [_execute_scan]'s [try] block, outside the per-probe and
    per-target handlers, where a collaborator can raise. *)
Inductive Stage :=
| AtDiscover            (* [self._discover_hosts(targets)] *)
| AtSubmit (k : nat)    (* the k-th [self.executor.submit(...)] *)
| AtDetect              (* [self._detect_anomalies(results)] *)
| AtSave.               (* [self._save_results(scan_id, results)] *)

(** The world outside the scanner. *)
Record Env := mkEnv {
  (** [srp(Ether/ARP(pdst=target), timeout=1)[0]]: is the answered list
      non-empty, or does the call raise. *)
  srp : string → Outcome bool;
  (** [sr1(IP(dst=target)/TCP(dport=port, flags="S"), timeout=timeout)]:
      a reply, [None], or an exception. *)
  sr1 : string → Z → Q → Outcome (option Packet);
  (** [time.time()] in [start_scan], and at the start and the end of
      [_execute_scan]. *)
  now_request : Q;
  now_start : Q;
  now_end : Q;
  (** The exception message, if the collaborator called at this stage
      raises. *)
  fault : Stage → option string;
  (** The file that [os.path.join(SCAN_RESULTS_DIR, f"{scan_id}.json")]
      names.  The scan id is pasted into the path, so two ids can name
      one file, as ["a"] and ["./a"] do. *)
  results_file : string → string;
  (** What a failing [_save_results] leaves behind: the file as it was
      when [open] raised ([None]), or a file cut short on which
      [json.load] raises [d], when [json.dump] raised ([Some d]). *)
  torn_write : option string
}.

(** ** The state-and-exception monad of [_execute_scan] *)

(** [self]: the scanner now; [past]: the scanner states before each
    write, newest first; [frame]: the [results] dictionary local to
    [_execute_scan], shared with the probe tasks. *)
Record St := mkSt {
  self : Scanner;
  past : list Scanner;
  frame : Results
}.

Definition M (A : Type) : Type := St → Outcome A * St.

Definition ret {A} (a : A) : M A := λ st, (Ok a, st).

Definition bind {A B} (m : M A) (f : A → M B) : M B :=
  λ st, match m st with
        | (Ok a, st') => f a st'
        | (Raise e, st') => (Raise e, st')
        end.

Definition raise {A} (e : string) : M A := λ st, (Raise e, st).

(** [try: m except Exception as e: h e] *)
Definition try_except {A} (m : M A) (h : string → M A) : M A :=
  λ st, match m st with
        | (Ok a, st') => (Ok a, st')
        | (Raise e, st') => h e st'
        end.

Definition lift {A} (o : Outcome A) : M A := λ st, (o, st).

(** A write to the scanner or to the results directory. *)
Definition commit (f : Scanner → Scanner) : M unit :=
  λ st, (Ok tt, mkSt (f (self st)) (self st :: past st) (frame st)).

Definition get_self : M Scanner := λ st, (Ok (self st), st).
Definition get_frame : M Results := λ st, (Ok (frame st), st).
Definition set_frame (r : Results) : M unit :=
  λ st, (Ok tt, mkSt (self st) (past st) r).

Declare Scope scan_scope.
Delimit Scope scan_scope with scan.
Notation "x <- m ;; k" := (bind m (λ x, k))
  (at level 100, m at next level, k at level 200, right associativity)
  : scan_scope.
Notation "m ;; k" := (bind m (λ _, k))
  (at level 100, k at level 200, right associativity) : scan_scope.
Local Open Scope scan_scope.

(** Every scanner state so far, newest first. *)
Definition history (st : St) : list Scanner := self st :: past st.

(** ** network_scanner.py: operations *)

Module NetworkScanner.

Definition set_active (w : Scanner) (a : gmap string ScanRecord) : Scanner :=
  mkScanner a (scan_results w) (files w).

(** [self.active_scans[scan_id] = {...}] of [start_scan]; the thread it
    starts is [_execute_scan] below. *)
Definition start_scan (env : Env) (scan_id : string)
    (targets : list string) (ports : list Z) (timeout : Q)
    (w : Scanner) : Scanner :=
  set_active w
    (<[scan_id := mkScanRecord running (now_request env) 0 targets ports
                    timeout [] None None None]> (active_scans w)).

Definition _is_ip_in_local_network (ip : string) : bool :=
  String.prefix "192.168." ip || String.prefix "10." ip
  || String.prefix "172." ip.

(** One turn of the loop of [_discover_hosts]: is [target] appended to
    [live_hosts]. *)
Definition host_is_live (env : Env) (target : string) : bool :=
  if _is_ip_in_local_network target then
    match srp env target with
    | Ok answered => answered
    | Raise _ => true
    end
  else
    match sr1 env target 80 1 with
    | Ok ping_response => bool_decide (is_Some ping_response)
    | Raise _ => true
    end.

Definition _discover_hosts (env : Env) (targets : list string)
  : list string :=
  List.filter (host_is_live env) targets.

Definition common_ports : list (Z * string) :=
  [ (21, "FTP"); (22, "SSH"); (23, "Telnet"); (25, "SMTP"); (53, "DNS");
    (80, "HTTP"); (110, "POP3"); (143, "IMAP"); (443, "HTTPS");
    (445, "SMB"); (3306, "MySQL"); (3389, "RDP"); (5432, "PostgreSQL");
    (8080, "HTTP-Proxy"); (8443, "HTTPS-Alt") ].

Definition _guess_service (port : Z) : string :=
  default ("Unknown (" +:+ pretty port +:+ ")")
          (PyDict.get common_ports port).

(** Lines 206-219 of [_scan_port]: the status starts at ['closed'] and
    is overwritten according to the reply. *)
Definition port_status_of (response : option Packet) (port : Z)
  : PortResult :=
  let status := st_closed in
  let status :=
    match response with
    | Some pkt =>
        match tcp_flags pkt with
        | Some flags =>
            if bool_decide (Z.land flags 0x12 ≠ 0) then st_open
            else if bool_decide (Z.land flags 0x14 ≠ 0) then st_closed
            else status
        | None => status
        end
    | None => status
    end in
  mkPortResult status (_guess_service port) None.

Definition set_r_results (r : Results) (d : list (string * TargetResult))
  : Results :=
  mkResults (r_scan_id r) (r_start_time r) (r_targets r) (r_ports r)
            (r_timeout r) d (r_anomalies r) (r_end_time r) (r_duration r).

(** [results['results'][target]['ports'][port] = port_status]; a
    [KeyError] if [target] has no entry. *)
Definition write_port (target : string) (port : Z) (pr : PortResult)
  : M unit :=
  results <- get_frame;;
  match PyDict.get (r_results results) target with
  | None => raise ("'" +:+ target +:+ "'")
  | Some td =>
      set_frame (set_r_results results
        (PyDict.set (r_results results) target
           (mkTargetResult (tr_status td)
              (PyDict.set (tr_ports td) port pr))))
  end.

Definition _scan_port (env : Env) (scan_id target : string) (port : Z)
    (timeout : Q) : M unit :=
  try_except
    (response <- lift (sr1 env target port timeout);;
     write_port target port (port_status_of response port))
    (λ e, write_port target port
            (mkPortResult st_error (_guess_service port) (Some e))).

(** A call to a collaborator that may raise. *)
Definition call {A} (env : Env) (stage : Stage) (a : A) : M A :=
  match fault env stage with
  | Some e => raise e
  | None => ret a
  end.

(** The inner loop of lines 96-106: one [submit] per port. *)
Fixpoint submit_ports (env : Env) (target : string) (ports : list Z)
    (futures : list (string * Z)) : M (list (string * Z)) :=
  match ports with
  | [] => ret futures
  | port :: ports' =>
      call env (AtSubmit (length futures)) tt;;
      submit_ports env target ports' (futures ++ [(target, port)])
  end.

(** The loop of lines 92-106. *)
Fixpoint submit_targets (env : Env) (live_hosts : list string)
    (ports : list Z) (futures : list (string * Z))
  : M (list (string * Z)) :=
  match live_hosts with
  | [] => ret futures
  | target :: live_hosts' =>
      results <- get_frame;;
      set_frame (set_r_results results
        (PyDict.set (r_results results) target
                    (mkTargetResult "scanned" [])));;
      futures <- submit_ports env target ports futures;;
      submit_targets env live_hosts' ports futures
  end.

(** [completed_tasks / total_tasks] *)
Definition py_div (a b : nat) : Outcome Q :=
  if bool_decide (b = 0%nat) then Raise "division by zero"
  else Ok (Z.of_nat a # Pos.of_nat b).

Definition set_progress (progress : Q) (r : ScanRecord) : ScanRecord :=
  mkScanRecord (sc_status r) (sc_start_time r) progress (sc_targets r)
    (sc_ports r) (sc_timeout r) (sc_results r) (sc_end_time r)
    (sc_duration r) (sc_error r).
Definition set_status (status : ScanStatus) (r : ScanRecord) : ScanRecord :=
  mkScanRecord status (sc_start_time r) (sc_progress r) (sc_targets r)
    (sc_ports r) (sc_timeout r) (sc_results r) (sc_end_time r)
    (sc_duration r) (sc_error r).
Definition set_end_time (t : Q) (r : ScanRecord) : ScanRecord :=
  mkScanRecord (sc_status r) (sc_start_time r) (sc_progress r)
    (sc_targets r) (sc_ports r) (sc_timeout r) (sc_results r) (Some t)
    (sc_duration r) (sc_error r).
Definition set_duration (t : Q) (r : ScanRecord) : ScanRecord :=
  mkScanRecord (sc_status r) (sc_start_time r) (sc_progress r)
    (sc_targets r) (sc_ports r) (sc_timeout r) (sc_results r)
    (sc_end_time r) (Some t) (sc_error r).
Definition set_error (e : string) (r : ScanRecord) : ScanRecord :=
  mkScanRecord (sc_status r) (sc_start_time r) (sc_progress r)
    (sc_targets r) (sc_ports r) (sc_timeout r) (sc_results r)
    (sc_end_time r) (sc_duration r) (Some e).

(** [self.active_scans[scan_id][field] = value]; a [KeyError] if the
    scan id has no entry. *)
Definition update_scan (scan_id : string) (f : ScanRecord → ScanRecord)
  : M unit :=
  w <- get_self;;
  match active_scans w !! scan_id with
  | None => raise ("'" +:+ scan_id +:+ "'")
  | Some r => commit (λ w, set_active w (<[scan_id := f r]> (active_scans w)))
  end.

(** [if scan_id in self.active_scans: m] *)
Definition if_active (scan_id : string) (m : M unit) : M unit :=
  w <- get_self;;
  if bool_decide (is_Some (active_scans w !! scan_id)) then m else ret tt.

(** The loop of lines 109-116.  A task runs at the latest when its
    future is awaited; the model runs it there. *)
Fixpoint await_futures (env : Env) (scan_id : string) (timeout : Q)
    (total_tasks : nat) (futures : list (string * Z))
    (completed_tasks : nat) : M unit :=
  match futures with
  | [] => ret tt
  | (target, port) :: futures' =>
      _scan_port env scan_id target port timeout;;
      let completed_tasks := S completed_tasks in
      ratio <- lift (py_div completed_tasks total_tasks);;
      let progress := (ratio * 100)%Q in
      if_active scan_id (update_scan scan_id (set_progress progress));;
      await_futures env scan_id timeout total_tasks futures'
                    completed_tasks
  end.

Definition _detect_anomalies (env : Env) : M unit :=
  results <- get_frame;;
  anomalies <- call env AtDetect (AnomalyDetector.detect results);;
  set_frame (mkResults (r_scan_id results) (r_start_time results)
               (r_targets results) (r_ports results) (r_timeout results)
               (r_results results) (Some anomalies) (r_end_time results)
               (r_duration results)).

(** [with open(path, 'w') as f: ...]: the file now holds [content]. *)
Definition write_file (path : string) (content : FileContent) : M unit :=
  commit (λ w, mkScanner (active_scans w) (scan_results w)
                 (<[path := content]> (files w))).

(** [json.dump] into the results file of the scan, written at once when
    nothing raises.  When [open] raises the file stays as it was; when
    [json.dump] raises, the file is left cut short. *)
Definition _save_results (env : Env) (scan_id : string) (results : Results)
  : M unit :=
  match fault env AtSave with
  | None => write_file (results_file env scan_id) (dumped results)
  | Some e =>
      match torn_write env with
      | Some d =>
          write_file (results_file env scan_id) (unreadable d);;
          raise e
      | None => raise e
      end
  end.

(** The [try] block of [_execute_scan], lines 73-138. *)
Definition _execute_scan_try (env : Env) (scan_id : string)
    (targets : list string) (ports : list Z) (timeout : Q) : M unit :=
  let start_time := now_start env in
  set_frame (mkResults scan_id start_time targets ports timeout []
               None None None);;
  let total_tasks := (length targets * length ports)%nat in
  let completed_tasks := 0%nat in
  live_hosts <- call env AtDiscover (_discover_hosts env targets);;
  futures <- submit_targets env live_hosts ports [];;
  await_futures env scan_id timeout total_tasks futures completed_tasks;;
  _detect_anomalies env;;
  let end_time := now_end env in
  results <- get_frame;;
  set_frame (mkResults (r_scan_id results) (r_start_time results)
               (r_targets results) (r_ports results) (r_timeout results)
               (r_results results) (r_anomalies results) (Some end_time)
               (Some (end_time - start_time)%Q));;
  if_active scan_id
    (update_scan scan_id (set_status completed);;
     update_scan scan_id (set_progress 100);;
     update_scan scan_id (set_end_time end_time);;
     update_scan scan_id (set_duration (end_time - start_time)%Q));;
  results <- get_frame;;
  commit (λ w, mkScanner (active_scans w)
                 (<[scan_id := results]> (scan_results w)) (files w));;
  _save_results env scan_id results.

(** The [except Exception as e] handler, lines 140-145. *)
Definition _execute_scan_except (scan_id : string) (e : string) : M unit :=
  if_active scan_id
    (update_scan scan_id (set_status error);;
     update_scan scan_id (set_error e)).

Definition _execute_scan (env : Env) (scan_id : string)
    (targets : list string) (ports : list Z) (timeout : Q) : M unit :=
  try_except (_execute_scan_try env scan_id targets ports timeout)
             (_execute_scan_except scan_id).

Definition summary_of (results : Results) : ScanStatus * Q * Q
                                            * option Q * option Q :=
  (completed, 100%Q, r_start_time results, r_end_time results,
   r_duration results).

(** What [get_scan_status] returns: the entry of [active_scans] itself,
    or a five-field summary of stored results. *)
Inductive StatusView :=
| ActiveRecord (r : ScanRecord)
| Summary (s : ScanStatus * Q * Q * option Q * option Q).

(** The file branch, lines 293-304, is outside any [try]: an exception
    of [open] or [json.load] propagates. *)
Definition get_scan_status (env : Env) (scan_id : string)
  : M (option StatusView) :=
  w <- get_self;;
  match active_scans w !! scan_id with
  | Some r => ret (Some (ActiveRecord r))
  | None =>
      match scan_results w !! scan_id with
      | Some results => ret (Some (Summary (summary_of results)))
      | None =>
          match files w !! results_file env scan_id with
          | Some (dumped results) =>
              ret (Some (Summary (summary_of results)))
          | Some (unreadable e) => raise e
          | None => ret None
          end
      end
  end.

(** What [get_scan_results] returns: the dictionary stored in
    [scan_results] itself, or [json.load] of the text [json.dump] wrote
    for some results, in which the port keys have become strings. *)
Inductive ResultsView :=
| Stored (results : Results)
| Loaded (results : Results).

(** A key of a ['ports'] dictionary. *)
Inductive PortKey :=
| IntKey (port : Z)
| StrKey (port : string).

(** The per-target port entries of a view, with their keys. *)
Definition view_ports (v : ResultsView)
  : list (string * list (PortKey * PortResult)) :=
  match v with
  | Stored results =>
      (λ item : string * TargetResult,
         (item.1, (λ pp : Z * PortResult, (IntKey pp.1, pp.2))
                    <$> tr_ports item.2))
        <$> r_results results
  | Loaded results =>
      (λ item : string * TargetResult,
         (item.1, (λ pp : Z * PortResult, (StrKey (pretty pp.1), pp.2))
                    <$> tr_ports item.2))
        <$> r_results results
  end.

(** The file branch, lines 315-318, is outside any [try]: an exception
    of [open] or [json.load] propagates. *)
Definition get_scan_results (env : Env) (scan_id : string)
  : M (option ResultsView) :=
  w <- get_self;;
  match scan_results w !! scan_id with
  | Some results => ret (Some (Stored results))
  | None =>
      match files w !! results_file env scan_id with
      | Some (dumped results) => ret (Some (Loaded results))
      | Some (unreadable e) => raise e
      | None => ret None
      end
  end.

(** [start_scan] followed by the thread it starts, from scanner [w]. *)
(** The classification inside the loop of [scan_with_scapy], lines
    328-336: the flags are compared with [==]. *)
Definition scapy_status (resp : option Packet) : PortStatus :=
  match resp with
  | Some pkt =>
      match tcp_flags pkt with
      | Some flags =>
          if bool_decide (flags = 0x12) then st_open
          else if bool_decide (flags = 0x14) then st_closed
          else st_filtered
      | None => st_filtered
      end
  | None => st_filtered
  end.

(** [scan_with_scapy]: no handler, an exception of [sr1] propagates. *)
Fixpoint scan_with_scapy_from (env : Env) (target : string) (ports : list Z)
    (results : list (Z * PortStatus)) : Outcome (list (Z * PortStatus)) :=
  match ports with
  | [] => Ok results
  | port :: ports' =>
      match sr1 env target port 1 with
      | Ok resp =>
          scan_with_scapy_from env target ports'
            (PyDict.set results port (scapy_status resp))
      | Raise e => Raise e
      end
  end.

Definition scan_with_scapy (env : Env) (target : string) (ports : list Z)
  : Outcome (list (Z * PortStatus)) :=
  scan_with_scapy_from env target ports [].

Definition scan_start_state (env : Env) (scan_id : string)
    (targets : list string) (ports : list Z) (timeout : Q) (w : Scanner)
  : St :=
  mkSt (start_scan env scan_id targets ports timeout w) []
       (mkResults scan_id (now_start env) targets ports timeout []
          None None None).

Definition run_scan (env : Env) (scan_id : string) (targets : list string)
    (ports : list Z) (timeout : Q) (w : Scanner) : Outcome unit * St :=
  _execute_scan env scan_id targets ports timeout
    (scan_start_state env scan_id targets ports timeout w).

End NetworkScanner.

(** ** A program logic for [M] *)

(** [hoare P m Q E]: from a state satisfying [P], [m] either returns [a]
    in a state satisfying [Q a], or raises [e] in a state satisfying
    [E e]. *)
Definition hoare {A} (P : St → Prop) (m : M A)
    (Q : A → St → Prop) (E : string → St → Prop) : Prop :=
  ∀ st, P st →
        match m st with
        | (Ok a, st') => Q a st'
        | (Raise e, st') => E e st'
        end.

(** ** What a poller can observe of one scan *)

Module Observe.

(** The entry of [active_scans] for the scan. *)
Definition rec_of (scan_id : string) (w : Scanner) : option ScanRecord :=
  active_scans w !! scan_id.

(** The stored results of the scan are those of scanner [w0]. *)
Definition unchanged_store (env : Env) (scan_id : string) (w0 w : Scanner)
  : Prop :=
  scan_results w !! scan_id = scan_results w0 !! scan_id
  ∧ files w !! results_file env scan_id
    = files w0 !! results_file env scan_id.

(** [100 * completed_tasks / total_tasks], as line 112 computes it. *)
Definition pct (total_tasks completed_tasks : nat) : Q :=
  ((Z.of_nat completed_tasks # Pos.of_nat total_tasks) * 100)%Q.

(** The successive progress values seen while the status is [running],
    oldest first ([h] is newest first). *)
Definition running_progress (scan_id : string) (h : list Scanner) : list Q :=
  omap (λ w, match rec_of scan_id w with
             | Some r => if decide (sc_status r = running)
                         then Some (sc_progress r) else None
             | None => None
             end) (reverse h).

(** The probe tasks of lines 92-106, in submission order. *)
Definition tasks (live_hosts : list string) (ports : list Z)
  : list (string * Z) :=
  flat_map (λ target, pair target <$> ports) live_hosts.

(** What [_scan_port] writes for [(target, port)]. *)
Definition probe_result (env : Env) (target : string) (port : Z)
    (timeout : Q) : PortResult :=
  match sr1 env target port timeout with
  | Ok response => NetworkScanner.port_status_of response port
  | Raise e =>
      mkPortResult st_error (NetworkScanner._guess_service port) (Some e)
  end.

(** One observable state: the scan has a record, its progress is a
    percentage, its ['results'] field is the empty dictionary of
    [start_scan], and no result is stored while it is running. *)
Definition state_ok (env : Env) (scan_id : string) (w0 w : Scanner)
  : Prop :=
  ∃ r, rec_of scan_id w = Some r
       ∧ (0 <= sc_progress r)%Q ∧ (sc_progress r <= 100)%Q
       ∧ (sc_status r = running → unchanged_store env scan_id w0 w)
       ∧ sc_results r = [].

(** Two successive observable states, [w] then [w']. *)
Definition step_ok (env : Env) (scan_id : string) (w w' : Scanner) : Prop :=
  ∃ r r', rec_of scan_id w = Some r ∧ rec_of scan_id w' = Some r'
          ∧ (sc_progress r <= sc_progress r')%Q
          ∧ (sc_status r' = sc_status r
             ∨ sc_status r = running
             ∨ (sc_status r = completed ∧ sc_status r' = error
                ∧ is_Some (fault env AtSave))).

(** [h] is newest first. *)
Fixpoint chain (env : Env) (scan_id : string) (h : list Scanner) : Prop :=
  match h with
  | w' :: h' =>
      match h' with
      | w :: _ => step_ok env scan_id w w' ∧ chain env scan_id h'
      | [] => True
      end
  | [] => True
  end.

Definition trace_ok (env : Env) (scan_id : string) (w0 w1 : Scanner)
    (st : St) : Prop :=
  Forall (state_ok env scan_id w0) (history st)
  ∧ chain env scan_id (history st)
  ∧ last (history st) = Some w1.


(** A step that only touches the local [results]. *)
Definition frame_only {A} (m : M A) : Prop :=
  ∀ st, self (m st).2 = self st ∧ past (m st).2 = past st.


(** The scan is running and [k] probe tasks have been counted. *)
Definition RunAt (env : Env) (scan_id : string) (targets : list string)
    (ports : list Z) (timeout : Q) (w0 : Scanner) 
    (k : nat) (st : St) : Prop :=
  trace_ok env scan_id w0
    (NetworkScanner.start_scan env scan_id targets ports timeout w0) st
  ∧ ∃ r, rec_of scan_id (self st) = Some r ∧ sc_status r = running
         ∧ (sc_progress r == pct (length targets * length ports) k)%Q
         ∧ running_progress scan_id (history st)
           = 0%Q :: (pct (length targets * length ports) <$> seq 1 k).

(** The state in which the [try] block can raise. *)
Definition RaisedAt (env : Env) (scan_id : string) (targets : list string)
    (ports : list Z) (timeout : Q) (w0 : Scanner) 
    (e : string) (st : St) : Prop :=
  trace_ok env scan_id w0
    (NetworkScanner.start_scan env scan_id targets ports timeout w0) st
  ∧ ∃ r, rec_of scan_id (self st) = Some r
         ∧ (sc_status r = running
            ∨ (sc_status r = completed ∧ fault env AtSave = Some e
               ∧ scan_results (self st) !! scan_id = Some (frame st))).

(** The scan has completed. *)
Definition CompletedAt (env : Env) (scan_id : string) (targets : list string)
    (ports : list Z) (timeout : Q) (w0 : Scanner) 
    (n : nat) (st : St) : Prop :=
  trace_ok env scan_id w0
    (NetworkScanner.start_scan env scan_id targets ports timeout w0) st
  ∧ ∃ r, rec_of scan_id (self st) = Some r ∧ sc_status r = completed
         ∧ sc_progress r = 100%Q
         ∧ running_progress scan_id (history st)
           = 0%Q :: (pct (length targets * length ports) <$> seq 1 n)
         ∧ scan_results (self st) !! scan_id = Some (frame st)
         ∧ files (self st) !! results_file env scan_id
           = Some (dumped (frame st)).


(** The scan has failed with message [e]. *)
Definition ErrorAt (env : Env) (scan_id : string) (targets : list string)
    (ports : list Z) (timeout : Q) (w0 : Scanner) 
    (e : string) (st : St) : Prop :=
  trace_ok env scan_id w0
    (NetworkScanner.start_scan env scan_id targets ports timeout w0) st
  ∧ ∃ r, rec_of scan_id (self st) = Some r ∧ sc_status r = error
         ∧ sc_error r = Some e.

(** [results['results']] has exactly the targets [live] as keys, and
    every port entry in it is what the probe of that port gives. *)
Definition frame_ok (env : Env) (timeout : Q) (live : list string)
    (fr : Results) : Prop :=
  NoDup (PyDict.keys (r_results fr))
  ∧ (∀ t, t ∈ PyDict.keys (r_results fr) ↔ t ∈ live)
  ∧ (∀ t td p pr,
        PyDict.get (r_results fr) t = Some td →
        PyDict.get (tr_ports td) p = Some pr →
        pr = probe_result env t p timeout)
  ∧ (∀ t td, PyDict.get (r_results fr) t = Some td →
             NoDup (PyDict.keys (tr_ports td))).

(** Every pair of [done] has an entry. *)
Definition probed (done : list (string * Z)) (fr : Results) : Prop :=
  ∀ t p, (t, p) ∈ done →
         ∃ td, PyDict.get (r_results fr) t = Some td
               ∧ is_Some (PyDict.get (tr_ports td) p).

Definition with_port (fr : Results) (t : string) (td : TargetResult)
    (p : Z) (pr : PortResult) : Results :=
  NetworkScanner.set_r_results fr
    (PyDict.set (r_results fr) t
       (mkTargetResult (tr_status td) (PyDict.set (tr_ports td) p pr))).

(** The exception is the one a collaborator raised. *)
Definition faulty (env : Env) (e : string) : Prop := ∃ stage, fault env stage = Some e.

End Observe.

(** ** Example environments *)

Module Examples.
Import NetworkScanner.

(** Replies by port: SYN+ACK on 80, RST+ACK on 22, RST on 23, nothing
    elsewhere; only 10.0.0.5 answers ARP. *)
Definition sr1_demo (target : string) (port : Z) (timeout : Q)
  : Outcome (option Packet) :=
  if bool_decide (port = 80) then Ok (Some (mkPacket (Some 0x12)))
  else if bool_decide (port = 22) then Ok (Some (mkPacket (Some 0x14)))
  else if bool_decide (port = 23) then Ok (Some (mkPacket (Some 0x04)))
  else if bool_decide (port = 25) then Raise "Operation not permitted"
  else Ok None.

Definition no_fault : Stage → option string := λ _, None.

(** The results directory holds one file per scan id. *)
Definition demo_file (scan_id : string) : string :=
  "scan_results/" +:+ scan_id +:+ ".json".

(** One live host out of two. *)
Definition env_one_live : Env :=
  mkEnv (λ t, Ok (bool_decide (t = "10.0.0.5"))) sr1_demo 1 2 3 no_fault
        demo_file None.

(** Every host answers. *)
Definition env_all_live : Env :=
  mkEnv (λ t, Ok true) sr1_demo 1 2 3 no_fault demo_file None.

(** Every host answers, and the anomaly detector raises. *)
Definition env_detect_fails : Env :=
  mkEnv (λ t, Ok true) sr1_demo 1 2 3
        (λ stage, match stage with
                  | AtDetect => Some "detector failed"
                  | _ => None
                  end) demo_file None.

(** ARP itself fails. *)
Definition env_arp_fails : Env :=
  mkEnv (λ t, Raise "Operation not permitted") sr1_demo 1 2 3 no_fault
        demo_file None.

(** A results directory in which a leading ["./"] of the scan id is
    of no account, as on a file system. *)
Definition dot_file (scan_id : string) : string :=
  if String.prefix "./" scan_id
  then demo_file (String.substring 2 (String.length scan_id - 2) scan_id)
  else demo_file scan_id.

(** Every host answers; scan ids are resolved as paths. *)
Definition env_paths : Env :=
  mkEnv (λ t, Ok true) sr1_demo 1 2 3 no_fault dot_file None.

(** Every host answers, and writing the results file fails half-way. *)
Definition env_save_fails : Env :=
  mkEnv (λ t, Ok true) sr1_demo 1 2 3
        (λ stage, match stage with
                  | AtSave => Some "No space left on device"
                  | _ => None
                  end)
        demo_file (Some "Expecting value: line 1 column 1 (char 0)").

Definition empty_scanner : Scanner := mkScanner ∅ ∅ ∅.

Definition two_targets : list string := ["10.0.0.5"; "10.0.0.6"].

End Examples.

(** ** Invariants of the registry writes *)

Module Writes.
Import NetworkScanner.

(** The field writes [_execute_scan] makes to its scan's record. *)
Inductive Setter : (ScanRecord → ScanRecord) → Prop :=
| Setter_progress q : Setter (set_progress q)
| Setter_status s : Setter (set_status s)
| Setter_end_time t : Setter (set_end_time t)
| Setter_duration t : Setter (set_duration t)
| Setter_error e : Setter (set_error e).

(** [Φ] is kept by every write of the scan [scan_id]: a field write to
    its record, the store of its results, the write of its file. *)
Definition write_closed (env : Env) (scan_id : string)
    (Φ : Scanner → Prop) : Prop :=
  (∀ w r f, Setter f → Φ w → active_scans w !! scan_id = Some r →
            Φ (set_active w (<[scan_id := f r]> (active_scans w))))
  ∧ (∀ w res, Φ w →
              Φ (mkScanner (active_scans w)
                   (<[scan_id := res]> (scan_results w)) (files w)))
  ∧ (∀ w content, Φ w →
              Φ (mkScanner (active_scans w) (scan_results w)
                   (<[results_file env scan_id := content]> (files w)))).

(** [m] keeps [Φ] on every observable state. *)
Definition preserves {A} (Φ : Scanner → Prop) (m : M A) : Prop :=
  ∀ st, Forall Φ (history st) → Forall Φ (history (m st).2).

(** The entries of every scan but [scan_id], and every file but the
    results file of [scan_id], are those of [w0]. *)
Definition others_same (env : Env) (scan_id : string) (w0 w : Scanner)
  : Prop :=
  (∀ id', id' ≠ scan_id →
          active_scans w !! id' = active_scans w0 !! id'
          ∧ scan_results w !! id' = scan_results w0 !! id')
  ∧ (∀ path, path ≠ results_file env scan_id →
             files w !! path = files w0 !! path).

(** The record of [scan_id] has the parameters given to [start_scan]. *)
Definition record_static (env : Env) (scan_id : string)
    (targets : list string) (ports : list Z) (timeout : Q) (w : Scanner)
  : Prop :=
  ∃ r, active_scans w !! scan_id = Some r
       ∧ sc_targets r = targets ∧ sc_ports r = ports
       ∧ sc_timeout r = timeout ∧ sc_start_time r = now_request env
       ∧ sc_results r = [].

(** [m] leaves the local [results] as they are. *)
Definition keeps_frame {A} (m : M A) : Prop :=
  ∀ st, frame (m st).2 = frame st.

(** Everything of the local [results] but the per-target results. *)
Definition meta (r : Results) :=
  (r_scan_id r, r_start_time r, r_targets r, r_ports r, r_timeout r,
   r_anomalies r, r_end_time r, r_duration r).

(** [m] changes at most the per-target results of the local [results]. *)
Definition keeps_meta {A} (m : M A) : Prop :=
  ∀ st, meta (frame (m st).2) = meta (frame st).

End Writes.

(** ** [str] methods used on target strings *)

Module PyStr.
Import Stdlib.Strings.Ascii.

(** [c in s] for a one-character [c]. *)
Fixpoint has (c : Ascii.ascii) (s : string) : bool :=
  match s with
  | EmptyString => false
  | String a s' => bool_decide (a = c) || has c s'
  end.

(** [s.rsplit(sep, 1)] when it has two parts, the text before and after
    the last [sep]; [None] when [sep] does not occur and the list has one
    element. *)
Fixpoint rsplit1 (sep : Ascii.ascii) (s : string) : option (string * string) :=
  match s with
  | EmptyString => None
  | String a s' =>
      match rsplit1 sep s' with
      | Some (before, after) => Some (String a before, after)
      | None => if bool_decide (a = sep) then Some (EmptyString, s') else None
      end
  end.

(** [s.split(sep)] for a one-character [sep]: never empty. *)
Fixpoint split (sep : Ascii.ascii) (s : string) : list string :=
  match s with
  | EmptyString => [EmptyString]
  | String a s' =>
      if bool_decide (a = sep) then EmptyString :: split sep s'
      else match split sep s' with
           | part :: parts => String a part :: parts
           | [] => [String a EmptyString]
           end
  end.

(** [sep.join(parts)] *)
Fixpoint join (sep : string) (parts : list string) : string :=
  match parts with
  | [] => EmptyString
  | [part] => part
  | part :: parts' => part +:+ sep +:+ join sep parts'
  end.

(** [dict.fromkeys(l)]: its keys, which [list(...)] returns, are the
    elements of [l] in the order of their first occurrence. *)
Definition fromkeys (l : list string) : list (string * unit) :=
  foldl (λ d k, PyDict.set d k tt) [] l.

End PyStr.

(** ** [scanner/ai_agent.py] *)

(** The results analysed are those the scanner writes: every port result
    has a status and a service, so the default of
    [port_data.get('service', ...)] is never taken. *)
Module ScannerAgent.

(** A dictionary appended by [_generate_security_recommendations]. *)
Record Recommendation := mkRecommendation {
  rec_severity : Severity;
  rec_service : string;
  rec_description : string;
  rec_recommendation : string
}.

(** The four shapes of dictionaries appended to ['insights']. *)
Inductive Insight :=
| statistics (total_targets total_ports_scanned open_ports closed_ports : nat)
             (error_ports : Z)
| common_services (services : list (string * nat))
| security_recommendations (recommendations : list Recommendation)
| anomalies_insight (count : nat) (details : list Finding).

(** [needle in s] on strings. *)
Fixpoint contains (needle s : string) : bool :=
  String.prefix needle s
  || match s with
     | EmptyString => false
     | String _ s' => contains needle s'
     end.

(** The body of the inner loop of lines 108-116, on
    [(total_ports, open_ports, closed_ports, common_open_ports)]. *)
Definition count_step (acc : nat * nat * nat * list (string * nat))
    (entry : Z * PortResult) : nat * nat * nat * list (string * nat) :=
  match acc with
  | (total_ports, open_ports, closed_ports, common_open_ports) =>
      let total_ports := S total_ports in
      if bool_decide (pr_status entry.2 = st_open) then
        let service := pr_service entry.2 in
        (total_ports, S open_ports, closed_ports,
         PyDict.set common_open_ports service
           (default 0%nat (PyDict.get common_open_ports service) + 1)%nat)
      else if bool_decide (pr_status entry.2 = st_closed) then
        (total_ports, open_ports, S closed_ports, common_open_ports)
      else (total_ports, open_ports, closed_ports, common_open_ports)
  end.

(** The two nested loops of lines 108-116. *)
Definition count_ports (results : Results)
  : nat * nat * nat * list (string * nat) :=
  foldl (λ acc item, foldl count_step acc (tr_ports item.2))
        (0%nat, 0%nat, 0%nat, []) (r_results results).

(** One step of a stable sort by decreasing count. *)
Fixpoint insert_desc (x : string * nat) (l : list (string * nat))
  : list (string * nat) :=
  match l with
  | [] => [x]
  | y :: l' => if (x.2 <? y.2)%nat then y :: insert_desc x l' else x :: l
  end.

(** [sorted(items, key=lambda x: x[1], reverse=True)]: decreasing counts,
    equal counts in their original order. *)
Definition sorted_desc (items : list (string * nat)) : list (string * nat) :=
  foldr insert_desc [] items.

(** The five tests of [_generate_security_recommendations], in order:
    keyword, severity, description, recommendation. *)
Definition security_checks : list (string * Severity * string * string) :=
  [ ("HTTP", medium,
     "Web services detected. Ensure they are properly secured with HTTPS and access controls.",
     "Configure HTTPS, implement secure headers, and restrict access if not publicly needed.");
    ("SSH", high,
     "SSH services detected. These are common targets for brute force attacks.",
     "Use key-based authentication, disable password login, and implement fail2ban.");
    ("FTP", high,
     "FTP services detected. FTP is insecure and transfers data in plaintext.",
     "Replace with SFTP or FTPS for secure file transfers.");
    ("SMB", high,
     "SMB services detected. SMB has had critical vulnerabilities in the past.",
     "Ensure SMB is properly configured, up-to-date, and not exposed to the internet.");
    ("RDP", high,
     "RDP services detected. RDP is a common target for attacks.",
     "Use strong passwords, implement Network Level Authentication, and consider a VPN.") ].

Definition _generate_security_recommendations
    (common_open_ports : list (string * nat)) : list Recommendation :=
  flat_map (λ item : string * nat,
    flat_map (λ check : string * Severity * string * string,
      match check with
      | (keyword, severity, description, recommendation) =>
          if contains keyword item.1
          then [mkRecommendation severity item.1 description recommendation]
          else []
      end) security_checks) common_open_ports.

(** The insights appended to the copy of the results, in order. *)
Definition insights_of (results : Results) : list Insight :=
  match count_ports results with
  | (total_ports, open_ports, closed_ports, common_open_ports) =>
      [statistics (length (r_targets results)) total_ports open_ports
         closed_ports
         (Z.of_nat total_ports - Z.of_nat open_ports
          - Z.of_nat closed_ports)]
      ++ (match common_open_ports with
          | [] => []
          | _ => [common_services (take 5 (sorted_desc common_open_ports))]
          end)
      ++ (match _generate_security_recommendations common_open_ports with
          | [] => []
          | recommendations => [security_recommendations recommendations]
          end)
      ++ (match r_anomalies results with
          | Some (a :: anomalies) =>
              [anomalies_insight (length (a :: anomalies))
                 (take 5 (a :: anomalies))]
          | _ => []
          end)
  end.

(** [analyze_scan_results]: a copy of the results with its insights. *)
Definition analyze_scan_results (results : Results)
  : Results * list Insight :=
  (results, insights_of results).

(** The dictionary built by line 114 from the services of the open
    ports. *)
Definition count_services_from (d : list (string * nat)) (l : list string)
  : list (string * nat) :=
  foldl (λ d service,
           PyDict.set d service
             (default 0%nat (PyDict.get d service) + 1)%nat) d l.

(** How often [s] occurs in [l]. *)
Definition occurrences (s : string) (l : list string) : nat :=
  length (filter (λ x, x = s) l).

(** Every port result of the scan, target after target. *)
Definition all_entries (results : Results) : list (Z * PortResult) :=
  flat_map (λ item, tr_ports item.2) (r_results results).

(** The services of the open ports, one per open port. *)
Definition open_services (results : Results) : list string :=
  (λ entry : Z * PortResult, pr_service entry.2)
    <$> filter (λ entry : Z * PortResult, pr_status entry.2 = st_open)
               (all_entries results).

Import Stdlib.Strings.Ascii.

(** [_expand_ip_range]: the two unpackings are outside the [try], their
    [ValueError] propagates; [int] is [int(s)] on a string, [None] for a
    [ValueError]. *)
Definition _expand_ip_range (int : string → option Z) (ip_range : string)
  : Outcome string :=
  if PyStr.has "-"%char ip_range then
    match PyStr.rsplit1 "."%char ip_range with
    | Some (base_part, range_part) =>
        if PyStr.has "-"%char range_part then
          match PyStr.split "-"%char range_part with
          | [start; end_] =>
              match int start, int end_ with
              | Some start_num, Some end_num =>
                  Ok (PyStr.join ","
                        ((λ i : Z, base_part +:+ "." +:+ pretty i)
                           <$> seqZ start_num (end_num + 1 - start_num)))
              | _, _ => Ok ip_range
              end
          | _ => Raise "too many values to unpack (expected 2)"
          end
        else Ok ip_range
    | None => Raise "not enough values to unpack (expected 2, got 1)"
    end
  else Ok ip_range.

(** The dictionary returned by [optimize_scan_parameters]. *)
Record ScanParams := mkScanParams {
  sp_targets : string;
  sp_scan_type : string;
  sp_custom_ports : option string
}.

(** [optimize_scan_parameters]; [strip] is [t.strip()].  An exception
    of [_expand_ip_range] propagates. *)
Definition optimize_scan_parameters (int : string → option Z)
    (strip : string → string) (targets scan_type : string)
    (custom_ports : option string) : Outcome ScanParams :=
  let optimized_targets :=
    if PyStr.has ","%char targets then
      let target_list := strip <$> PyStr.split ","%char targets in
      Ok (PyStr.join "," target_list)
    else if PyStr.has "-"%char targets
            && negb (String.prefix "http" targets) then
      _expand_ip_range int targets
    else Ok targets in
  match optimized_targets with
  | Ok optimized_targets =>
      let target_count :=
        length (PyStr.split ","%char optimized_targets) in
      if bool_decide (10 < target_count)%nat
         && bool_decide (scan_type = "comprehensive")
      then Ok (mkScanParams optimized_targets "standard" custom_ports)
      else Ok (mkScanParams optimized_targets scan_type custom_ports)
  | Raise e => Raise e
  end.

End ScannerAgent.

(** ** [utils/scanner_utils.py] *)

Module ScannerUtils.
Import Stdlib.Strings.Ascii.
Section Builtins.

(** [int(s)] on a string, [None] for a [ValueError]; [t.strip()]; and
    [[str(ip) for ip in ipaddress.ip_network(t, strict=False).hosts()]],
    [None] for a [ValueError]. *)
Context (int : string → option Z) (strip : string → string)
        (ip_network_hosts : string → option (list string)).

(** [f"{base_part}.{i}" for i in range(start_num, end_num + 1)] *)
Definition addresses (base_part : string) (start_num end_num : Z)
  : list string :=
  (λ i : Z, base_part +:+ "." +:+ pretty i)
    <$> seqZ start_num (end_num + 1 - start_num).

(** [expand_ip_range]: every exception of the [try] block is caught and
    the input is returned in a list of its own. *)
Definition expand_ip_range (ip_range : string) : list string :=
  if PyStr.has "-"%char ip_range then
    match PyStr.rsplit1 "."%char ip_range with
    | Some (base_part, range_part) =>
        if PyStr.has "-"%char range_part then
          match PyStr.split "-"%char range_part with
          | [start; end_] =>
              match int start, int end_ with
              | Some start_num, Some end_num =>
                  if bool_decide ((0 ≤ start_num ≤ 255)%Z
                                  ∧ (0 ≤ end_num ≤ 255)%Z)
                  then addresses base_part start_num end_num
                  else [ip_range]
              | _, _ => [ip_range]
              end
          | _ => [ip_range]
          end
        else [ip_range]
    | None => [ip_range]
    end
  else [ip_range].

(** The body of the loop of [parse_target_input]: what one target adds
    to [targets]. *)
Definition parse_target (target : string) : list string :=
  if PyStr.has "-"%char target && negb (String.prefix "http" target) then
    expand_ip_range target
  else if PyStr.has "/"%char target then
    match ip_network_hosts target with
    | Some ips => ips
    | None => [target]
    end
  else [target].

Definition parse_target_input (target_input : string) : list string :=
  match target_input with
  | EmptyString => []
  | _ =>
      let target_list := strip <$> PyStr.split ","%char target_input in
      let targets := flat_map parse_target target_list in
      PyDict.keys (PyStr.fromkeys targets)
  end.

End Builtins.
End ScannerUtils.


(** Instances of the builtins for the examples. *)
Module TargetExamples.
Import Stdlib.Strings.Ascii.

Fixpoint digits_from (acc : Z) (s : string) : option Z :=
  match s with
  | EmptyString => Some acc
  | String c s' =>
      let n := (Z.of_N (N_of_ascii c) - 48)%Z in
      if bool_decide ((0 ≤ n ≤ 9)%Z) then digits_from (10 * acc + n) s'
      else None
  end.

(** [int] on the strings of decimal digits; a [ValueError] on the
    others used below. *)
Definition digits_int (s : string) : option Z :=
  match s with
  | EmptyString => None
  | _ => digits_from 0 s
  end.

(** [strip] on strings that neither start nor end with white space. *)
Definition no_strip (s : string) : string := s.

(** [ipaddress] on the one network used below. *)
Definition hosts_demo (s : string) : option (list string) :=
  if bool_decide (s = "10.0.0.0/30") then Some ["10.0.0.1"; "10.0.0.2"]
  else None.

End TargetExamples.

(** ** Facts about [PyDict] *)

Section PyDictFacts.
Context {K V : Type} `{EqDecision K}.
Implicit Types (d : list (K * V)) (k : K) (v : V).

Lemma dict_get_set_eq d k v : PyDict.get (PyDict.set d k v) k = Some v.
Proof.
  induction d as [|[k' v'] d IH]; simpl.
  - by rewrite decide_True.
  - destruct (decide (k = k')) as [->|Hne]; simpl.
    + by rewrite decide_True.
    + by rewrite decide_False.
Qed.

Lemma dict_get_set_ne d k k' v : k ≠ k' → PyDict.get (PyDict.set d k v) k' = PyDict.get d k'.
Proof.
  intros Hne. induction d as [|[k0 v0] d IH]; simpl.
  - by rewrite decide_False.
  - destruct (decide (k = k0)) as [->|Hk]; simpl.
    + by rewrite !(decide_False (P := k' = k0)).
    + destruct (decide (k' = k0)); [done | apply IH].
Qed.

Lemma dict_get_None d k : PyDict.get d k = None ↔ k ∉ PyDict.keys d.
Proof.
  unfold PyDict.keys. induction d as [|[k' v'] d IH]; simpl.
  - split; [intros _; apply not_elem_of_nil | done].
  - rewrite not_elem_of_cons. destruct (decide (k = k')) as [->|Hne].
    + split; [done | intros [? _]; done].
    + rewrite IH. tauto.
Qed.

Lemma dict_get_Some_elem d k v : PyDict.get d k = Some v → (k, v) ∈ d.
Proof.
  induction d as [|[k' v'] d IH]; simpl; [done|].
  destruct (decide (k = k')) as [->|Hne].
  - intros [= ->]. apply list_elem_of_here.
  - intros H. apply list_elem_of_further. by apply IH.
Qed.

Lemma dict_elem_get_Some d k v : NoDup (PyDict.keys d) → (k, v) ∈ d → PyDict.get d k = Some v.
Proof.
  unfold PyDict.keys. induction d as [|[k' v'] d IH]; simpl.
  - intros _ H. by apply elem_of_nil in H.
  - rewrite NoDup_cons. intros [Hk Hd] [[= -> ->]|Hin]%elem_of_cons.
    + by rewrite decide_True.
    + rewrite decide_False; [by apply IH|].
      intros ->. apply Hk. apply list_elem_of_fmap. by exists (k', v).
Qed.

Lemma dict_keys_set d k v :
  PyDict.keys (PyDict.set d k v) = if PyDict.mem d k then PyDict.keys d else PyDict.keys d ++ [k].
Proof.
  unfold PyDict.keys, PyDict.mem. induction d as [|[k' v'] d IH]; simpl; [done|].
  destruct (decide (k = k')) as [->|Hne]; [done|].
  rewrite fmap_cons, IH. by destruct (PyDict.get d k).
Qed.

Lemma dict_set_fresh d k v : k ∉ PyDict.keys d → PyDict.set d k v = d ++ [(k, v)].
Proof.
  unfold PyDict.keys. induction d as [|[k' v'] d IH]; simpl; [done|].
  rewrite not_elem_of_cons. intros [Hne Hk].
  rewrite decide_False by done. by rewrite IH by done.
Qed.

Lemma dict_NoDup_keys_set d k v : NoDup (PyDict.keys d) → NoDup (PyDict.keys (PyDict.set d k v)).
Proof.
  intros Hd. rewrite dict_keys_set. unfold PyDict.mem.
  destruct (PyDict.get d k) eqn:Hg; [done|].
  apply NoDup_app. split_and!; [done | | apply NoDup_singleton].
  intros x Hx [->|[]%elem_of_nil]%elem_of_cons.
  by apply dict_get_None in Hg.
Qed.

Lemma dict_mem_true d k : PyDict.mem d k = true ↔ k ∈ PyDict.keys d.
Proof.
  unfold PyDict.mem. pose proof (dict_get_None d k) as H.
  destruct (PyDict.get d k); split; try done.
  - intros _. destruct (decide (k ∈ PyDict.keys d)); [done|].
    by apply H in n.
  - intros Hin. destruct H as [H _]. by destruct H.
Qed.

Lemma dict_elem_of_keys_set d k v k' :
  k' ∈ PyDict.keys (PyDict.set d k v) ↔ k' ∈ PyDict.keys d ∨ k' = k.
Proof.
  rewrite dict_keys_set. destruct (PyDict.mem d k) eqn:Hm.
  - apply dict_mem_true in Hm. split; [auto|]. by intros [?| ->].
  - rewrite elem_of_app, list_elem_of_singleton. done.
Qed.

Lemma dict_get_set d k v k' :
  PyDict.get (PyDict.set d k v) k'
  = if decide (k = k') then Some v else PyDict.get d k'.
Proof.
  destruct (decide (k = k')) as [->|Hne];
    [apply dict_get_set_eq | by apply dict_get_set_ne].
Qed.

Lemma dict_get_is_Some d k : is_Some (PyDict.get d k) ↔ k ∈ PyDict.keys d.
Proof.
  rewrite <- not_eq_None_Some, dict_get_None.
  split; [apply dec_stable | auto].
Qed.
End PyDictFacts.

(** ** Properties of the anomaly rules *)

Section AnomalyRules.
Import AnomalyDetector.

Lemma elem_of_flat_map {A B} (f : A → list B) (l : list A) (y : B) :
  y ∈ flat_map f l ↔ ∃ x, x ∈ l ∧ y ∈ f x.
Proof.
  rewrite list_elem_of_In, in_flat_map.
  split; intros (x & Hx & Hy); exists x; split;
    first [by apply list_elem_of_In | by apply list_elem_of_In in Hx
          | by apply list_elem_of_In in Hy].
Qed.

Lemma open_ports_of_elem td p :
  p ∈ open_ports_of td
  ↔ ∃ pr, (p, pr) ∈ tr_ports td ∧ pr_status pr = st_open.
Proof.
  unfold open_ports_of. rewrite list_elem_of_fmap. split.
  - intros ([p' pr] & -> & [Hs Hin]%list_elem_of_filter). by exists pr.
  - intros (pr & Hin & Hs). exists (p, pr). split; [done|].
    by apply list_elem_of_filter.
Qed.

Lemma matching_ports_spec combo open_ports p :
  p ∈ matching_ports combo open_ports ↔ p ∈ combo ∧ p ∈ open_ports.
Proof. unfold matching_ports. rewrite list_elem_of_filter. tauto. Qed.



Lemma suspicious_NoDup combo desc :
  (combo, desc) ∈ suspicious_combinations → NoDup combo.
Proof.
  unfold suspicious_combinations. rewrite !elem_of_cons, elem_of_nil.
  intros [H|[H|[H|[H|[]]]]]; injection H as -> _;
    repeat (apply NoDup_cons; split;
              [rewrite ?elem_of_cons, elem_of_nil; lia|]);
    apply NoDup_nil_2.
Qed.





(** *** Rule 3: grouping by pattern *)

Lemma sorted_spec l : Sorted Z.le (sorted l) ∧ sorted l ≡ₚ l.
Proof.
  split; [apply (Sorted_merge_sort Z.le) | apply merge_sort_Permutation].
Qed.

Lemma targets_with_open_ports_acc
    (rs : list (string * TargetResult)) (acc : list (string * list Z)) :
  NoDup (PyDict.keys acc ++ PyDict.keys rs) →
  foldl (λ acc item,
           match open_ports_of item.2 with
           | [] => acc
           | open_ports => PyDict.set acc item.1 open_ports
           end) acc rs
  = acc ++ filter (λ it, it.2 ≠ [])
                  ((λ it, (it.1, open_ports_of it.2)) <$> rs).
Proof.
  revert acc. induction rs as [|[t td] rs IH]; intros acc Hnd.
  - by rewrite app_nil_r.
  - cbn [foldl fst snd]. rewrite fmap_cons. cbn [fst snd].
    unfold PyDict.keys in *. rewrite fmap_cons in Hnd. cbn [fst] in Hnd.
    apply NoDup_app in Hnd as (Hacc & Hdis & [Ht Hrs]%NoDup_cons).
    destruct (open_ports_of td) as [|p ps] eqn:Hop.
    + rewrite filter_cons_False by (cbn; tauto).
      apply IH. apply NoDup_app. split_and!; [done| |done].
      intros x Hx Hx'. apply (Hdis x Hx). by apply list_elem_of_further.
    + rewrite filter_cons_True by done.
      rewrite dict_set_fresh.
      2:{ intros Hin. apply (Hdis t Hin). apply list_elem_of_here. }
      rewrite IH; [by rewrite <- app_assoc|].
      rewrite fmap_app. cbn. apply NoDup_app. split_and!; [| |done].
      * apply NoDup_app. split_and!; [done| |apply NoDup_singleton].
        intros x Hx [->|[]%elem_of_nil]%elem_of_cons.
        apply (Hdis t Hx). apply list_elem_of_here.
      * intros x [Hx|[->|[]%elem_of_nil]%elem_of_cons]%elem_of_app Hx';
          [|done].
        apply (Hdis x Hx). by apply list_elem_of_further.
Qed.

Lemma targets_with_open_ports_spec sr :
  NoDup (PyDict.keys (r_results sr)) →
  targets_with_open_ports sr
  = filter (λ it, it.2 ≠ [])
           ((λ it, (it.1, open_ports_of it.2)) <$> r_results sr).
Proof.
  intros Hnd. unfold targets_with_open_ports.
  by rewrite targets_with_open_ports_acc.
Qed.

Lemma group_step_get pp (item : string * list Z) pat :
  PyDict.get (group_step pp item) pat
  = if decide (sorted item.2 = pat)
    then Some (default [] (PyDict.get pp pat) ++ [item.1])
    else PyDict.get pp pat.
Proof.
  unfold group_step, PyDict.mem.
  destruct (PyDict.get pp (sorted item.2)) as [ms|] eqn:Hg.
  - destruct (decide (sorted item.2 = pat)) as [<-|Hne].
    + by rewrite dict_get_set_eq, Hg.
    + by rewrite dict_get_set_ne.
  - destruct (decide (sorted item.2 = pat)) as [<-|Hne].
    + by rewrite !dict_get_set_eq, Hg.
    + by rewrite !dict_get_set_ne.
Qed.

Lemma group_step_NoDup pp item :
  NoDup (PyDict.keys pp) → NoDup (PyDict.keys (group_step pp item)).
Proof.
  intros H. unfold group_step. apply dict_NoDup_keys_set.
  destruct (PyDict.mem pp (sorted item.2)); [done|].
  by apply dict_NoDup_keys_set.
Qed.

Lemma group_fold_NoDup twop acc :
  NoDup (PyDict.keys acc) →
  NoDup (PyDict.keys (foldl group_step acc twop)).
Proof.
  revert acc. induction twop as [|it twop IH]; intros acc H; [done|].
  cbn [foldl]. apply IH. by apply group_step_NoDup.
Qed.

Lemma group_fold_get twop acc pat :
  PyDict.get (foldl group_step acc twop) pat
  = match PyDict.get acc pat, pattern_members pat twop with
    | None, [] => None
    | o, ms => Some (default [] o ++ ms)
    end.
Proof.
  revert acc. induction twop as [|it twop IH]; intros acc.
  - cbn. destruct (PyDict.get acc pat); [by rewrite app_nil_r | done].
  - cbn [foldl]. rewrite IH, group_step_get. unfold pattern_members.
    destruct (decide (sorted it.2 = pat)) as [Heq|Hne].
    + rewrite filter_cons_True by done. rewrite fmap_cons.
      destruct (PyDict.get acc pat); cbn [default fmap list_fmap fst];
        unfold id; f_equal; by rewrite <- app_assoc.
    + by rewrite filter_cons_False by done.
Qed.



Lemma rule1_shape sr f :
  f ∈ _check_unusual_port_combinations sr →
  ∃ t m d, f = unusual_port_combination t m d medium 0.75.
Proof.
  unfold _check_unusual_port_combinations, combination_findings.
  intros (item & _ & (combo & _ & Hf)%elem_of_flat_map)%elem_of_flat_map.
  destruct (2 <=? _)%nat; [|by apply elem_of_nil in Hf].
  apply list_elem_of_singleton in Hf. eauto.
Qed.

Lemma rule2_shape sr f :
  f ∈ _check_potential_vulnerabilities sr →
  ∃ t p sv d sev, f = potential_vulnerability t p sv d sev 0.8.
Proof.
  unfold _check_potential_vulnerabilities.
  intros (item & _ & (pp & _ & Hf)%elem_of_flat_map)%elem_of_flat_map.
  destruct (bool_decide _); [|by apply elem_of_nil in Hf].
  apply elem_of_flat_map in Hf as ([[[vp vs] vd] vsev] & _ & Hf).
  destruct (bool_decide _); [|by apply elem_of_nil in Hf].
  apply list_elem_of_singleton in Hf. eauto 6.
Qed.

Lemma pattern_finding_shape group f :
  f ∈ pattern_finding group →
  f = identical_port_pattern group.2 group.1
        (pattern_description (length group.2)) low 0.7
  ∧ (1 < length group.2)%nat ∧ (2 < length group.1)%nat.
Proof.
  unfold pattern_finding.
  destruct (1 <? _)%nat eqn:H1; [|by intros ?%elem_of_nil].
  destruct (2 <? _)%nat eqn:H2; [|by intros ?%elem_of_nil].
  cbn. intros ->%list_elem_of_singleton.
  apply Nat.ltb_lt in H1, H2. done.
Qed.

Lemma rule3_shape sr f :
  f ∈ _check_unusual_network_patterns sr →
  ∃ ts pat, f = identical_port_pattern ts pat
                  (pattern_description (length ts)) low 0.7
            ∧ (1 < length ts)%nat ∧ (2 < length pat)%nat.
Proof.
  unfold _check_unusual_network_patterns.
  destruct (1 <? _)%nat; [|by intros ?%elem_of_nil].
  intros ([pat ts] & _ & Hf)%elem_of_flat_map.
  apply pattern_finding_shape in Hf. eauto.
Qed.







Lemma pattern_members_results rs pat :
  pattern_members pat
    (filter (λ it, it.2 ≠ [])
            ((λ it : string * TargetResult,
                (it.1, open_ports_of it.2)) <$> rs))
  = (filter (λ it : string * TargetResult,
               open_ports_of it.2 ≠ []
               ∧ sorted (open_ports_of it.2) = pat) rs).*1.
Proof.
  unfold pattern_members. induction rs as [|[t td] rs IH]; [done|].
  rewrite fmap_cons. cbn [fst snd].
  destruct (decide (open_ports_of td = [])) as [He|Hne].
  - rewrite !filter_cons_False by (cbn; tauto). apply IH.
  - rewrite (filter_cons_True (λ it, it.2 ≠ [])) by done.
    destruct (decide (sorted (open_ports_of td) = pat)) as [Hp|Hp].
    + rewrite !filter_cons_True by done. rewrite !fmap_cons. cbn [fst].
      by rewrite IH.
    + rewrite !filter_cons_False by (cbn; tauto). apply IH.
Qed.

End AnomalyRules.


(** ** Rules of the program logic *)

Section HoareRules.
Context {A B : Type}.

Lemma hoare_ret (a : A) (Q : A → St → Prop) E :
  hoare (Q a) (ret a) Q E.
Proof. by intros st H. Qed.

Lemma hoare_raise e (Q : A → St → Prop) (E : string → St → Prop) :
  hoare (E e) (raise e) Q E.
Proof. by intros st H. Qed.

Lemma hoare_bind (m : M A) (f : A → M B) P Q R E :
  hoare P m Q E → (∀ a, hoare (Q a) (f a) R E) → hoare P (bind m f) R E.
Proof.
  intros Hm Hf st HP. unfold bind. specialize (Hm st HP).
  destruct (m st) as [[a|e] st']; [by apply Hf | done].
Qed.

Lemma hoare_try (m : M A) (h : string → M A) P Q E E' :
  hoare P m Q E' → (∀ e, hoare (E' e) (h e) Q E) →
  hoare P (try_except m h) Q E.
Proof.
  intros Hm Hh st HP. unfold try_except. specialize (Hm st HP).
  destruct (m st) as [[a|e] st']; [done | by apply Hh].
Qed.

Lemma hoare_conseq (m : M A) (P P' : St → Prop) (Q Q' : A → St → Prop)
    (E E' : string → St → Prop) :
  hoare P' m Q' E' →
  (∀ st, P st → P' st) → (∀ a st, Q' a st → Q a st) →
  (∀ e st, E' e st → E e st) →
  hoare P m Q E.
Proof.
  intros Hm HP HQ HE st H. specialize (Hm st (HP st H)).
  destruct (m st) as [[a|e] st']; auto.
Qed.

Lemma hoare_conj (m : M A) P1 P2 (Q1 Q2 : A → St → Prop)
    (E1 E2 : string → St → Prop) :
  hoare P1 m Q1 E1 → hoare P2 m Q2 E2 →
  hoare (λ st, P1 st ∧ P2 st) m (λ a st, Q1 a st ∧ Q2 a st)
        (λ e st, E1 e st ∧ E2 e st).
Proof.
  intros H1 H2 st [HP1 HP2]. specialize (H1 st HP1). specialize (H2 st HP2).
  destruct (m st) as [[a|e] st']; auto.
Qed.

Lemma hoare_lift (o : Outcome A) (P : St → Prop) :
  hoare P (lift o) (λ a st, o = Ok a ∧ P st) (λ e st, o = Raise e ∧ P st).
Proof. intros st H. unfold lift. by destruct o. Qed.

Lemma hoare_pre (m : M A) (P : St → Prop) (φ : Prop) Q E :
  (φ → hoare P m Q E) → hoare (λ st, φ ∧ P st) m Q E.
Proof. intros H st [Hφ HP]. by apply H. Qed.
End HoareRules.

Lemma hoare_get_self (P : St → Prop) :
  hoare P get_self (λ w st, w = self st ∧ P st) (λ _ _, False).
Proof. by intros st H. Qed.

Lemma hoare_get_frame (P : St → Prop) :
  hoare P get_frame (λ r st, r = frame st ∧ P st) (λ _ _, False).
Proof. by intros st H. Qed.

Lemma hoare_set_frame r (Q : unit → St → Prop) E :
  hoare (λ st, Q tt (mkSt (self st) (past st) r)) (set_frame r) Q E.
Proof. by intros st H. Qed.

Lemma hoare_commit f (Q : unit → St → Prop) E :
  hoare (λ st, Q tt (mkSt (f (self st)) (self st :: past st) (frame st)))
        (commit f) Q E.
Proof. by intros st H. Qed.

Lemma hoare_call {A} env stage (a : A) (P : St → Prop) :
  hoare P (NetworkScanner.call env stage a)
        (λ v st, v = a ∧ fault env stage = None ∧ P st)
        (λ e st, fault env stage = Some e ∧ P st).
Proof.
  intros st H. unfold NetworkScanner.call.
  by destruct (fault env stage).
Qed.

(** ** Percentages *)

Section Pct.
Import Observe.

Lemma Zpos_of_nat (n : nat) : (0 < n)%nat → Z.pos (Pos.of_nat n) = Z.of_nat n.
Proof.
  intros Hn. rewrite <- positive_nat_Z, Nat2Pos.id; [done | lia].
Qed.

Lemma pct_0 total : (pct total 0 == 0)%Q.
Proof. unfold pct, Qeq. cbn. lia. Qed.

Lemma pct_nonneg total k : (0 <= pct total k)%Q.
Proof. unfold pct, Qle. cbn. lia. Qed.

Lemma pct_mono total k : (pct total k <= pct total (S k))%Q.
Proof.
  unfold pct, Qle. cbn [Qnum Qden Qmult].
  rewrite Nat2Z.inj_succ. nia.
Qed.

Lemma pct_bound total k :
  (k ≤ total)%nat → (0 < total)%nat → (pct total k <= 100)%Q.
Proof.
  intros Hk Ht. unfold pct, Qle. cbn [Qnum Qden Qmult].
  rewrite Pos2Z.inj_mul, Zpos_of_nat by done. nia.
Qed.

Lemma pct_full total : (0 < total)%nat → (pct total total == 100)%Q.
Proof.
  intros Ht. unfold pct, Qeq. cbn [Qnum Qden Qmult].
  rewrite Pos2Z.inj_mul, Zpos_of_nat by done. nia.
Qed.

Lemma py_div_pct total k q :
  NetworkScanner.py_div k total = Ok q → (q * 100)%Q = pct total k.
Proof.
  unfold NetworkScanner.py_div, pct. case_bool_decide; [done|].
  by intros [= <-].
Qed.
End Pct.

(** ** Steps that only touch the local [results] *)

Section FrameOnly.
Import NetworkScanner Observe.

Lemma frame_only_ret {A} (a : A) : frame_only (ret a).
Proof. by intros st. Qed.

Lemma frame_only_raise {A} e : frame_only (@raise A e).
Proof. by intros st. Qed.

Lemma frame_only_lift {A} (o : Outcome A) : frame_only (lift o).
Proof. by intros st. Qed.

Lemma frame_only_get_frame : frame_only get_frame.
Proof. by intros st. Qed.

Lemma frame_only_set_frame r : frame_only (set_frame r).
Proof. by intros st. Qed.

Lemma frame_only_call {A} env stage (a : A) : frame_only (call env stage a).
Proof. intros st. unfold call. by destruct (fault env stage). Qed.

Lemma frame_only_bind {A B} (m : M A) (f : A → M B) :
  frame_only m → (∀ a, frame_only (f a)) → frame_only (bind m f).
Proof.
  intros Hm Hf st. unfold bind. specialize (Hm st).
  destruct (m st) as [[a|e] st']; cbn in *; [|done].
  destruct (Hf a st') as [-> ->]. done.
Qed.

Lemma frame_only_try {A} (m : M A) (h : string → M A) :
  frame_only m → (∀ e, frame_only (h e)) → frame_only (try_except m h).
Proof.
  intros Hm Hh st. unfold try_except. specialize (Hm st).
  destruct (m st) as [[a|e] st']; cbn in *; [done|].
  destruct (Hh e st') as [-> ->]. done.
Qed.

Lemma frame_only_write_port target port pr :
  frame_only (write_port target port pr).
Proof.
  apply frame_only_bind; [apply frame_only_get_frame|]. intros r.
  destruct (PyDict.get _ _);
    [apply frame_only_set_frame | apply frame_only_raise].
Qed.

Lemma frame_only_scan_port env scan_id target port timeout :
  frame_only (_scan_port env scan_id target port timeout).
Proof.
  apply frame_only_try.
  - apply frame_only_bind; [apply frame_only_lift|].
    intros r. apply frame_only_write_port.
  - intros e. apply frame_only_write_port.
Qed.

Lemma frame_only_submit_ports env target ports futures :
  frame_only (submit_ports env target ports futures).
Proof.
  revert futures. induction ports as [|p ports IH]; intros futures.
  - apply frame_only_ret.
  - cbn [submit_ports]. apply frame_only_bind; [apply frame_only_call|].
    intros _. apply IH.
Qed.

Lemma frame_only_submit_targets env live ports futures :
  frame_only (submit_targets env live ports futures).
Proof.
  revert futures. induction live as [|t live IH]; intros futures.
  - apply frame_only_ret.
  - cbn [submit_targets].
    apply frame_only_bind; [apply frame_only_get_frame|]. intros r.
    apply frame_only_bind; [apply frame_only_set_frame|]. intros _.
    apply frame_only_bind; [apply frame_only_submit_ports|]. intros fs.
    apply IH.
Qed.

Lemma frame_only_detect env : frame_only (_detect_anomalies env).
Proof.
  apply frame_only_bind; [apply frame_only_get_frame|]. intros r.
  apply frame_only_bind; [apply frame_only_call|]. intros a.
  apply frame_only_set_frame.
Qed.

(** A frame-only step keeps any assertion on the scanner and its past. *)
Lemma hoare_frame_only {A} (m : M A) (P : Scanner → list Scanner → Prop) :
  frame_only m →
  hoare (λ st, P (self st) (past st)) m
        (λ _ st, P (self st) (past st)) (λ _ st, P (self st) (past st)).
Proof.
  intros Hm st HP. destruct (Hm st) as [Hs Hp].
  destruct (m st) as [[a|e] st']; cbn in *; by rewrite Hs, Hp.
Qed.

(** The futures returned by the submission loops. *)
Lemma submit_ports_value env target ports futures st v st' :
  submit_ports env target ports futures st = (Ok v, st') →
  v = futures ++ (pair target <$> ports).
Proof.
  revert futures st. induction ports as [|p ports IH]; intros futures st.
  - cbn. intros [= <- _]. by rewrite app_nil_r.
  - cbn [submit_ports]. unfold bind, call.
    destruct (fault env _); cbn; [done|].
    intros H%IH. by rewrite H, <- app_assoc.
Qed.

Lemma submit_targets_value env live ports futures st v st' :
  submit_targets env live ports futures st = (Ok v, st') →
  v = futures ++ tasks live ports.
Proof.
  revert futures st. induction live as [|t live IH]; intros futures st.
  - cbn. intros [= <- _]. by rewrite app_nil_r.
  - cbn [submit_targets]. unfold bind at 1 2 3. cbn.
    destruct (submit_ports _ _ _ _ _) as [[fs|e] st1] eqn:Hs; [|done].
    apply submit_ports_value in Hs as ->.
    intros H%IH. by rewrite H, <- app_assoc.
Qed.

Lemma length_tasks live ports :
  length (tasks live ports) = (length live * length ports)%nat.
Proof.
  unfold tasks. induction live as [|t live IH]; [done|].
  cbn [flat_map]. rewrite length_app, length_fmap, IH. cbn. lia.
Qed.

Lemma elem_of_tasks live ports t p :
  (t, p) ∈ tasks live ports ↔ t ∈ live ∧ p ∈ ports.
Proof.
  unfold tasks. rewrite elem_of_flat_map. split.
  - intros (t' & Ht & (p' & [= -> ->] & Hp)%list_elem_of_fmap). done.
  - intros [Ht Hp]. exists t. split; [done|].
    apply list_elem_of_fmap. by exists p.
Qed.

Lemma discover_sublist env targets :
  sublist (_discover_hosts env targets) targets.
Proof.
  unfold _discover_hosts. induction targets as [|t ts IH]; [done|].
  cbn. destruct (host_is_live env t);
    [by apply sublist_skip | by apply sublist_cons].
Qed.

Lemma discover_length env targets :
  (length (_discover_hosts env targets) ≤ length targets)%nat.
Proof. apply sublist_length, discover_sublist. Qed.
End FrameOnly.

(** ** The registry along one scan *)

Section ScanRun.
Import NetworkScanner Observe.
Variables (env : Env) (scan_id : string).
Variables (targets : list string) (ports : list Z) (timeout : Q).
Variable (w0 : Scanner).

Abbreviation w1 := (start_scan env scan_id targets ports timeout w0).
Abbreviation total := (length targets * length ports)%nat.
Abbreviation T_ok := (trace_ok env scan_id w0 w1).
Abbreviation RunAt := (Observe.RunAt env scan_id targets ports timeout w0).
Abbreviation RaisedAt :=
  (Observe.RaisedAt env scan_id targets ports timeout w0).
Abbreviation CompletedAt :=
  (Observe.CompletedAt env scan_id targets ports timeout w0).
Abbreviation ErrorAt := (Observe.ErrorAt env scan_id targets ports timeout w0).

Lemma update_scan_eq f st r :
  rec_of scan_id (self st) = Some r →
  update_scan scan_id f st
  = (Ok tt, mkSt (set_active (self st)
                    (<[scan_id := f r]> (active_scans (self st))))
                 (self st :: past st) (frame st)).
Proof.
  unfold rec_of. intros H. unfold update_scan, bind, get_self. by rewrite H.
Qed.

Lemma if_active_eq m st r :
  rec_of scan_id (self st) = Some r → if_active scan_id m st = m st.
Proof.
  unfold rec_of. intros H. unfold if_active, bind, get_self.
  rewrite bool_decide_eq_true_2; [done | by rewrite H].
Qed.

Lemma rec_of_update w r' :
  rec_of scan_id (set_active w (<[scan_id := r']> (active_scans w)))
  = Some r'.
Proof. unfold rec_of. cbn. apply lookup_insert_eq. Qed.

Lemma running_progress_push w h :
  running_progress scan_id (w :: h)
  = running_progress scan_id h
    ++ match rec_of scan_id w with
       | Some r => if decide (sc_status r = running)
                   then [sc_progress r] else []
       | None => []
       end.
Proof.
  unfold running_progress. rewrite reverse_cons, omap_app. f_equal.
  cbn. destruct (rec_of scan_id w) as [r|]; [|done].
  by destruct (decide _).
Qed.

Lemma trace_ok_push st w' fr :
  T_ok st → state_ok env scan_id w0 w' → step_ok env scan_id (self st) w' →
  T_ok (mkSt w' (self st :: past st) fr).
Proof.
  intros (Hall & Hch & Hlast) Hs Hstep. unfold trace_ok, history in *. cbn.
  split_and!; [by apply Forall_cons | done | done | done].
Qed.

Lemma trace_ok_cur st :
  T_ok st → state_ok env scan_id w0 (self st).
Proof. intros (Hall & _). by apply Forall_cons_1 in Hall as [? _]. Qed.

(** Assertions on the registry do not depend on the local [results]. *)
Lemma trace_ok_frame st st' :
  self st' = self st → past st' = past st → T_ok st → T_ok st'.
Proof. unfold trace_ok, history. by intros -> ->. Qed.

Lemma RunAt_frame k st st' :
  self st' = self st → past st' = past st → RunAt k st → RunAt k st'.
Proof.
  intros Hs Hp [HT HR]. split; [by eapply trace_ok_frame|].
  unfold history in *. by rewrite Hs, Hp.
Qed.

(** Writing one field of the scan's record. *)
Lemma push_update f st r :
  T_ok st →
  rec_of scan_id (self st) = Some r →
  (0 <= sc_progress (f r))%Q → (sc_progress (f r) <= 100)%Q →
  (sc_progress r <= sc_progress (f r))%Q →
  (sc_status (f r) = sc_status r ∨ sc_status r = running
   ∨ (sc_status r = completed ∧ sc_status (f r) = error
      ∧ is_Some (fault env AtSave))) →
  (sc_status (f r) = running → sc_status r = running) →
  sc_results (f r) = sc_results r →
  ∃ st', update_scan scan_id f st = (Ok tt, st')
         ∧ T_ok st'
         ∧ rec_of scan_id (self st') = Some (f r)
         ∧ scan_results (self st') = scan_results (self st)
         ∧ files (self st') = files (self st)
         ∧ frame st' = frame st
         ∧ running_progress scan_id (history st')
           = running_progress scan_id (history st)
             ++ (if decide (sc_status (f r) = running)
                 then [sc_progress (f r)] else []).
Proof.
  intros HT Hr H0 H100 Hmono Hstat Hrun Hres.
  eexists. split; [by apply update_scan_eq|]. cbn [self past frame].
  split_and!; try done; [|apply rec_of_update|
    unfold history at 1; cbn [self past];
    by rewrite running_progress_push, rec_of_update].
  apply trace_ok_push; [done| |].
  - destruct (trace_ok_cur _ HT) as (r2 & Hr2 & _ & _ & Hu & He).
    rewrite Hr in Hr2. injection Hr2 as <-.
    exists (f r). rewrite rec_of_update. split_and!; try done.
    + intros Hf. by apply Hu, Hrun.
    + by rewrite Hres.
  - exists r, (f r). by rewrite rec_of_update.
Qed.

Lemma RunAt_raised k e st : RunAt k st → RaisedAt e st.
Proof. intros [HT (r & Hr & Hs & _)]. split; [done|]. exists r. auto. Qed.

Lemma hoare_RunAt_frame {A} (m : M A) k :
  frame_only m → hoare (RunAt k) m (λ _, RunAt k) RaisedAt.
Proof.
  intros Hm st HR. destruct (Hm st) as [Hs Hp].
  destruct (m st) as [[a|e] st']; cbn in Hs, Hp.
  - by apply (RunAt_frame k st).
  - apply (RunAt_raised k), (RunAt_frame k st); done.
Qed.

(** The loop of lines 109-116 on the registry. *)
Lemma await_registry futures : ∀ k,
  (k + length futures ≤ total)%nat →
  hoare (RunAt k) (await_futures env scan_id timeout total futures k)
        (λ _, RunAt (k + length futures)) RaisedAt.
Proof.
  induction futures as [|[t p] fs IH]; intros k Hk st HR.
  - cbn. by rewrite Nat.add_0_r.
  - cbn [await_futures]. unfold bind at 1.
    pose proof (hoare_RunAt_frame _ k
                  (frame_only_scan_port env scan_id t p timeout) st HR) as H1.
    destruct (_scan_port env scan_id t p timeout st) as [[[]|e] st1]; [|done].
    unfold bind at 1, lift.
    destruct (py_div (S k) total) as [q|e] eqn:Hq;
      [|by apply (RunAt_raised k)].
    apply py_div_pct in Hq. rewrite Hq.
    destruct H1 as [HT (r & Hr & Hst & Hprog & Hrp)].
    unfold bind at 1. rewrite (if_active_eq _ _ r Hr).
    cbn [length] in Hk.
    destruct (push_update (set_progress (pct total (S k))) st1 r HT Hr)
      as (st2 & Heq & HT2 & Hr2 & _ & _ & _ & Hh);
      cbn [set_progress sc_progress sc_status].
    { apply pct_nonneg. }
    { apply pct_bound; lia. }
    { rewrite Hprog. apply pct_mono. }
    { by left. }
    { done. }
    { done. }
    rewrite Heq. cbn [length].
    replace (k + S (length fs))%nat with (S k + length fs)%nat by lia.
    apply IH; [lia|]. split; [done|].
    eexists. split_and!; [exact Hr2 | done | reflexivity |].
    rewrite Hh. cbn [set_progress sc_status sc_progress].
    rewrite decide_True by done.
    rewrite Hrp, seq_S, fmap_app. done.
Qed.

Lemma RunAt_start fr : RunAt 0 (mkSt w1 [] fr).
Proof.
  assert (rec_of scan_id w1
          = Some (mkScanRecord running (now_request env) 0 targets ports
                    timeout [] None None None)) as Hrec
    by apply rec_of_update.
  split.
  - split_and!; [|done|done]. apply Forall_singleton.
    eexists. split_and!; [exact Hrec | done | done | done | done].
  - eexists. split_and!; [exact Hrec | done | symmetry; apply pct_0 |].
    unfold history. cbn [self past].
    rewrite running_progress_push, Hrec. done.
Qed.

(** A write to [scan_results] or to the results directory, once the scan
    is no longer running. *)
Lemma push_store g st r :
  T_ok st →
  rec_of scan_id (self st) = Some r →
  sc_status r ≠ running →
  active_scans (g (self st)) = active_scans (self st) →
  T_ok (mkSt (g (self st)) (self st :: past st) (frame st))
  ∧ rec_of scan_id (g (self st)) = Some r
  ∧ running_progress scan_id (g (self st) :: history st)
    = running_progress scan_id (history st).
Proof.
  intros HT Hr Hs Hg.
  assert (rec_of scan_id (g (self st)) = Some r) as Hr'
    by (unfold rec_of in *; by rewrite Hg).
  destruct (trace_ok_cur _ HT) as (r2 & Hr2 & H0 & H100 & _ & He).
  rewrite Hr in Hr2. injection Hr2 as <-.
  split_and!; [|done|].
  - apply trace_ok_push; [done| |].
    + exists r. done.
    + exists r, r. split_and!; [done | done | apply Qle_refl | by left].
  - rewrite running_progress_push, Hr'.
    rewrite decide_False by done. apply app_nil_r.
Qed.

(** The [try] block on the registry. *)
Ltac reg_side :=
  cbn [set_status set_progress set_end_time set_duration set_error
       sc_status sc_progress];
  first [ done | apply Qle_refl | by left | by (right; left)
        | by (unfold Qle; cbn; lia) ].

Lemma try_registry :
  hoare (RunAt 0) (_execute_scan_try env scan_id targets ports timeout)
        (λ _, CompletedAt (length (_discover_hosts env targets)
                           * length ports))
        RaisedAt.
Proof.
  unfold _execute_scan_try.
  eapply hoare_bind.
  { apply (hoare_RunAt_frame _ 0), frame_only_set_frame. }
  intros ?; cbv beta.
  eapply hoare_bind
    with (Q := λ live st, live = _discover_hosts env targets ∧ RunAt 0 st).
  { intros st HR.
    pose proof (hoare_RunAt_frame _ 0
      (frame_only_call env AtDiscover (_discover_hosts env targets)) st HR)
      as H.
    unfold call in *. by destruct (fault env AtDiscover). }
  intros live. apply hoare_pre. intros ->.
  eapply hoare_bind
    with (Q := λ fs st,
                 fs = tasks (_discover_hosts env targets) ports ∧ RunAt 0 st).
  { intros st HR.
    pose proof (hoare_RunAt_frame _ 0
      (frame_only_submit_targets env (_discover_hosts env targets) ports [])
      st HR) as H.
    destruct (submit_targets _ _ _ _ st) as [[fs|e] st'] eqn:Hs; [|done].
    split; [|done]. by apply submit_targets_value in Hs. }
  intros fs. apply hoare_pre. intros ->.
  eapply hoare_bind.
  { apply await_registry. rewrite length_tasks.
    pose proof (discover_length env targets). nia. }
  intros ?; cbv beta. cbn [Nat.add]. rewrite length_tasks.
  set (n := (length (_discover_hosts env targets) * length ports)%nat).
  eapply hoare_bind.
  { apply hoare_RunAt_frame, frame_only_detect. }
  intros ? st HR.
  unfold bind at 1 2. cbn [get_frame set_frame].
  set (fr := mkResults _ _ _ _ _ _ _ _ _).
  set (st1 := mkSt (self st) (past st) fr).
  assert (RunAt n st1) as [HT (r & Hr & Hst & _ & Hrp)]
    by (by apply (RunAt_frame n st)).
  destruct (trace_ok_cur _ HT) as (r' & Hr' & H0 & H100 & _ & _).
  rewrite Hr in Hr'. injection Hr' as <-.
  unfold bind at 1. rewrite (if_active_eq _ _ r Hr).
  (* status = 'completed' *)
  unfold bind at 1.
  destruct (push_update (set_status completed) st1 r HT Hr)
    as (st2 & -> & HT2 & Hr2 & Hsr2 & Hfl2 & Hfr2 & Hrp2);
    try reg_side.
  (* progress = 100 *)
  unfold bind at 1.
  destruct (push_update (set_progress 100) st2 _ HT2 Hr2)
    as (st3 & -> & HT3 & Hr3 & Hsr3 & Hfl3 & Hfr3 & Hrp3);
    try reg_side.
  (* end_time *)
  unfold bind at 1.
  destruct (push_update (set_end_time (now_end env)) st3 _ HT3 Hr3)
    as (st4 & -> & HT4 & Hr4 & Hsr4 & Hfl4 & Hfr4 & Hrp4);
    try reg_side.
  (* duration *)
  destruct (push_update
              (set_duration (now_end env - now_start env)%Q) st4 _ HT4 Hr4)
    as (st5 & -> & HT5 & Hr5 & Hsr5 & Hfl5 & Hfr5 & Hrp5);
    try reg_side.
  cbn [set_status set_progress set_end_time set_duration sc_status
         sc_progress] in *.
  rewrite decide_False, app_nil_r in Hrp2, Hrp3, Hrp4, Hrp5 by done.
  (* self.scan_results[scan_id] = results *)
  unfold bind at 1 2. cbn [get_frame commit].
  set (g := λ w, mkScanner (active_scans w)
                   (<[scan_id := frame st5]> (scan_results w)) (files w)).
  destruct (push_store g st5 _ HT5 Hr5) as (HT6 & Hr6 & Hrp6); [done|done|].
  set (st6 := mkSt (g (self st5)) (self st5 :: past st5) (frame st5)) in *.
  (* _save_results *)
  unfold _save_results.
  destruct (fault env AtSave) as [e|] eqn:Hsave.
  - destruct (torn_write env) as [d|].
    + unfold bind, write_file. cbn [raise commit].
      set (g' := λ w, mkScanner (active_scans w) (scan_results w)
                        (<[results_file env scan_id := unreadable d]>
                           (files w))).
      destruct (push_store g' st6 _ HT6 Hr6) as (HT7 & Hr7 & Hrp7);
        [done|done|].
      split; [done|]. eexists. split; [exact Hr7|]. right.
      split_and!; [done | done |]. cbn. apply lookup_insert_eq.
    + cbn [raise]. split; [done|]. eexists. split; [exact Hr6|]. right.
      split_and!; [done | done |]. cbn. apply lookup_insert_eq.
  - unfold write_file. cbn [commit].
    set (g' := λ w, mkScanner (active_scans w) (scan_results w)
                      (<[results_file env scan_id := dumped (frame st5)]>
                         (files w))).
    destruct (push_store g' st6 _ HT6 Hr6) as (HT7 & Hr7 & Hrp7);
      [done|done|].
    split; [done|]. eexists. split_and!; [exact Hr7 | done | done | | |].
    + transitivity (running_progress scan_id (history st6));
        [exact Hrp7|].
      transitivity (running_progress scan_id (history st5));
        [exact Hrp6|].
      by rewrite Hrp5, Hrp4, Hrp3, Hrp2.
    + cbn. apply lookup_insert_eq.
    + cbn. apply lookup_insert_eq.
Qed.

(** The [except] handler on the registry. *)
Lemma except_registry e st :
  RaisedAt e st →
  ∃ st', _execute_scan_except scan_id e st = (Ok tt, st')
         ∧ ErrorAt e st'
         ∧ scan_results (self st') = scan_results (self st)
         ∧ files (self st') = files (self st)
         ∧ frame st' = frame st
         ∧ running_progress scan_id (history st')
           = running_progress scan_id (history st).
Proof.
  intros [HT (r & Hr & Hcase)].
  destruct (trace_ok_cur _ HT) as (r' & Hr' & H0 & H100 & _ & _).
  rewrite Hr in Hr'. injection Hr' as <-.
  unfold _execute_scan_except. rewrite (if_active_eq _ _ r Hr).
  unfold bind at 1.
  destruct (push_update (set_status error) st r HT Hr)
    as (st2 & -> & HT2 & Hr2 & Hsr2 & Hfl2 & Hfr2 & Hrp2);
    try reg_side.
  { destruct Hcase as [?|(? & Hf & _)]; [auto|]. right. right.
    split_and!; [done | done | by rewrite Hf]. }
  destruct (push_update (set_error e) st2 _ HT2 Hr2)
    as (st3 & -> & HT3 & Hr3 & Hsr3 & Hfl3 & Hfr3 & Hrp3);
    try reg_side.
  cbn [set_status set_error sc_status sc_progress] in *.
  rewrite decide_False, app_nil_r in Hrp2, Hrp3 by done.
  eexists. split; [done|].
  split_and!; [split; [done|]; eauto | congruence | congruence
              | congruence | congruence].
Qed.
End ScanRun.


(** ** The local [results] along one scan *)

Section ScanFrame.
Import NetworkScanner Observe.
Variables (env : Env) (scan_id : string).
Variables (targets : list string) (ports : list Z) (timeout : Q).

Abbreviation total' := (length targets * length ports)%nat.
Abbreviation frame_ok := (Observe.frame_ok env timeout).
Abbreviation faulty := (Observe.faulty env).

Lemma write_port_eq st t p pr td :
  PyDict.get (r_results (frame st)) t = Some td →
  write_port t p pr st
  = (Ok tt, mkSt (self st) (past st) (with_port (frame st) t td p pr)).
Proof.
  intros H. unfold write_port, bind, get_frame. by rewrite H.
Qed.

Lemma frame_ok_write live fr t td p :
  frame_ok live fr →
  PyDict.get (r_results fr) t = Some td →
  frame_ok live (with_port fr t td p (probe_result env t p timeout)).
Proof.
  intros (Hnd & Hk & Hp & Hpn) Hg. unfold frame_ok, with_port.
  cbn [r_results set_r_results].
  split_and!.
  - by apply dict_NoDup_keys_set.
  - intros t'. rewrite dict_elem_of_keys_set, <- Hk.
    split; [intros [?| ->]; [done|] | auto].
    apply dict_get_is_Some. by rewrite Hg.
  - intros t' td' p' pr'. rewrite dict_get_set.
    destruct (decide (t = t')) as [<-|Hne]; [|apply Hp].
    intros [= <-]. cbn [tr_ports]. rewrite dict_get_set.
    destruct (decide (p = p')) as [<-|Hnp]; [by intros [= <-]|].
    by apply Hp.
  - intros t' td'. rewrite dict_get_set.
    destruct (decide (t = t')) as [<-|Hne]; [|apply Hpn].
    intros [= <-]. cbn [tr_ports]. apply dict_NoDup_keys_set. by eapply Hpn.
Qed.

Lemma probed_write done fr t td p pr :
  probed done fr →
  PyDict.get (r_results fr) t = Some td →
  probed ((t, p) :: done) (with_port fr t td p pr).
Proof.
  intros Hd Hg t' p' Hin. unfold with_port. cbn [r_results set_r_results].
  rewrite dict_get_set.
  destruct (decide (t = t')) as [<-|Hne].
  - eexists. split; [done|]. cbn [tr_ports]. rewrite dict_get_set.
    destruct (decide (p = p')) as [<-|Hnp]; [done|].
    apply elem_of_cons in Hin as [Heq|Hin]; [congruence|].
    destruct (Hd _ _ Hin) as (td' & Hg' & Hs).
    rewrite Hg in Hg'. by injection Hg' as <-.
  - apply elem_of_cons in Hin as [Heq|Hin]; [congruence|].
    by apply Hd.
Qed.

(** A probe task always writes its entry and never raises. *)
Lemma scan_port_frame live st t p :
  frame_ok live (frame st) → t ∈ live →
  ∃ st', _scan_port env scan_id t p timeout st = (Ok tt, st')
         ∧ frame_ok live (frame st')
         ∧ (∀ done, probed done (frame st) →
                    probed ((t, p) :: done) (frame st'))
         ∧ ∃ td, PyDict.get (r_results (frame st')) t = Some td
                 ∧ PyDict.get (tr_ports td) p
                   = Some (probe_result env t p timeout).
Proof.
  intros Hok Ht.
  assert (is_Some (PyDict.get (r_results (frame st)) t)) as [td Hg].
  { apply dict_get_is_Some. by apply Hok. }
  unfold _scan_port, try_except, bind at 1, lift.
  assert (∀ pr, pr = probe_result env t p timeout →
    ∃ st', write_port t p pr st = (Ok tt, st')
           ∧ frame_ok live (frame st')
           ∧ (∀ done, probed done (frame st) →
                      probed ((t, p) :: done) (frame st'))
           ∧ ∃ td, PyDict.get (r_results (frame st')) t = Some td
                 ∧ PyDict.get (tr_ports td) p
                   = Some (probe_result env t p timeout)) as Hw.
  { intros pr ->. eexists. split; [by apply write_port_eq|]. cbn [frame].
    split_and!.
    - by apply frame_ok_write.
    - intros done Hd. by apply probed_write.
    - unfold with_port. cbn [r_results set_r_results].
      rewrite dict_get_set_eq. eexists.
      split; [done|]. cbn [tr_ports]. apply dict_get_set_eq. }
  unfold probe_result in *.
  destruct (sr1 env t p timeout) as [resp|e]; cbn beta iota;
    destruct (Hw _ eq_refl) as (st' & -> & H); eauto.
Qed.

(** The guarded registry writes never raise and keep the frame. *)
Lemma update_scan_frame f st r :
  rec_of scan_id (self st) = Some r →
  ∃ st', update_scan scan_id f st = (Ok tt, st')
         ∧ frame st' = frame st
         ∧ rec_of scan_id (self st') = Some (f r)
         ∧ scan_results (self st') = scan_results (self st)
         ∧ files (self st') = files (self st).
Proof.
  intros Hr. eexists. split; [by apply update_scan_eq|].
  cbn [self frame]. split_and!; try done. apply rec_of_update.
Qed.

Lemma if_active_update_frame f st :
  ∃ st', if_active scan_id (update_scan scan_id f) st = (Ok tt, st')
         ∧ frame st' = frame st.
Proof.
  unfold if_active, bind, get_self. case_bool_decide as Hs.
  - destruct Hs as [r Hr].
    destruct (update_scan_frame f st r Hr) as (st' & -> & Hf & _). eauto.
  - by exists st.
Qed.

Lemma frame_ok_results live fr fr' :
  r_results fr' = r_results fr → frame_ok live fr → frame_ok live fr'.
Proof. unfold frame_ok. by intros ->. Qed.

Lemma probed_results done fr fr' :
  r_results fr' = r_results fr → probed done fr → probed done fr'.
Proof. unfold probed. by intros ->. Qed.

Lemma probed_subseteq done done' fr :
  (∀ x, x ∈ done' → x ∈ done) → probed done fr → probed done' fr.
Proof. intros Hsub Hd t p Hin. by apply Hd, Hsub. Qed.

Lemma frame_ok_nil fr : r_results fr = [] → frame_ok [] fr.
Proof.
  intros H. unfold frame_ok. rewrite H. split_and!.
  - apply NoDup_nil_2.
  - done.
  - intros t td p pr Hg. by cbn in Hg.
  - intros t td Hg. by cbn in Hg.
Qed.

(** [results['results'][target] = {'status': 'scanned', 'ports': {}}] *)
Lemma frame_ok_init seen fr t :
  frame_ok seen fr →
  frame_ok (seen ++ [t])
    (set_r_results fr
       (PyDict.set (r_results fr) t (mkTargetResult "scanned" []))).
Proof.
  intros (Hnd & Hk & Hp & Hpn). unfold frame_ok.
  cbn [r_results set_r_results].
  split_and!.
  - by apply dict_NoDup_keys_set.
  - intros t'. rewrite dict_elem_of_keys_set, elem_of_app,
      list_elem_of_singleton, Hk. done.
  - intros t' td p pr. rewrite dict_get_set.
    destruct (decide (t = t')) as [<-|Hne]; [|apply Hp].
    by intros [= <-].
  - intros t' td. rewrite dict_get_set.
    destruct (decide (t = t')) as [<-|Hne]; [|apply Hpn].
    intros [= <-]. apply NoDup_nil_2.
Qed.

Lemma submit_ports_frame target ps futures st :
  match submit_ports env target ps futures st with
  | (Ok _, st') => st' = st
  | (Raise e, _) => faulty e
  end.
Proof.
  revert futures. induction ps as [|p ps IH]; intros futures; [done|].
  cbn [submit_ports]. unfold bind, call.
  destruct (fault env (AtSubmit (length futures))) as [e|] eqn:Hf.
  - by exists (AtSubmit (length futures)).
  - apply IH.
Qed.

Lemma submit_targets_frame live : ∀ seen futures st,
  frame_ok seen (frame st) →
  match submit_targets env live ports futures st with
  | (Ok _, st') => frame_ok (seen ++ live) (frame st')
  | (Raise e, _) => faulty e
  end.
Proof.
  induction live as [|t live IH]; intros seen futures st Hok.
  - cbn. by rewrite app_nil_r.
  - cbn [submit_targets]. unfold bind at 1 2 3. cbn [get_frame set_frame].
    set (st1 := mkSt _ _ _).
    pose proof (submit_ports_frame t ports futures st1) as Hs.
    destruct (submit_ports env t ports futures st1) as [[fs|e] st2];
      [|done].
    subst st2. specialize (IH (seen ++ [t]) fs st1).
    rewrite <- app_assoc in IH. apply IH. by apply frame_ok_init.
Qed.

(** The loop of lines 109-116 on the local [results]: it never raises. *)
Lemma await_frame live futures : ∀ k st done,
  frame_ok live (frame st) → probed done (frame st) →
  (∀ t p, (t, p) ∈ futures → t ∈ live) →
  (futures ≠ [] → total' ≠ 0%nat) →
  ∃ st', await_futures env scan_id timeout total' futures k st = (Ok tt, st')
         ∧ frame_ok live (frame st')
         ∧ probed (futures ++ done) (frame st').
Proof.
  induction futures as [|[t p] fs IH]; intros k st done Hok Hd Hlive Htot.
  - by exists st.
  - cbn [await_futures]. unfold bind at 1.
    destruct (scan_port_frame live st t p Hok) as (st1 & -> & Hok1 & Hd1 & _).
    { apply (Hlive t p), list_elem_of_here. }
    unfold bind at 1, lift, py_div.
    rewrite bool_decide_eq_false_2 by (by apply Htot).
    unfold bind at 1.
    destruct (if_active_update_frame
                (set_progress ((Z.of_nat (S k) # Pos.of_nat total') * 100))
                st1) as (st2 & -> & Hf2).
    destruct (IH (S k) st2 ((t, p) :: done)) as (st3 & -> & Hok3 & Hd3).
    + by rewrite Hf2.
    + rewrite Hf2. by apply Hd1.
    + intros t' p' Hin. apply (Hlive t' p'). by apply list_elem_of_further.
    + intros _. by apply Htot.
    + exists st3. split_and!; [done | done |].
      eapply probed_subseteq; [|exact Hd3].
      intros x. cbn [app]. rewrite ?elem_of_cons, ?elem_of_app, ?elem_of_cons.
      tauto.
Qed.

Lemma completion_frame (u1 u2 u3 u4 : ScanRecord → ScanRecord) st :
  ∃ st', if_active scan_id
           (update_scan scan_id u1;; update_scan scan_id u2;;
            update_scan scan_id u3;; update_scan scan_id u4) st
         = (Ok tt, st')
         ∧ frame st' = frame st
         ∧ scan_results (self st') = scan_results (self st)
         ∧ files (self st') = files (self st).
Proof.
  unfold if_active, bind at 1, get_self. case_bool_decide as Hs.
  - destruct Hs as [r Hr].
    unfold bind at 1.
    destruct (update_scan_frame u1 st r Hr)
      as (st1 & -> & Hf1 & Hr1 & Hs1 & Hl1).
    unfold bind at 1.
    destruct (update_scan_frame u2 st1 _ Hr1)
      as (st2 & -> & Hf2 & Hr2 & Hs2 & Hl2).
    unfold bind at 1.
    destruct (update_scan_frame u3 st2 _ Hr2)
      as (st3 & -> & Hf3 & Hr3 & Hs3 & Hl3).
    destruct (update_scan_frame u4 st3 _ Hr3)
      as (st4 & -> & Hf4 & Hr4 & Hs4 & Hl4).
    exists st4. split_and!; [done | congruence | congruence | congruence].
  - by exists st.
Qed.

Lemma tasks_total live :
  (∀ t, t ∈ live → t ∈ targets) →
  tasks live ports ≠ [] → total' ≠ 0%nat.
Proof.
  intros Hsub Hne.
  destruct (tasks live ports) as [|[t p] l] eqn:Ht; [done|].
  assert ((t, p) ∈ tasks live ports) as [Hl Hp]%elem_of_tasks
    by (rewrite Ht; apply list_elem_of_here).
  apply Hsub in Hl.
  destruct targets; [by apply elem_of_nil in Hl|].
  destruct ports; [by apply elem_of_nil in Hp|]. cbn. lia.
Qed.

Lemma discover_subseteq t :
  t ∈ _discover_hosts env targets → t ∈ targets.
Proof.
  unfold _discover_hosts. rewrite !list_elem_of_In, filter_In. tauto.
Qed.

(** The [try] block on the local [results]: it raises only what a
    collaborator raised, and otherwise stores the fully probed results. *)
Lemma try_frame st :
  match _execute_scan_try env scan_id targets ports timeout st with
  | (Ok _, st') =>
      frame_ok (_discover_hosts env targets) (frame st')
      ∧ probed (tasks (_discover_hosts env targets) ports) (frame st')
      ∧ scan_results (self st') !! scan_id = Some (frame st')
      ∧ files (self st') !! results_file env scan_id
        = Some (dumped (frame st'))
  | (Raise e, _) => faulty e
  end.
Proof.
  unfold _execute_scan_try.
  set (live := _discover_hosts env targets).
  unfold bind at 1. cbn [set_frame]. set (st0 := mkSt _ _ _).
  unfold bind at 1, call.
  destruct (fault env AtDiscover) as [e|] eqn:Hdisc;
    [by exists AtDiscover|]. cbn [ret].
  unfold bind at 1.
  pose proof (submit_targets_frame live [] [] st0
                (frame_ok_nil (frame st0) eq_refl)) as Hsub.
  destruct (submit_targets env live ports [] st0) as [[fs|e] st1] eqn:Hs;
    [|done].
  apply submit_targets_value in Hs. cbn [app] in Hs, Hsub. subst fs.
  unfold bind at 1.
  destruct (await_frame live (tasks live ports) 0 st1 [] Hsub)
    as (st2 & -> & Hok2 & Hd2).
  { by intros t p Hin%elem_of_nil. }
  { intros t p [Ht _]%elem_of_tasks. done. }
  { apply tasks_total. intros t. apply discover_subseteq. }
  rewrite app_nil_r in Hd2.
  unfold bind at 1, _detect_anomalies, bind at 1 2, get_frame, call.
  destruct (fault env AtDetect) as [e|] eqn:Hdet; [by exists AtDetect|].
  cbn [ret set_frame]. unfold bind at 1 2. cbn [get_frame set_frame].
  set (st3 := mkSt _ _ _).
  assert (r_results (frame st3) = r_results (frame st2)) as Hres by done.
  unfold bind at 1.
  destruct (completion_frame (set_status completed) (set_progress 100)
              (set_end_time (now_end env))
              (set_duration (now_end env - now_start env)%Q) st3)
    as (st4 & -> & Hf4 & _).
  unfold bind at 1 2. cbn [get_frame commit].
  unfold _save_results.
  destruct (fault env AtSave) as [e|] eqn:Hsave.
  { destruct (torn_write env); by exists AtSave. }
  unfold write_file. cbn [commit self frame scan_results files]. rewrite Hf4.
  split_and!.
  - by apply (frame_ok_results _ (frame st2)).
  - by apply (probed_results _ (frame st2)).
  - apply lookup_insert_eq.
  - apply lookup_insert_eq.
Qed.
End ScanFrame.


(** ** One whole scan *)

Section WholeScan.
Import NetworkScanner Observe.
Variables (env : Env) (scan_id : string).
Variables (targets : list string) (ports : list Z) (timeout : Q).
Variable (w0 : Scanner).

Abbreviation st_start :=
  (scan_start_state env scan_id targets ports timeout w0).
Abbreviation live := (_discover_hosts env targets).
Abbreviation run_try :=
  (_execute_scan_try env scan_id targets ports timeout st_start).
Abbreviation run := (run_scan env scan_id targets ports timeout w0).

(** The two ways a scan ends. *)
Lemma run_scan_cases :
  (∃ st, run_try = (Ok tt, st) ∧ run = (Ok tt, st)
         ∧ CompletedAt env scan_id targets ports timeout w0
             (length live * length ports) st
         ∧ frame_ok env timeout live (frame st)
         ∧ probed (tasks live ports) (frame st))
  ∨ (∃ e st1 st, run_try = (Raise e, st1) ∧ run = (Ok tt, st)
         ∧ faulty env e
         ∧ RaisedAt env scan_id targets ports timeout w0 e st1
         ∧ ErrorAt env scan_id targets ports timeout w0 e st
         ∧ scan_results (self st) = scan_results (self st1)
         ∧ files (self st) = files (self st1)
         ∧ frame st = frame st1
         ∧ running_progress scan_id (history st)
           = running_progress scan_id (history st1)).
Proof.
  pose proof (try_registry env scan_id targets ports timeout w0 st_start
                (RunAt_start env scan_id targets ports timeout w0 _)) as Hreg.
  pose proof (try_frame env scan_id targets ports timeout st_start) as Hfr.
  unfold run_scan, _execute_scan, try_except.
  destruct run_try as [[[]|e] st1].
  - left. exists st1. destruct Hfr as (? & ? & _). done.
  - right.
    destruct (except_registry env scan_id targets ports timeout w0 e st1 Hreg)
      as (st & Heq & Herr & Hs & Hf & Hfm & Hrp).
    exists e, st1, st. done.
Qed.

Lemma run_scan_trace_ok :
  ∃ st, run = (Ok tt, st)
        ∧ trace_ok env scan_id w0
            (start_scan env scan_id targets ports timeout w0) st.
Proof.
  destruct run_scan_cases as [(st & _ & Hrun & [HT _] & _)
                             |(e & st1 & st & _ & Hrun & _ & _ & [HT _] & _)];
    by exists st.
Qed.

Lemma chain_lookup (h : list Scanner) i w w' :
  chain env scan_id h → h !! S i = Some w → h !! i = Some w' →
  step_ok env scan_id w w'.
Proof.
  revert i. induction h as [|x h IH]; intros i Hc HS Hi; [done|].
  destruct h as [|y h]; [done|]. destruct Hc as [Hstep Hc].
  destruct i as [|i].
  - cbn in HS, Hi. by injection HS as <-; injection Hi as <-.
  - apply (IH i Hc); done.
Qed.
End WholeScan.

(** ** The two queries *)

Section Queries.
Import NetworkScanner Observe.
Variable env : Env.

Lemma get_scan_status_read scan_id st :
  get_scan_status env scan_id st
  = (match active_scans (self st) !! scan_id with
     | Some r => Ok (Some (ActiveRecord r))
     | None =>
         match scan_results (self st) !! scan_id with
         | Some results => Ok (Some (Summary (summary_of results)))
         | None =>
             match files (self st) !! results_file env scan_id with
             | Some (dumped results) =>
                 Ok (Some (Summary (summary_of results)))
             | Some (unreadable e) => Raise e
             | None => Ok None
             end
         end
     end, st).
Proof.
  unfold get_scan_status, bind, get_self.
  destruct (active_scans (self st) !! scan_id); [done|].
  destruct (scan_results (self st) !! scan_id); [done|].
  by destruct (files (self st) !! results_file env scan_id) as [[]|].
Qed.

Lemma get_scan_results_read scan_id st :
  get_scan_results env scan_id st
  = (match scan_results (self st) !! scan_id with
     | Some results => Ok (Some (Stored results))
     | None =>
         match files (self st) !! results_file env scan_id with
         | Some (dumped results) => Ok (Some (Loaded results))
         | Some (unreadable e) => Raise e
         | None => Ok None
         end
     end, st).
Proof.
  unfold get_scan_results, bind, get_self.
  destruct (scan_results (self st) !! scan_id); [done|].
  by destruct (files (self st) !! results_file env scan_id) as [[]|].
Qed.

Lemma get_scan_results_unchanged scan_id w0 st st0 :
  unchanged_store env scan_id w0 (self st) → self st0 = w0 →
  (get_scan_results env scan_id st).1 = (get_scan_results env scan_id st0).1.
Proof.
  intros [Hs Hf] <-. rewrite !get_scan_results_read. cbn [fst].
  by rewrite Hs, Hf.
Qed.
End Queries.

(** ** The claims *)

Section Claims.
Import NetworkScanner Observe Examples.

Lemma prefix_app p s :
  String.prefix p s = true ↔ ∃ rest, s = p +:+ rest.
Proof.
  revert s. induction p as [|a p IH]; intros s.
  - destruct s; cbn; split; eauto.
  - destruct s as [|b s]; cbn.
    + split; [done | by intros [rest ?]].
    + destruct (Ascii.ascii_dec a b) as [->|Hne].
      * rewrite IH. split; intros [rest H]; exists rest; [by rewrite H|].
        by injection H.
      * split; [done|]. intros [rest H]. injection H as H1 H2. congruence.
Qed.

(** C1. The reply test of [_scan_port] is [flags & 0x12], which is
    non-zero as soon as SYN or ACK is set: a reply bearing RST+ACK
    (0x14) is classified [open], not [closed].  SYN+ACK gives [open];
    no reply, or a reply without TCP layer, keeps the default [closed];
    a bare RST gives [closed].  [scan_with_scapy], which compares the
    flags with [==], classifies the same RST+ACK reply [closed]. *)
Theorem C1_rst_ack_reply_is_classified_open :
  (∀ port, pr_status (port_status_of (Some (mkPacket (Some 0x14))) port)
           = st_open)
  ∧ (∀ flags port,
        pr_status (port_status_of (Some (mkPacket (Some flags))) port)
        = if bool_decide (Z.land flags 0x12 ≠ 0) then st_open else st_closed)
  ∧ (∀ port, pr_status (port_status_of (Some (mkPacket (Some 0x12))) port)
             = st_open)
  ∧ (∀ port, pr_status (port_status_of None port) = st_closed)
  ∧ (∀ port, pr_status (port_status_of (Some (mkPacket None)) port)
             = st_closed)
  ∧ pr_status (probe_result env_all_live "10.0.0.5" 22 5) = st_open
  ∧ scapy_status (Some (mkPacket (Some 0x14))) = st_closed
  ∧ scan_with_scapy env_all_live "10.0.0.5" [22; 80]
    = Ok [(22, st_closed); (80, st_open)]
  ∧ (r_results
       (frame (run_scan env_all_live "s1" ["10.0.0.5"] [22; 80] 5
                 empty_scanner).2)
     = [("10.0.0.5",
         mkTargetResult "scanned"
           [(22, mkPortResult st_open "SSH" None);
            (80, mkPortResult st_open "HTTP" None)])]).
Proof.
  split_and!; [done | | done | done | done | done | done | done
              | by vm_compute].
  intros flags port. unfold port_status_of. cbn [tcp_flags pr_status].
  case_bool_decide; [done|]. by case_bool_decide.
Qed.

(** C7. [_discover_hosts] returns a sub-sequence of its input, and a
    target whose liveness probe raises is included in it. *)
Theorem C7_discovery_subset_and_fail_open :
  ∀ env targets,
    sublist (_discover_hosts env targets) targets
    ∧ (∀ t, t ∈ _discover_hosts env targets → t ∈ targets)
    ∧ (∀ t e, t ∈ targets →
              (_is_ip_in_local_network t = true ∧ srp env t = Raise e)
              ∨ (_is_ip_in_local_network t = false
                 ∧ sr1 env t 80 1 = Raise e) →
              t ∈ _discover_hosts env targets).
Proof.
  intros env targets. split_and!.
  - apply discover_sublist.
  - apply discover_subseteq.
  - intros t e Ht Hraise. unfold _discover_hosts.
    apply list_elem_of_In, filter_In. split; [by apply list_elem_of_In|].
    unfold host_is_live.
    destruct Hraise as [[-> ->]|[-> ->]]; done.
Qed.

Lemma C7_witness :
  "10.0.0.5" ∈ two_targets
  ∧ _is_ip_in_local_network "10.0.0.5" = true
  ∧ srp env_arp_fails "10.0.0.5" = Raise "Operation not permitted"
  ∧ "10.0.0.5" ∈ _discover_hosts env_arp_fails two_targets.
Proof.
  assert ("10.0.0.5" ∈ two_targets) as Hin by apply list_elem_of_here.
  split_and!; [exact Hin | reflexivity | reflexivity |].
  destruct (C7_discovery_subset_and_fail_open env_arp_fails two_targets)
    as (_ & _ & H).
  apply (H "10.0.0.5" "Operation not permitted" Hin).
  left. split; reflexivity.
Defined.

(** C10. [_is_ip_in_local_network] is a prefix test on the string: it
    holds exactly for the strings starting with 192.168., 10. or 172.;
    a local target is judged by the ARP reply alone and any other target
    by the SYN reply alone; so every address starting with 172., public
    ones such as 172.217.0.1 included, takes the ARP path and is left
    out of the live hosts when ARP gives no reply. *)
Theorem C10_local_network_is_a_prefix_test :
  (∀ ip, _is_ip_in_local_network ip = true
         ↔ ∃ rest, ip = "192.168." +:+ rest ∨ ip = "10." +:+ rest
                   ∨ ip = "172." +:+ rest)
  ∧ (∀ env ip, _is_ip_in_local_network ip = true →
               host_is_live env ip
               = match srp env ip with
                 | Ok answered => answered
                 | Raise _ => true
                 end)
  ∧ (∀ env ip, _is_ip_in_local_network ip = false →
               host_is_live env ip
               = match sr1 env ip 80 1 with
                 | Ok ping_response => bool_decide (is_Some ping_response)
                 | Raise _ => true
                 end)
  ∧ (∀ env targets rest,
        srp env ("172." +:+ rest) = Ok false →
        "172." +:+ rest ∉ _discover_hosts env targets)
  ∧ _is_ip_in_local_network "172.217.0.1" = true.
Proof.
  assert (∀ ip, _is_ip_in_local_network ip = true
                ↔ ∃ rest, ip = "192.168." +:+ rest ∨ ip = "10." +:+ rest
                          ∨ ip = "172." +:+ rest) as Hpre.
  { intros ip. unfold _is_ip_in_local_network.
    rewrite !orb_true_iff, !prefix_app. split.
    - intros [[[r ->]|[r ->]]|[r ->]]; exists r; auto.
    - intros [r [->| [->| ->]]]; eauto. }
  split_and!; [done | | | | done].
  - intros env ip H. unfold host_is_live. by rewrite H.
  - intros env ip H. unfold host_is_live. by rewrite H.
  - intros env targets rest Hsrp Hin.
    unfold _discover_hosts in Hin.
    apply list_elem_of_In, filter_In in Hin as [_ Hlive].
    unfold host_is_live in Hlive.
    assert (_is_ip_in_local_network ("172." +:+ rest) = true) as Hloc
      by (apply Hpre; eauto).
    rewrite Hloc, Hsrp in Hlive. done.
Qed.

Lemma C10_witness :
  _is_ip_in_local_network "172.217.0.1" = true
  ∧ srp (mkEnv (λ _, Ok false) sr1_demo 1 2 3 no_fault
         demo_file None) "172.217.0.1"
    = Ok false
  ∧ host_is_live (mkEnv (λ _, Ok false) sr1_demo 1 2 3 no_fault
         demo_file None)
      "172.217.0.1" = false
  ∧ "172.217.0.1"
    ∉ _discover_hosts (mkEnv (λ _, Ok false) sr1_demo 1 2 3 no_fault
         demo_file None)
        ["172.217.0.1"].
Proof.
  destruct C10_local_network_is_a_prefix_test as (_ & Harp & _ & Hout & Hex).
  split_and!; [exact Hex | reflexivity | |].
  - rewrite (Harp _ _ Hex). reflexivity.
  - apply (Hout (mkEnv (λ _, Ok false) sr1_demo 1 2 3 no_fault
         demo_file None)
             ["172.217.0.1"] "217.0.1").
    reflexivity.
Defined.

(** What line 83 makes of the progress.  The denominator is
    [len(targets) * len(ports)], computed before discovery: in a scan no
    collaborator of which raises, the progress values seen while it runs
    are 0 and then [100 * k / (len(targets) * len(ports))] for
    [k = 1 .. liveHostCount * len(ports)], the execution ends without
    an exception (no division by zero) with status completed and
    progress 100; with no probe task the only running value is 0. *)
Theorem progress_denominator_counts_all_targets :
  ∀ env scan_id targets ports timeout w0,
    (∀ stage, fault env stage = None) →
    let live_hosts := _discover_hosts env targets in
    let total_tasks := (length targets * length ports)%nat in
    let probe_tasks := (length live_hosts * length ports)%nat in
    ∃ st r,
      run_scan env scan_id targets ports timeout w0 = (Ok tt, st)
      ∧ _execute_scan_try env scan_id targets ports timeout
          (scan_start_state env scan_id targets ports timeout w0)
        = (Ok tt, st)
      ∧ running_progress scan_id (history st)
        = 0%Q :: (pct total_tasks <$> seq 1 probe_tasks)
      ∧ (total_tasks = 0%nat →
         running_progress scan_id (history st) = [0%Q])
      ∧ rec_of scan_id (self st) = Some r
      ∧ sc_status r = completed ∧ sc_progress r = 100%Q.
Proof.
  intros env scan_id targets ports timeout w0 Hnf live_hosts total_tasks
    probe_tasks.
  destruct (run_scan_cases env scan_id targets ports timeout w0)
    as [(st & Htry & Hrun & [HT (r & Hr & Hs & Hp & Hrp & _)] & _)
       |(e & st1 & st & _ & _ & [stage Hf] & _)].
  - exists st, r. split_and!; try done.
    intros H0. rewrite Hrp.
    pose proof (discover_length env targets) as Hlen.
    replace (length (_discover_hosts env targets) * length ports)%nat
      with 0%nat; [done|].
    subst total_tasks. nia.
  - by rewrite Hnf in Hf.
Qed.

Lemma progress_denominator_example :
  (∀ stage, fault env_one_live stage = None)
  ∧ ∃ st r,
      run_scan env_one_live "s1" two_targets [22; 80] 5 empty_scanner
      = (Ok tt, st)
      ∧ running_progress "s1" (history st)
        = 0%Q :: (pct 4 <$> seq 1 2)
      ∧ rec_of "s1" (self st) = Some r
      ∧ sc_status r = completed ∧ sc_progress r = 100%Q.
Proof.
  assert (∀ stage, fault env_one_live stage = None) as Hnf by reflexivity.
  split; [exact Hnf|].
  destruct (progress_denominator_counts_all_targets env_one_live "s1"
              two_targets [22; 80] 5 empty_scanner Hnf)
    as (st & r & Hrun & _ & Hrp & _ & Hr & Hs & Hp).
  exists st, r. split_and!; [exact Hrun | exact Hrp | exact Hr | exact Hs
                            | exact Hp].
Defined.

(** C2. With two targets of which one is live, and two ports, there are
    1 * 2 probe tasks, yet the denominator is 2 * 2: the progress values
    of the running scan are 0, 100 * 1 / 4 and 100 * 2 / 4, not 0,
    100 * 1 / 2 and 100 * 2 / 2, and the scan still ends completed with
    progress 100. *)
Theorem C2_denominator_ignores_discovery :
  let st := (run_scan env_one_live "s1" two_targets [22; 80] 5
               empty_scanner).2 in
  let live_hosts := _discover_hosts env_one_live two_targets in
  live_hosts = ["10.0.0.5"]
  ∧ running_progress "s1" (history st) = [0; 100 # 4; 200 # 4]%Q
  ∧ (sc_status <$> rec_of "s1" (self st)) = Some completed
  ∧ (sc_progress <$> rec_of "s1" (self st)) = Some 100%Q
  ∧ ¬ Forall2 Qeq (running_progress "s1" (history st))
        (0%Q :: (pct (length live_hosts * 2)
                   <$> seq 1 (length live_hosts * 2))).
Proof.
  intros st live_hosts.
  split_and!; [by vm_compute | by vm_compute | by vm_compute
              | by vm_compute |].
  intros H.
  assert (running_progress "s1" (history st) = [0; 100 # 4; 200 # 4]%Q)
    as Hl by (by vm_compute).
  assert (0%Q :: (pct (length live_hosts * 2)
                    <$> seq 1 (length live_hosts * 2))
          = [0; 100 # 2; 200 # 2]%Q) as Hr by (by vm_compute).
  rewrite Hl, Hr in H.
  apply Forall2_cons_1 in H as [_ H]. apply Forall2_cons_1 in H as [H _].
  unfold Qeq in H. cbn in H. lia.
Qed.

(** C3, as the code has it.  When the [try] block raises [e], the scan
    record's status becomes error with message [e], and the partial
    results stay in the local dictionary of the execution; unless the
    failure is that of writing the results file, nothing was stored for
    the scan: the results query answers what it answered before the
    scan started, which is not-found for a fresh scan id. *)
Theorem C3_failure_sets_error_and_publishes_nothing :
  ∀ env scan_id targets ports timeout w0 e st1,
    _execute_scan_try env scan_id targets ports timeout
      (scan_start_state env scan_id targets ports timeout w0)
    = (Raise e, st1) →
    ∃ st r,
      run_scan env scan_id targets ports timeout w0 = (Ok tt, st)
      ∧ rec_of scan_id (self st) = Some r
      ∧ sc_status r = error ∧ sc_error r = Some e
      ∧ sc_results r = []
      ∧ frame st = frame st1
      ∧ (fault env AtSave = None →
         (∀ st0, self st0 = w0 →
                 (get_scan_results env scan_id st).1
                 = (get_scan_results env scan_id st0).1)
         ∧ (scan_results w0 !! scan_id = None →
            files w0 !! results_file env scan_id = None →
            get_scan_results env scan_id st = (Ok None, st))).
Proof.
  intros env scan_id targets ports timeout w0 e st1 Htry.
  destruct (run_scan_cases env scan_id targets ports timeout w0)
    as [(st & Htry' & _)
       |(e' & st1' & st & Htry' & Hrun & _ & Hraised & Herr & Hs & Hf
           & Hfr & _)];
    rewrite Htry in Htry'; [done|].
  injection Htry' as <- <-.
  destruct Herr as [HT (r & Hr & Hst & He)].
  destruct (trace_ok_cur _ _ _ _ _ _ _ HT) as (r' & Hr' & _ & _ & _ & Hres).
  rewrite Hr in Hr'. injection Hr' as <-.
  exists st, r. split_and!; try done.
  intros Hsave.
  destruct Hraised as [HT1 (r1 & Hr1 & [Hrun1|(_ & Hsv & _)])];
    [|by rewrite Hsave in Hsv].
  destruct (trace_ok_cur _ _ _ _ _ _ _ HT1)
    as (r1' & Hr1' & _ & _ & Hun & _).
  rewrite Hr1 in Hr1'. injection Hr1' as <-.
  destruct (Hun Hrun1) as [Hu1 Hu2].
  assert (unchanged_store env scan_id w0 (self st)) as Hu
    by (split; [by rewrite Hs | by rewrite Hf]).
  split.
  - intros st0 Hst0. by apply (get_scan_results_unchanged env scan_id w0).
  - intros Hn1 Hn2. rewrite get_scan_results_read.
    destruct Hu as [-> ->]. by rewrite Hn1, Hn2.
Qed.

Lemma C3_witness :
  let start :=
    scan_start_state env_detect_fails "s1" two_targets [22; 80] 5
      empty_scanner in
  (_execute_scan_try env_detect_fails "s1" two_targets [22; 80] 5 start).1
  = Raise "detector failed"
  ∧ ∃ st r,
      run_scan env_detect_fails "s1" two_targets [22; 80] 5 empty_scanner
      = (Ok tt, st)
      ∧ rec_of "s1" (self st) = Some r
      ∧ sc_status r = error ∧ sc_error r = Some "detector failed"
      ∧ get_scan_results env_detect_fails "s1" st = (Ok None, st).
Proof.
  intros start.
  assert ((_execute_scan_try env_detect_fails "s1" two_targets [22; 80] 5
             start).1 = Raise "detector failed") as H1
    by (vm_compute; reflexivity).
  split; [exact H1|].
  destruct (_execute_scan_try env_detect_fails "s1" two_targets [22; 80] 5
              start) as [o st1] eqn:Htry.
  cbn [fst] in H1. subst o.
  destruct (C3_failure_sets_error_and_publishes_nothing env_detect_fails
              "s1" two_targets [22; 80] 5 empty_scanner "detector failed"
              st1 Htry)
    as (st & r & Hrun & Hr & Hs & He & _ & _ & Hq).
  exists st, r. split_and!; [exact Hrun | exact Hr | exact Hs | exact He |].
  destruct (Hq eq_refl) as [_ Hnone]. apply Hnone; reflexivity.
Defined.

(** C3 as stated fails: the detector raises after both targets have been
    probed; the local results hold both targets, and the results query
    for the scan answers not-found. *)
Lemma C3_counterexample :
  let st := (run_scan env_detect_fails "s1" two_targets [22; 80] 5
               empty_scanner).2 in
  (sc_status <$> rec_of "s1" (self st)) = Some error
  ∧ PyDict.keys (r_results (frame st)) = two_targets
  ∧ ¬ ∃ res, (get_scan_results env_detect_fails "s1" st).1 = Ok (Some res).
Proof.
  intros st. split_and!.
  - by vm_compute.
  - by vm_compute.
  - intros [res H].
    assert ((get_scan_results env_detect_fails "s1" st).1 = Ok None) as Hn by (by vm_compute).
    rewrite Hn in H. discriminate H.
Qed.

(** C4, as the code has it.  Both queries leave the scanner and the
    results directory as they are, whatever they return.  While a scan
    is running, [get_scan_status] returns the scan's record, with the
    current progress, whose ['results'] field is the empty dictionary
    created by [start_scan]; [get_scan_results] answers what it answered
    before the scan started (not-found for an id with no stored results
    and no results file), the partial results not being published.  For
    an id unknown to the registries and without a results file both
    return [None].  A query raises only when it falls through to a
    results file that cannot be read, and then with the exception of
    [open] or [json.load]. *)
Theorem C4_queries_are_reads :
  (∀ env scan_id st,
      (get_scan_status env scan_id st).2 = st
      ∧ (get_scan_results env scan_id st).2 = st)
  ∧ (∀ env scan_id targets ports timeout w0 w r st',
        w ∈ history (run_scan env scan_id targets ports timeout w0).2 →
        rec_of scan_id w = Some r → sc_status r = running →
        self st' = w →
        get_scan_status env scan_id st' = (Ok (Some (ActiveRecord r)), st')
        ∧ (0 <= sc_progress r)%Q ∧ (sc_progress r <= 100)%Q
        ∧ sc_results r = []
        ∧ (∀ st0, self st0 = w0 →
                  (get_scan_results env scan_id st').1
                  = (get_scan_results env scan_id st0).1)
        ∧ (scan_results w0 !! scan_id = None →
           files w0 !! results_file env scan_id = None →
           get_scan_results env scan_id st' = (Ok None, st')))
  ∧ (∀ env scan_id st,
        active_scans (self st) !! scan_id = None →
        scan_results (self st) !! scan_id = None →
        files (self st) !! results_file env scan_id = None →
        get_scan_status env scan_id st = (Ok None, st)
        ∧ get_scan_results env scan_id st = (Ok None, st))
  ∧ (∀ env scan_id st e,
        ((get_scan_status env scan_id st).1 = Raise e
         ↔ active_scans (self st) !! scan_id = None
           ∧ scan_results (self st) !! scan_id = None
           ∧ files (self st) !! results_file env scan_id
             = Some (unreadable e))
        ∧ ((get_scan_results env scan_id st).1 = Raise e
           ↔ scan_results (self st) !! scan_id = None
             ∧ files (self st) !! results_file env scan_id
               = Some (unreadable e))).
Proof.
  split_and!.
  - intros env scan_id st.
    by rewrite get_scan_status_read, get_scan_results_read.
  - intros env scan_id targets ports timeout w0 w r st' Hin Hr Hrun Hself.
    destruct (run_scan_trace_ok env scan_id targets ports timeout w0)
      as (st & Heq & Hall & _).
    rewrite Heq in Hin. cbn [snd] in Hin.
    rewrite Forall_forall in Hall.
    destruct (Hall w Hin) as (r' & Hr' & H0 & H100 & Hun & Hres).
    rewrite Hr in Hr'. injection Hr' as <-.
    specialize (Hun Hrun). split_and!; try done.
    + rewrite get_scan_status_read, Hself.
      unfold rec_of in Hr. by rewrite Hr.
    + intros st0 Hst0. apply (get_scan_results_unchanged env scan_id w0);
        [by rewrite Hself | done].
    + intros Hn1 Hn2. rewrite get_scan_results_read, Hself.
      destruct Hun as [-> ->]. by rewrite Hn1, Hn2.
  - intros env scan_id st Ha Hs Hf. split.
    + rewrite get_scan_status_read. by rewrite Ha, Hs, Hf.
    + rewrite get_scan_results_read. by rewrite Hs, Hf.
  - intros env scan_id st e.
    rewrite get_scan_status_read, get_scan_results_read. cbn [fst].
    destruct (active_scans (self st) !! scan_id),
             (scan_results (self st) !! scan_id),
             (files (self st) !! results_file env scan_id) as [[r'|e']|];
      (split; (split; [try done; intros [= ->]; done
                      | intros (? & ?); try done; intuition congruence])).
Qed.

Lemma C4_witness :
  let st := (run_scan env_one_live "s1" two_targets [22; 80] 5
               empty_scanner).2 in
  let w := default empty_scanner (history st !! 7%nat) in
  let st' := mkSt w [] (frame st) in
  let r := mkScanRecord running 1 (100 # 4) two_targets [22; 80] 5 []
             None None None in
  let torn := (run_scan env_save_fails "s2" ["10.0.0.5"] [80] 5
                 empty_scanner).2 in
  let restarted := mkSt (mkScanner ∅ ∅ (files (self torn))) [] (frame torn) in
  w ∈ history st
  ∧ rec_of "s1" w = Some r ∧ sc_status r = running
  ∧ get_scan_status env_one_live "s1" st' = (Ok (Some (ActiveRecord r)), st')
  ∧ get_scan_results env_one_live "s1" st' = (Ok None, st')
  ∧ get_scan_status env_one_live "unknown" st' = (Ok None, st')
  ∧ get_scan_results env_one_live "unknown" st' = (Ok None, st')
  ∧ (get_scan_results env_save_fails "s2" restarted).1
    = Raise "Expecting value: line 1 column 1 (char 0)"
  ∧ (get_scan_results env_save_fails "s2" restarted).2 = restarted.
Proof.
  intros st w st' r torn restarted.
  destruct C4_queries_are_reads as (Hread & Hrun & Hunknown & Hraise).
  assert (w ∈ history st) as Hin.
  { apply list_elem_of_lookup. exists 7%nat. vm_compute. reflexivity. }
  assert (rec_of "s1" w = Some r) as Hr by (vm_compute; reflexivity).
  destruct (Hrun env_one_live "s1" two_targets [22; 80] 5%Q empty_scanner
              w r st' Hin Hr eq_refl eq_refl)
    as (Hstat & _ & _ & _ & _ & Hres).
  destruct (Hunknown env_one_live "unknown" st' eq_refl eq_refl eq_refl)
    as [Hu1 Hu2].
  destruct (Hraise env_save_fails "s2" restarted
              "Expecting value: line 1 column 1 (char 0)") as [_ [_ Hr2]].
  destruct (Hread env_save_fails "s2" restarted) as [_ Hsame].
  split_and!; [exact Hin | exact Hr | reflexivity | exact Hstat
              | apply Hres; reflexivity | exact Hu1 | exact Hu2
              | | exact Hsame].
  apply Hr2. split; [reflexivity | vm_compute; reflexivity].
Defined.

(** C4 as stated fails: after the first probe of a running scan (progress
    25), the scan id is known and its status is running, yet the results
    query answers not-found instead of a partial snapshot. *)
Lemma C4_counterexample :
  let st := (run_scan env_one_live "s1" two_targets [22; 80] 5
               empty_scanner).2 in
  let w := default empty_scanner (history st !! 7%nat) in
  let r := mkScanRecord running 1 (100 # 4) two_targets [22; 80] 5 []
             None None None in
  history st !! 7%nat = Some w
  ∧ rec_of "s1" w = Some r ∧ sc_status r = running
  ∧ (sc_progress r == 25)%Q
  ∧ ¬ ∃ res, (get_scan_results env_one_live "s1"
                (mkSt w [] (frame st))).1
             = Ok (Some res).
Proof.
  intros st w r. split_and!.
  - vm_compute. reflexivity.
  - vm_compute. reflexivity.
  - reflexivity.
  - unfold Qeq. cbn. lia.
  - intros [res H].
    assert ((get_scan_results env_one_live "s1" (mkSt w [] (frame st))).1
            = Ok None) as Hn by (vm_compute; reflexivity).
    rewrite Hn in H. discriminate H.
Qed.

(** C5. When no collaborator raises the [try] block returns; it never
    raises anything but what a collaborator raised, so no probe
    exception escapes.  In a scan whose [try] block returned, the stored
    results have exactly the live hosts as keys, and every pair of a
    live host and a requested port has one port result, the one the
    probe gives, whose status is open, closed, filtered or error; it is
    error, with the message, when the probe's [sr1] raised. *)
Theorem C5_completed_scan_covers_every_scheduled_pair :
  ∀ env scan_id targets ports timeout w0,
    let start := scan_start_state env scan_id targets ports timeout w0 in
    let live_hosts := _discover_hosts env targets in
    ((∀ stage, fault env stage = None) →
     ∃ st, _execute_scan_try env scan_id targets ports timeout start
           = (Ok tt, st))
    ∧ (∀ e st, _execute_scan_try env scan_id targets ports timeout start
               = (Raise e, st) →
               ∃ stage, fault env stage = Some e)
    ∧ (∀ st, _execute_scan_try env scan_id targets ports timeout start
             = (Ok tt, st) →
        ∃ res,
          scan_results (self st) !! scan_id = Some res
          ∧ get_scan_results env scan_id st = (Ok (Some (Stored res)), st)
          ∧ NoDup (PyDict.keys (r_results res))
          ∧ (∀ t, t ∈ PyDict.keys (r_results res) ↔ t ∈ live_hosts)
          ∧ ∀ t p, t ∈ live_hosts → p ∈ ports →
              ∃ td pr,
                PyDict.get (r_results res) t = Some td
                ∧ NoDup (PyDict.keys (tr_ports td))
                ∧ PyDict.get (tr_ports td) p = Some pr
                ∧ pr = probe_result env t p timeout
                ∧ pr_status pr ∈ [st_open; st_closed; st_filtered; st_error]
                ∧ ∀ e, sr1 env t p timeout = Raise e →
                       pr_status pr = st_error ∧ pr_error pr = Some e).
Proof.
  intros env scan_id targets ports timeout w0 start live_hosts.
  pose proof (try_frame env scan_id targets ports timeout start) as Hfr.
  split_and!.
  - intros Hnf.
    destruct (_execute_scan_try _ _ _ _ _ start) as [[[]|e] st]; [eauto|].
    destruct Hfr as [stage Hf]. by rewrite Hnf in Hf.
  - intros e st Htry. by rewrite Htry in Hfr.
  - intros st Htry. rewrite Htry in Hfr.
    destruct Hfr as ((Hnd & Hk & Hp & Hpn) & Hd & Hs & _).
    exists (frame st). split_and!; try done.
    { rewrite get_scan_results_read. by rewrite Hs. }
    intros t p Ht Hport.
    destruct (Hd t p) as (td & Hg & [pr Hpr]); [by apply elem_of_tasks|].
    pose proof (Hp t td p pr Hg Hpr) as Heq.
    exists td, pr. split_and!; try done.
    + by eapply Hpn.
    + rewrite !elem_of_cons. destruct (pr_status pr); auto.
    + intros e He. rewrite Heq. unfold probe_result. by rewrite He.
Qed.

Lemma C5_witness :
  (∀ stage, fault env_one_live stage = None)
  ∧ "10.0.0.5" ∈ _discover_hosts env_one_live two_targets
  ∧ 25 ∈ ([22; 25; 80] : list Z)
  ∧ sr1 env_one_live "10.0.0.5" 25 5 = Raise "Operation not permitted"
  ∧ ∃ st res td pr,
      _execute_scan_try env_one_live "s1" two_targets [22; 25; 80] 5
        (scan_start_state env_one_live "s1" two_targets [22; 25; 80] 5
           empty_scanner) = (Ok tt, st)
      ∧ get_scan_results env_one_live "s1" st = (Ok (Some (Stored res)), st)
      ∧ "10.0.0.5" ∈ PyDict.keys (r_results res)
      ∧ ("10.0.0.6" ∉ PyDict.keys (r_results res))
      ∧ PyDict.get (r_results res) "10.0.0.5" = Some td
      ∧ PyDict.get (tr_ports td) 25 = Some pr
      ∧ pr_status pr = st_error
      ∧ pr_error pr = Some "Operation not permitted".
Proof.
  assert (∀ stage, fault env_one_live stage = None) as Hnf by reflexivity.
  assert ("10.0.0.5" ∈ _discover_hosts env_one_live two_targets) as Hlive
    by (vm_compute; apply list_elem_of_here).
  assert (25 ∈ ([22; 25; 80] : list Z)) as Hport
    by (apply list_elem_of_further, list_elem_of_here).
  split_and!; [exact Hnf | exact Hlive | exact Hport | reflexivity |].
  destruct (C5_completed_scan_covers_every_scheduled_pair env_one_live "s1"
              two_targets [22; 25; 80] 5 empty_scanner) as (Hret & _ & Hres).
  destruct (Hret Hnf) as [st Htry].
  destruct (Hres st Htry) as (res & Hs & Hq & Hnd & Hk & Hall).
  destruct (Hall "10.0.0.5" 25 Hlive Hport)
    as (td & pr & Hg & _ & Hpr & _ & _ & Herr).
  destruct (Herr "Operation not permitted" eq_refl) as [He1 He2].
  exists st, res, td, pr.
  split_and!; [exact Htry | exact Hq | | | exact Hg | exact Hpr | exact He1
              | exact He2].
  - apply Hk, Hlive.
  - intros Hin%Hk. revert Hin. vm_compute.
    intros [Heq|[]%elem_of_nil]%elem_of_cons. discriminate Heq.
Defined.

(** C6, as the code has it.  The status starts at running with progress
    0; progress stays in [0,100] and never decreases; unless writing the
    results file fails, the status changes at most once, from running
    to completed or error, and then stays; the execution ends in
    completed or error, and a scan that ends completed has progress 100.
    Progress 100 does not imply completed: it is reached by the last
    probe of a scan all targets of which are live, while the status is
    still running. *)
Theorem C6_scan_lifecycle :
  ∀ env scan_id targets ports timeout w0,
    let w1 := start_scan env scan_id targets ports timeout w0 in
    ∃ st,
      run_scan env scan_id targets ports timeout w0 = (Ok tt, st)
      ∧ (∃ r0, last (history st) = Some w1 ∧ rec_of scan_id w1 = Some r0
               ∧ sc_status r0 = running ∧ sc_progress r0 = 0%Q)
      ∧ (∀ w, w ∈ history st →
              ∃ r, rec_of scan_id w = Some r
                   ∧ (0 <= sc_progress r)%Q ∧ (sc_progress r <= 100)%Q)
      ∧ (∀ i w w',
            history st !! S i = Some w → history st !! i = Some w' →
            ∃ r r', rec_of scan_id w = Some r ∧ rec_of scan_id w' = Some r'
                    ∧ (sc_progress r <= sc_progress r')%Q
                    ∧ (fault env AtSave = None →
                       sc_status r' = sc_status r ∨ sc_status r = running))
      ∧ (∃ r, rec_of scan_id (self st) = Some r
              ∧ sc_status r ≠ running
              ∧ (sc_status r = completed → (sc_progress r == 100)%Q)).
Proof.
  intros env scan_id targets ports timeout w0 w1.
  destruct (run_scan_trace_ok env scan_id targets ports timeout w0)
    as (st & Hrun & Hall & Hch & Hlast).
  exists st. split_and!; [done | | | |].
  - eexists. split_and!; [done | apply rec_of_update | done | done].
  - intros w Hin. rewrite Forall_forall in Hall.
    destruct (Hall w Hin) as (r & Hr & H0 & H100 & _). eauto.
  - intros i w w' HS Hi.
    destruct (chain_lookup env scan_id _ i w w' Hch HS Hi)
      as (r & r' & Hr & Hr' & Hle & Hst).
    exists r, r'. split_and!; try done.
    intros Hsave. destruct Hst as [?|[?|(_ & _ & [e He])]]; auto.
    by rewrite Hsave in He.
  - destruct (run_scan_cases env scan_id targets ports timeout w0)
      as [(st' & _ & Hrun' & [_ (r & Hr & Hs & Hp & _)] & _)
         |(e & st1 & st' & _ & Hrun' & _ & _ & [_ (r & Hr & Hs & _)] & _)];
      rewrite Hrun in Hrun'; injection Hrun' as <-; exists r.
    + split_and!; [done | by rewrite Hs | by rewrite Hp].
    + split_and!; [done | by rewrite Hs | by rewrite Hs].
Qed.

Lemma C6_witness :
  fault env_one_live AtSave = None
  ∧ ∃ st r,
      run_scan env_one_live "s1" two_targets [22; 80] 5 empty_scanner
      = (Ok tt, st)
      ∧ rec_of "s1" (self st) = Some r
      ∧ sc_status r = completed ∧ (sc_progress r == 100)%Q
      ∧ ∃ w w' q q',
          history st !! 6%nat = Some w ∧ history st !! 5%nat = Some w'
          ∧ rec_of "s1" w = Some q ∧ rec_of "s1" w' = Some q'
          ∧ sc_status q = running ∧ sc_status q' = completed
          ∧ (sc_progress q <= sc_progress q')%Q.
Proof.
  split; [reflexivity|].
  destruct (C6_scan_lifecycle env_one_live "s1" two_targets [22; 80] 5
              empty_scanner) as (st & Hrun & _ & _ & Hstep & r & Hr & Hnr & Hc).
  assert (sc_status r = completed) as Hs.
  { revert Hr. generalize Hrun. vm_compute.
    intros [= <-]. intros [= <-]. reflexivity. }
  exists st, r. split_and!; [exact Hrun | exact Hr | exact Hs | exact (Hc Hs) |].
  assert (is_Some (history st !! 6%nat)) as [w Hw].
  { generalize Hrun. vm_compute. intros [= <-]. eexists. reflexivity. }
  assert (is_Some (history st !! 5%nat)) as [w' Hw'].
  { generalize Hrun. vm_compute. intros [= <-]. eexists. reflexivity. }
  destruct (Hstep 5%nat w w' Hw Hw') as (q & q' & Hq & Hq' & Hle & _).
  exists w, w', q, q'.
  assert (sc_status q = running ∧ sc_status q' = completed) as [H1 H2].
  { revert Hq Hq' Hw Hw'. generalize Hrun. vm_compute.
    intros [= <-]. intros Hq Hq'. intros [= <-] [= <-].
    revert Hq Hq'. intros [= <-] [= <-]. split; reflexivity. }
  split_and!; [exact Hw | exact Hw' | exact Hq | exact Hq' | exact H1
              | exact H2 | exact Hle].
Defined.

(** C6 as stated fails: in a scan of one live target and two ports,
    after the second probe the progress is 100 while the status is still
    running, so progress 100 does not imply completed. *)
Lemma C6_counterexample :
  let st := (run_scan env_all_live "s1" ["10.0.0.5"] [22; 80] 5
               empty_scanner).2 in
  ¬ (∀ w r, w ∈ history st → rec_of "s1" w = Some r →
            ((sc_progress r == 100)%Q ↔ sc_status r = completed)).
Proof.
  intros st H.
  set (w := default empty_scanner (history st !! 6%nat)).
  set (r := mkScanRecord running 1 (200 # 2) ["10.0.0.5"] [22; 80] 5 []
              None None None).
  assert (w ∈ history st) as Hin.
  { apply list_elem_of_lookup. exists 6%nat. vm_compute. reflexivity. }
  assert (rec_of "s1" w = Some r) as Hr by (vm_compute; reflexivity).
  destruct (H w r Hin Hr) as [Hc _].
  assert (sc_status r = completed) as Hbad.
  { apply Hc. unfold Qeq. cbn. lia. }
  discriminate Hbad.
Qed.


End Claims.

(** ** More on the anomaly rules *)

Section AnomalyRulesMore.
Import AnomalyDetector.

Lemma suspicious_ports_of desc combo combo' :
  (combo, desc) ∈ suspicious_combinations →
  (combo', desc) ∈ suspicious_combinations → combo = combo'.
Proof.
  unfold suspicious_combinations. rewrite !elem_of_cons, !elem_of_nil.
  intros [H|[H|[H|[H|[]]]]] [H'|[H'|[H'|[H'|[]]]]];
    injection H as -> ->; by injection H'.
Qed.

(** X1. Every finding of rule 1 is justified: it names a target of the
    results and one of the four suspicious sets by its description; its
    ports are at least two, without repetition, all in that set and all
    open on that target; its severity is medium and its confidence
    0.75. *)
Theorem X1_unusual_port_combination_is_sound :
  ∀ sr target ports desc sev c,
    unusual_port_combination target ports desc sev c ∈ detect sr →
    ∃ td combo,
      (target, td) ∈ r_results sr
      ∧ (combo, desc) ∈ suspicious_combinations
      ∧ (2 ≤ length ports)%nat ∧ NoDup ports
      ∧ (∀ p, p ∈ ports ↔
              p ∈ combo
              ∧ ∃ pr, (p, pr) ∈ tr_ports td ∧ pr_status pr = st_open)
      ∧ sev = medium ∧ c = 0.75%Q.
Proof.
  intros sr target ports desc sev c. unfold detect. rewrite !elem_of_app.
  intros [Hin|[(?&?&?&?&?&[=])%rule2_shape|(?&?&[=]&_)%rule3_shape]].
  unfold _check_unusual_port_combinations, combination_findings in Hin.
  apply elem_of_flat_map in Hin as ([t td] & Ht & Hin).
  apply elem_of_flat_map in Hin as ([combo d] & Hc & Hin).
  cbn [fst snd] in Hin.
  destruct (2 <=? _)%nat eqn:Hlen; [|by apply elem_of_nil in Hin].
  apply list_elem_of_singleton in Hin. injection Hin as -> -> -> -> ->.
  apply Nat.leb_le in Hlen.
  exists td, combo. split_and!; try done.
  - apply NoDup_filter. by eapply suspicious_NoDup.
  - intros p. rewrite matching_ports_spec, open_ports_of_elem. done.
Qed.

Lemma X1_witness :
  let td := mkTargetResult "scanned"
              [(21, mkPortResult st_open "FTP" None);
               (22, mkPortResult st_closed "SSH" None);
               (23, mkPortResult st_open "Telnet" None)] in
  let sr := mkResults "s1" 0 ["a"] [21; 22; 23] 5 [("a", td)]
              None None None in
  unusual_port_combination "a" [21; 23] "Multiple remote access services"
    medium 0.75 ∈ detect sr
  ∧ ∃ td' combo,
      ("a", td') ∈ r_results sr
      ∧ (combo, "Multiple remote access services") ∈ suspicious_combinations
      ∧ (2 ≤ length [21%Z; 23%Z])%nat.
Proof.
  intros td sr.
  assert (unusual_port_combination "a" [21; 23]
            "Multiple remote access services" medium 0.75 ∈ detect sr) as Hin.
  { vm_compute. apply list_elem_of_here. }
  split; [exact Hin|].
  destruct (X1_unusual_port_combination_is_sound sr _ _ _ _ _ Hin)
    as (td' & combo & Ht & Hc & Hl & _).
  exists td', combo. split_and!; [exact Ht | exact Hc | exact Hl].
Defined.

Lemma rule2_elem sr target port service desc sev c :
  potential_vulnerability target port service desc sev c
    ∈ _check_potential_vulnerabilities sr
  ↔ ∃ td pr vservice,
      (target, td) ∈ r_results sr
      ∧ (port, pr) ∈ tr_ports td
      ∧ pr_status pr = st_open
      ∧ (port, vservice, desc, sev) ∈ vulnerable_services
      ∧ service = pr_service pr ∧ c = 0.8%Q.
Proof.
  unfold _check_potential_vulnerabilities. split.
  - intros Hin.
    apply elem_of_flat_map in Hin as ([t td] & Ht & Hin).
    apply elem_of_flat_map in Hin as ([p pr] & Hp & Hin).
    cbn [fst snd] in Hin.
    case_bool_decide as Hopen; [|by apply elem_of_nil in Hin].
    apply elem_of_flat_map in Hin as ([[[vp vs] vd] vsev] & Hv & Hin).
    case_bool_decide as Hport; [|by apply elem_of_nil in Hin].
    apply list_elem_of_singleton in Hin.
    injection Hin as -> -> -> -> -> ->. subst vp.
    exists td, pr, vs. done.
  - intros (td & pr & vs & Ht & Hp & Hopen & Hv & -> & ->).
    apply elem_of_flat_map. exists (target, td). split; [done|].
    apply elem_of_flat_map. exists (port, pr). split; [done|].
    cbn [fst snd]. rewrite bool_decide_eq_true_2 by done.
    apply elem_of_flat_map. exists (port, vs, desc, sev). split; [done|].
    rewrite bool_decide_eq_true_2 by done. apply list_elem_of_here.
Qed.

(** X2. Rule 2 emits a [potential_vulnerability] finding for a target
    and a port exactly when the port is open on that target and listed
    in the table of vulnerable services; the finding carries the
    description and severity of the table entry, the service name of the
    port result and confidence 0.8.  Ports that are not open give
    none. *)
Theorem X2_potential_vulnerability_iff :
  ∀ sr target port service desc sev c,
    potential_vulnerability target port service desc sev c ∈ detect sr
    ↔ ∃ td pr vservice,
        (target, td) ∈ r_results sr
        ∧ (port, pr) ∈ tr_ports td
        ∧ pr_status pr = st_open
        ∧ (port, vservice, desc, sev) ∈ vulnerable_services
        ∧ service = pr_service pr ∧ c = 0.8%Q.
Proof.
  intros sr target port service desc sev c.
  rewrite <- rule2_elem. unfold detect. rewrite !elem_of_app. split.
  - by intros [(?&?&?&[=])%rule1_shape|[Hin|(?&?&[=]&_)%rule3_shape]].
  - auto.
Qed.

Lemma X2_witness :
  let td := mkTargetResult "scanned"
              [(21, mkPortResult st_open "FTP" None);
               (23, mkPortResult st_closed "Telnet" None)] in
  let sr := mkResults "s1" 0 ["a"] [21; 23] 5 [("a", td)] None None None in
  potential_vulnerability "a" 21 "FTP" "Plaintext FTP service detected"
    high 0.8 ∈ detect sr
  ∧ ¬ potential_vulnerability "a" 23 "Telnet"
        "Plaintext Telnet service detected" high 0.8 ∈ detect sr.
Proof.
  intros td sr. split.
  - apply X2_potential_vulnerability_iff.
    exists td, (mkPortResult st_open "FTP" None), "FTP".
    split_and!; try reflexivity.
    + apply list_elem_of_here.
    + apply list_elem_of_here.
    + apply list_elem_of_here.
  - intros (td' & pr & vs & Ht & Hp & Hopen & _)%X2_potential_vulnerability_iff.
    apply list_elem_of_singleton in Ht. injection Ht as Ht. subst td'.
    unfold td in Hp. cbn [tr_ports] in Hp.
    apply elem_of_cons in Hp as [Hp|Hp]; [discriminate Hp|].
    apply list_elem_of_singleton in Hp. injection Hp as Hp. subst pr.
    discriminate Hopen.
Defined.

Lemma twop_fold_nil (rs : list (string * TargetResult))
    (acc : list (string * list Z)) :
  (∀ target td, (target, td) ∈ rs → open_ports_of td = []) →
  foldl (λ acc item,
           match open_ports_of item.2 with
           | [] => acc
           | open_ports => PyDict.set acc item.1 open_ports
           end) acc rs = acc.
Proof.
  revert acc. induction rs as [|[t td] rs IH]; intros acc H; [done|].
  cbn [foldl fst snd]. rewrite (H t td) by apply list_elem_of_here.
  apply IH. intros t' td' Hin. apply (H t' td'). by apply list_elem_of_further.
Qed.

(** X3. When no port of any target is open, the detector reports
    nothing, whatever the other statuses are. *)
Theorem X3_no_open_port_no_anomaly :
  ∀ sr,
    (∀ target td port pr,
        (target, td) ∈ r_results sr → (port, pr) ∈ tr_ports td →
        pr_status pr ≠ st_open) →
    detect sr = [].
Proof.
  intros sr Hclosed.
  assert (∀ target td, (target, td) ∈ r_results sr → open_ports_of td = [])
    as Hnone.
  { intros target td Ht.
    destruct (open_ports_of td) as [|p l] eqn:Hop; [done|].
    assert (p ∈ open_ports_of td) as (pr & Hp & Hs)%open_ports_of_elem
      by (rewrite Hop; apply list_elem_of_here).
    by destruct (Hclosed target td p pr). }
  assert (∀ (l : list Finding), (∀ f, f ∉ l) → l = []) as Hnil.
  { intros [|f l] H; [done|]. destruct (H f). apply list_elem_of_here. }
  unfold detect.
  rewrite (Hnil (_check_unusual_port_combinations sr)),
          (Hnil (_check_potential_vulnerabilities sr)); cbn [app].
  - unfold _check_unusual_network_patterns, targets_with_open_ports.
    by rewrite twop_fold_nil.
  - intros f Hin. destruct (rule2_shape _ _ Hin) as (t&p&sv&d&sev&->).
    apply rule2_elem in Hin as (td & pr & _ & Ht & Hp & Hopen & _).
    by destruct (Hclosed t td p pr).
  - intros f Hin. unfold _check_unusual_port_combinations in Hin.
    apply elem_of_flat_map in Hin as ([t td] & Ht & Hin).
    cbn [fst snd] in Hin. rewrite (Hnone t td Ht) in Hin.
    by apply elem_of_nil in Hin.
Qed.

Lemma X3_witness :
  let td := mkTargetResult "scanned"
              [(21, mkPortResult st_closed "FTP" None);
               (22, mkPortResult st_error "SSH" (Some "timeout"));
               (23, mkPortResult st_filtered "Telnet" None)] in
  let sr := mkResults "s1" 0 ["a"; "b"] [21; 22; 23] 5
              [("a", td); ("b", td)] None None None in
  detect sr = [].
Proof.
  intros td sr. apply X3_no_open_port_no_anomaly.
  intros target td' port pr Ht Hp.
  assert (td' = td) as ->.
  { apply elem_of_cons in Ht as [Ht|Ht]; [by injection Ht|].
    apply list_elem_of_singleton in Ht. by injection Ht. }
  unfold td in Hp. cbn [tr_ports] in Hp.
  repeat (apply elem_of_cons in Hp as [Hp|Hp];
          [injection Hp as _ ->; discriminate|]).
  by apply elem_of_nil in Hp.
Defined.

Lemma rule3_elem sr ts pat d sev c :
  NoDup (PyDict.keys (r_results sr)) →
  identical_port_pattern ts pat d sev c ∈ _check_unusual_network_patterns sr →
  ts = (filter (λ it : string * TargetResult,
                  open_ports_of it.2 ≠ []
                  ∧ sorted (open_ports_of it.2) = pat) (r_results sr)).*1
  ∧ d = pattern_description (length ts) ∧ sev = low ∧ c = 0.7%Q.
Proof.
  intros Hnd. unfold _check_unusual_network_patterns.
  destruct (1 <? _)%nat; [|by intros ?%elem_of_nil].
  intros ([pat' ts'] & Hg & (Heq & _)%pattern_finding_shape)%elem_of_flat_map.
  cbn [fst snd] in Heq. injection Heq as -> -> -> -> ->.
  split_and!; try done.
  apply dict_elem_get_Some in Hg;
    [|by apply group_fold_NoDup, NoDup_nil_2].
  unfold group_by_pattern in Hg. rewrite group_fold_get in Hg. cbn in Hg.
  rewrite targets_with_open_ports_spec, pattern_members_results in Hg
    by done.
  destruct (filter _ _).*1 eqn:Hm; [done|]. by injection Hg as <-.
Qed.

Lemma pattern_group_elem (rs : list (string * TargetResult)) pat t :
  t ∈ (filter (λ it : string * TargetResult,
                 open_ports_of it.2 ≠ []
                 ∧ sorted (open_ports_of it.2) = pat) rs).*1
  ↔ ∃ td, (t, td) ∈ rs ∧ open_ports_of td ≠ []
          ∧ sorted (open_ports_of td) = pat.
Proof.
  rewrite list_elem_of_fmap. split.
  - intros ([t' td] & -> & [[Hne Hp] Hin]%list_elem_of_filter). by exists td.
  - intros (td & Hin & Hne & Hp). exists (t, td). split; [done|].
    by apply list_elem_of_filter.
Qed.

Lemma sorted_iff l pat :
  sorted l = pat ↔ Sorted Z.le pat ∧ pat ≡ₚ l.
Proof.
  destruct (sorted_spec l) as [Hs Hp]. split.
  - intros <-. done.
  - intros [Hs' Hp']. apply (Sorted_unique Z.le); [done | done |].
    by rewrite Hp, Hp'.
Qed.

(** X4. With distinct target keys, every [identical_port_pattern]
    finding has as pattern an ascending list of ports and lists, in the
    order of the results and without repetition, exactly the targets
    that have a port of status open and whose ports of status open are,
    up to their order, the pattern; its description gives their number.
    So no target is listed in two different findings of this type. *)
Theorem X4_identical_port_pattern_groups_partition :
  ∀ sr,
    NoDup (PyDict.keys (r_results sr)) →
    (∀ ts pat d sev c,
        identical_port_pattern ts pat d sev c ∈ detect sr →
        NoDup ts
        ∧ Sorted Z.le pat
        ∧ (∀ t, t ∈ ts
                ↔ ∃ td, (t, td) ∈ r_results sr
                        ∧ (∃ p pr, (p, pr) ∈ tr_ports td
                                   ∧ pr_status pr = st_open)
                        ∧ pat ≡ₚ (filter (λ pp : Z * PortResult,
                                            pr_status pp.2 = st_open)
                                         (tr_ports td)).*1)
        ∧ sublist ts (PyDict.keys (r_results sr))
        ∧ d = pattern_description (length ts))
    ∧ (∀ f1 f2 ts1 pat1 d1 sev1 c1 ts2 pat2 d2 sev2 c2 t,
          f1 = identical_port_pattern ts1 pat1 d1 sev1 c1 →
          f2 = identical_port_pattern ts2 pat2 d2 sev2 c2 →
          f1 ∈ detect sr → f2 ∈ detect sr →
          t ∈ ts1 → t ∈ ts2 → f1 = f2).
Proof.
  intros sr Hnd.
  assert (∀ ts pat d sev c,
            identical_port_pattern ts pat d sev c ∈ detect sr →
            identical_port_pattern ts pat d sev c
              ∈ _check_unusual_network_patterns sr) as Hdet.
  { intros ts pat d sev c. unfold detect. rewrite !elem_of_app.
    by intros [(?&?&?&[=])%rule1_shape|[(?&?&?&?&?&[=])%rule2_shape|?]]. }
  assert (∀ td, open_ports_of td ≠ []
                ↔ ∃ p pr, (p, pr) ∈ tr_ports td ∧ pr_status pr = st_open)
    as Hsome.
  { intros td. split.
    - destruct (open_ports_of td) as [|p l] eqn:Hop; [done|]. intros _.
      assert (p ∈ open_ports_of td) as (pr & ? & ?)%open_ports_of_elem
        by (rewrite Hop; apply list_elem_of_here).
      by exists p, pr.
    - intros (p & pr & Hin & Hs) Hnil.
      assert (p ∈ open_ports_of td) as Hp
        by (apply open_ports_of_elem; by exists pr).
      rewrite Hnil in Hp. by apply elem_of_nil in Hp. }
  split.
  - intros ts pat d sev c Hin%Hdet.
    destruct (rule3_elem _ _ _ _ _ _ Hnd Hin) as (Hts & Hd & _).
    assert (Sorted Z.le pat) as Hsorted.
    { destruct (rule3_shape _ _ Hin) as (ts' & pat' & [= <- <- _] & Hlen & _).
      destruct ts as [|t0 ts0]; [cbn in Hlen; lia|].
      assert (t0 ∈ t0 :: ts0) as Ht0 by apply list_elem_of_here.
      rewrite Hts in Ht0.
      apply pattern_group_elem in Ht0 as (td0 & _ & _ & Hp).
      by apply sorted_iff in Hp as [? _]. }
    split_and!; [|done| | |done].
    + rewrite Hts.
      eapply sublist_NoDup;
        first [exact Hnd | apply fmap_sublist, sublist_filter].
    + intros t. rewrite Hts at 1. rewrite pattern_group_elem.
      split; intros (td & Ht & Hne & Hp); exists td;
        (split_and!; [done | by apply Hsome |]).
      * by apply sorted_iff in Hp as [_ ?].
      * by apply sorted_iff.
    + rewrite Hts. apply fmap_sublist, sublist_filter.
  - intros f1 f2 ts1 pat1 d1 sev1 c1 ts2 pat2 d2 sev2 c2 t -> ->
      Hin1%Hdet Hin2%Hdet Ht1 Ht2.
    destruct (rule3_elem _ _ _ _ _ _ Hnd Hin1) as (Hts1 & -> & -> & ->).
    destruct (rule3_elem _ _ _ _ _ _ Hnd Hin2) as (Hts2 & -> & -> & ->).
    rewrite Hts1 in Ht1. rewrite Hts2 in Ht2.
    apply pattern_group_elem in Ht1 as (td1 & Hin & _ & Hp1).
    apply pattern_group_elem in Ht2 as (td2 & Hin' & _ & Hp2).
    apply (dict_elem_get_Some _ _ _ Hnd) in Hin, Hin'.
    rewrite Hin in Hin'. injection Hin' as <-.
    assert (pat1 = pat2) as -> by congruence.
    by rewrite Hts1, Hts2.
Qed.

Lemma X4_witness :
  let web := mkTargetResult "scanned"
               [(80, mkPortResult st_open "HTTP" None);
                (443, mkPortResult st_open "HTTPS" None);
                (8080, mkPortResult st_open "HTTP-Proxy" None)] in
  let web' := mkTargetResult "scanned"
                [(22, mkPortResult st_closed "SSH" None);
                 (8080, mkPortResult st_open "HTTP-Proxy" None);
                 (80, mkPortResult st_open "HTTP" None);
                 (443, mkPortResult st_open "HTTPS" None)] in
  let down := mkTargetResult "scanned"
                [(80, mkPortResult st_closed "HTTP" None);
                 (443, mkPortResult st_closed "HTTPS" None);
                 (8080, mkPortResult st_error "HTTP-Proxy" (Some "timeout"))] in
  let sr := mkResults "s1" 0 ["a"; "b"; "c"] [22; 80; 443; 8080] 5
              [("a", web); ("b", down); ("c", web')] None None None in
  NoDup (PyDict.keys (r_results sr))
  ∧ identical_port_pattern ["a"; "c"] [80; 443; 8080]
      "Multiple hosts (2) have identical open port patterns" low 0.7
    ∈ detect sr
  ∧ NoDup ["a"; "c"]
  ∧ ("b" ∉ ["a"; "c"])
  ∧ (∃ td, ("c", td) ∈ r_results sr
           ∧ (∃ p pr, (p, pr) ∈ tr_ports td ∧ pr_status pr = st_open)
           ∧ [80; 443; 8080]
             ≡ₚ (filter (λ pp : Z * PortResult, pr_status pp.2 = st_open)
                        (tr_ports td)).*1)
  ∧ sublist ["a"; "c"] (PyDict.keys (r_results sr)).
Proof.
  intros web web' down sr.
  assert (NoDup (PyDict.keys (r_results sr))) as Hnd.
  { apply NoDup_ListNoDup. repeat constructor; cbn; intuition discriminate. }
  assert (identical_port_pattern ["a"; "c"] [80; 443; 8080]
            "Multiple hosts (2) have identical open port patterns" low 0.7
          ∈ detect sr) as Hin.
  { vm_compute. do 2 apply list_elem_of_further. apply list_elem_of_here. }
  destruct (X4_identical_port_pattern_groups_partition sr Hnd) as [Hone _].
  destruct (Hone _ _ _ _ _ Hin) as (H1 & _ & H2 & H3 & _).
  split_and!; [exact Hnd | exact Hin | exact H1 | | | exact H3].
  - rewrite !elem_of_cons, elem_of_nil. intuition discriminate.
  - apply (H2 "c"). apply list_elem_of_further, list_elem_of_here.
Defined.
End AnomalyRulesMore.


(** ** What the registry writes preserve *)

Section WritesFacts.
Import NetworkScanner Observe Writes.

Lemma preserves_frame_only {A} Φ (m : M A) : frame_only m → preserves Φ m.
Proof.
  intros Hm st H. destruct (Hm st) as [Hs Hp]. unfold history in *.
  by rewrite Hs, Hp.
Qed.

Lemma preserves_bind {A B} Φ (m : M A) (f : A → M B) :
  preserves Φ m → (∀ a, preserves Φ (f a)) → preserves Φ (bind m f).
Proof.
  intros Hm Hf st H. unfold bind. specialize (Hm st H).
  destruct (m st) as [[a|e] st']; cbn in *; [by apply Hf | done].
Qed.

Lemma preserves_try {A} Φ (m : M A) (h : string → M A) :
  preserves Φ m → (∀ e, preserves Φ (h e)) → preserves Φ (try_except m h).
Proof.
  intros Hm Hh st H. unfold try_except. specialize (Hm st H).
  destruct (m st) as [[a|e] st']; cbn in *; [done | by apply Hh].
Qed.

Lemma preserves_commit Φ g :
  (∀ w, Φ w → Φ (g w)) → preserves Φ (commit g).
Proof.
  intros Hg st H. unfold commit, history in *. cbn.
  apply Forall_cons. split; [|done].
  apply Hg. by apply Forall_cons_1 in H as [? _].
Qed.

Lemma preserves_update_scan env scan_id Φ f :
  write_closed env scan_id Φ → Setter f → preserves Φ (update_scan scan_id f).
Proof.
  intros (Hw & _) Hf st H. unfold update_scan, bind, get_self.
  destruct (active_scans (self st) !! scan_id) as [r|] eqn:Hr; [|done].
  unfold commit, history in *. cbn. apply Forall_cons. split; [|done].
  apply Hw; [done | | done]. by apply Forall_cons_1 in H as [? _].
Qed.

Lemma preserves_if_active scan_id Φ m :
  preserves Φ m → preserves Φ (if_active scan_id m).
Proof.
  intros Hm st H. unfold if_active, bind, get_self.
  case_bool_decide; [by apply Hm | done].
Qed.

Lemma preserves_await env scan_id timeout total Φ futures : ∀ k,
  write_closed env scan_id Φ →
  preserves Φ (await_futures env scan_id timeout total futures k).
Proof.
  induction futures as [|[t p] fs IH]; intros k Hc.
  - by intros st H.
  - cbn [await_futures].
    apply preserves_bind;
      [apply preserves_frame_only, frame_only_scan_port|]. intros _.
    apply preserves_bind;
      [apply preserves_frame_only, frame_only_lift|]. intros q.
    apply preserves_bind; [|intros _; by apply IH].
    apply preserves_if_active.
    eapply preserves_update_scan; [done | constructor].
Qed.

Lemma preserves_try_block env scan_id targets ports timeout Φ :
  write_closed env scan_id Φ →
  preserves Φ (_execute_scan_try env scan_id targets ports timeout).
Proof.
  intros Hc. unfold _execute_scan_try.
  apply preserves_bind;
    [apply preserves_frame_only, frame_only_set_frame|]. intros _.
  apply preserves_bind;
    [apply preserves_frame_only, frame_only_call|]. intros live.
  apply preserves_bind;
    [apply preserves_frame_only, frame_only_submit_targets|]. intros fs.
  apply preserves_bind; [by apply preserves_await|]. intros _.
  apply preserves_bind;
    [apply preserves_frame_only, frame_only_detect|]. intros _.
  apply preserves_bind;
    [apply preserves_frame_only, frame_only_get_frame|]. intros r.
  apply preserves_bind;
    [apply preserves_frame_only, frame_only_set_frame|]. intros _.
  apply preserves_bind.
  { apply preserves_if_active.
    repeat (apply preserves_bind;
              [eapply preserves_update_scan; [done | constructor]|];
            intros _).
    eapply preserves_update_scan; [done | constructor]. }
  intros _.
  apply preserves_bind;
    [apply preserves_frame_only, frame_only_get_frame|]. intros r'.
  destruct Hc as (_ & Hstore & Hsave).
  apply preserves_bind; [apply preserves_commit; intros w; apply Hstore|].
  intros _. unfold _save_results, write_file.
  destruct (fault env AtSave) as [e|].
  - destruct (torn_write env) as [d|]; [|by intros st H].
    apply preserves_bind; [apply preserves_commit; intros w; apply Hsave|].
    by intros _ st H.
  - apply preserves_commit. intros w. apply Hsave.
Qed.

Lemma preserves_execute_scan env scan_id targets ports timeout Φ :
  write_closed env scan_id Φ →
  preserves Φ (_execute_scan env scan_id targets ports timeout).
Proof.
  intros Hc. unfold _execute_scan.
  apply preserves_try; [by apply preserves_try_block|].
  intros e. unfold _execute_scan_except. apply preserves_if_active.
  apply preserves_bind; [|intros _];
    eapply preserves_update_scan; first [done | constructor].
Qed.

Lemma run_scan_preserves env scan_id targets ports timeout w0 Φ :
  write_closed env scan_id Φ →
  Φ (start_scan env scan_id targets ports timeout w0) →
  Forall Φ (history (run_scan env scan_id targets ports timeout w0).2).
Proof.
  intros Hc H0. unfold run_scan.
  apply preserves_execute_scan; [done|].
  unfold history, scan_start_state. cbn. by apply Forall_singleton.
Qed.

Lemma others_same_closed env scan_id w0 :
  write_closed env scan_id (others_same env scan_id w0).
Proof.
  split_and!.
  - intros w r f _ [Hreg Hfiles] _. split; [|done].
    intros id' Hne. destruct (Hreg id' Hne) as (Ha & Hs).
    cbn. by rewrite lookup_insert_ne.
  - intros w res [Hreg Hfiles]. split; [|done].
    intros id' Hne. destruct (Hreg id' Hne) as (Ha & Hs).
    cbn. by rewrite lookup_insert_ne.
  - intros w content [Hreg Hfiles]. split; [done|].
    intros path Hne. cbn. rewrite lookup_insert_ne by done.
    by apply Hfiles.
Qed.

Lemma record_static_closed env scan_id targets ports timeout :
  write_closed env scan_id (record_static env scan_id targets ports timeout).
Proof.
  split_and!.
  - intros w r f Hf (r' & Hr' & H) Hr. rewrite Hr in Hr'.
    injection Hr' as <-. exists (f r). cbn.
    rewrite lookup_insert_eq. split; [done|]. by destruct Hf.
  - by intros w res H.
  - by intros w res H.
Qed.

(** X6. A scan never touches another scan: in every state a poller can
    observe during [start_scan] and the execution it starts, the record
    and the stored results of every other scan id, and every file but
    the results file of the scan itself, are those from before.  Two
    scan ids can name the same results file; then a scan whose [try]
    block returns leaves its own results in the file of the other
    id. *)
Theorem X6_scan_leaves_other_scans_alone :
  (∀ env scan_id targets ports timeout w0 w id',
      w ∈ history (run_scan env scan_id targets ports timeout w0).2 →
      id' ≠ scan_id →
      active_scans w !! id' = active_scans w0 !! id'
      ∧ scan_results w !! id' = scan_results w0 !! id'
      ∧ (results_file env id' ≠ results_file env scan_id →
         files w !! results_file env id' = files w0 !! results_file env id'))
  ∧ (∀ env scan_id targets ports timeout w0 w path,
        w ∈ history (run_scan env scan_id targets ports timeout w0).2 →
        path ≠ results_file env scan_id →
        files w !! path = files w0 !! path)
  ∧ (∀ env scan_id targets ports timeout w0 st id',
        _execute_scan_try env scan_id targets ports timeout
          (scan_start_state env scan_id targets ports timeout w0)
        = (Ok tt, st) →
        results_file env id' = results_file env scan_id →
        files (self st) !! results_file env id' = Some (dumped (frame st))).
Proof.
  assert (∀ env scan_id targets ports timeout w0 w,
            w ∈ history (run_scan env scan_id targets ports timeout w0).2 →
            others_same env scan_id w0 w) as Hothers.
  { intros env scan_id targets ports timeout w0 w Hin.
    pose proof (run_scan_preserves env scan_id targets ports timeout w0
                  (others_same env scan_id w0)
                  (others_same_closed env scan_id w0)) as Hall.
    rewrite Forall_forall in Hall. apply Hall; [|done].
    split; [|done]. intros id'' Hne'. cbn. by rewrite lookup_insert_ne. }
  split_and!.
  - intros env scan_id targets ports timeout w0 w id' Hin Hne.
    destruct (Hothers env scan_id targets ports timeout w0 w Hin)
      as [Hreg Hfiles].
    destruct (Hreg id' Hne) as [Ha Hs]. split_and!; [done | done |].
    apply Hfiles.
  - intros env scan_id targets ports timeout w0 w path Hin Hne.
    by apply (Hothers env scan_id targets ports timeout w0 w Hin).
  - intros env scan_id targets ports timeout w0 st id' Htry ->.
    pose proof (try_frame env scan_id targets ports timeout
                  (scan_start_state env scan_id targets ports timeout w0))
      as Hfr.
    rewrite Htry in Hfr. by destruct Hfr as (_ & _ & _ & Hfile).
Qed.

(** X7. The record of a scan keeps, in every observable state, the
    targets, ports and timeout given to [start_scan] and the start time
    taken there, and its ['results'] field stays empty: the execution
    only writes status, progress, end time, duration and error. *)
Theorem X7_record_keeps_scan_parameters :
  ∀ env scan_id targets ports timeout w0 w,
    w ∈ history (run_scan env scan_id targets ports timeout w0).2 →
    ∃ r, active_scans w !! scan_id = Some r
         ∧ sc_targets r = targets ∧ sc_ports r = ports
         ∧ sc_timeout r = timeout ∧ sc_start_time r = now_request env
         ∧ sc_results r = [].
Proof.
  intros env scan_id targets ports timeout w0 w Hin.
  pose proof (run_scan_preserves env scan_id targets ports timeout w0
                (record_static env scan_id targets ports timeout)
                (record_static_closed env scan_id targets ports timeout))
    as Hall.
  rewrite Forall_forall in Hall. apply Hall; [|done].
  eexists. cbn. rewrite lookup_insert_eq. done.
Qed.
End WritesFacts.

(** ** The direct scan, [scan_with_scapy] *)

Section DirectScan.
Import NetworkScanner Examples.

Lemma scan_with_scapy_from_ok env target ports : ∀ acc,
  (∀ p, p ∈ ports → ∃ r, sr1 env target p 1 = Ok r) →
  ∃ d, scan_with_scapy_from env target ports acc = Ok d
       ∧ (NoDup (PyDict.keys acc) → NoDup (PyDict.keys d))
       ∧ (∀ p, p ∈ PyDict.keys d ↔ p ∈ PyDict.keys acc ∨ p ∈ ports)
       ∧ (∀ p, p ∉ ports → PyDict.get d p = PyDict.get acc p)
       ∧ (∀ p r, p ∈ ports → sr1 env target p 1 = Ok r →
                 PyDict.get d p = Some (scapy_status r)).
Proof.
  induction ports as [|q ports IH]; intros acc Hok.
  - exists acc. split_and!; try done.
    + intros p. rewrite elem_of_nil. tauto.
    + by intros p r ?%elem_of_nil.
  - cbn [scan_with_scapy_from].
    destruct (Hok q) as [rq Hq]; [apply list_elem_of_here|]. rewrite Hq.
    destruct (IH (PyDict.set acc q (scapy_status rq)))
      as (d & Hd & Hnd & Hk & Hout & Hin).
    { intros p Hp. apply Hok. by apply list_elem_of_further. }
    exists d. split_and!; [done | | | |].
    + intros H. by apply Hnd, dict_NoDup_keys_set.
    + intros p. rewrite Hk, dict_elem_of_keys_set, elem_of_cons. tauto.
    + intros p [Hne Hp]%not_elem_of_cons.
      rewrite Hout by done. by rewrite dict_get_set_ne.
    + intros p r Hp Hr. destruct (decide (p ∈ ports)) as [Hin'|Hnin].
      * by apply Hin.
      * apply elem_of_cons in Hp as [->|?]; [|done].
        rewrite Hout by done. rewrite dict_get_set_eq. congruence.
Qed.

Lemma scapy_status_not_error resp : scapy_status resp ≠ st_error.
Proof.
  unfold scapy_status. destruct resp as [[[flags|]]|]; cbn [tcp_flags];
    [|done|done].
  do 2 (case_bool_decide; [done|]). done.
Qed.

(** X5. [scan_with_scapy] on ports every probe of which returns: the
    result has exactly the requested ports as keys, once each, and maps
    a port to open when the flags of the reply are exactly 0x12, to
    closed when they are exactly 0x14, and to filtered for any other
    flags, for a reply without TCP layer and when there is no reply; it
    never holds the status error.  When the probe of a port raises,
    after probes that returned, the exception propagates and no result
    is returned. *)
Theorem X5_scan_with_scapy_result :
  (∀ env target ports,
      (∀ p, p ∈ ports → ∃ r, sr1 env target p 1 = Ok r) →
      ∃ d, scan_with_scapy env target ports = Ok d
           ∧ NoDup (PyDict.keys d)
           ∧ (∀ p, p ∈ PyDict.keys d ↔ p ∈ ports)
           ∧ (∀ p, p ∈ ports →
                   sr1 env target p 1 = Ok (Some (mkPacket (Some 0x12))) →
                   PyDict.get d p = Some st_open)
           ∧ (∀ p, p ∈ ports →
                   sr1 env target p 1 = Ok (Some (mkPacket (Some 0x14))) →
                   PyDict.get d p = Some st_closed)
           ∧ (∀ p flags, p ∈ ports →
                   sr1 env target p 1 = Ok (Some (mkPacket (Some flags))) →
                   flags ≠ 0x12 → flags ≠ 0x14 →
                   PyDict.get d p = Some st_filtered)
           ∧ (∀ p, p ∈ ports →
                   sr1 env target p 1 = Ok (Some (mkPacket None)) →
                   PyDict.get d p = Some st_filtered)
           ∧ (∀ p, p ∈ ports → sr1 env target p 1 = Ok None →
                   PyDict.get d p = Some st_filtered)
           ∧ (∀ p s, PyDict.get d p = Some s → s ≠ st_error))
  ∧ (∀ env target before p after e,
        (∀ q, q ∈ before → ∃ r, sr1 env target q 1 = Ok r) →
        sr1 env target p 1 = Raise e →
        scan_with_scapy env target (before ++ p :: after) = Raise e).
Proof.
  split.
  - intros env target ports Hok.
    destruct (scan_with_scapy_from_ok env target ports [] Hok)
      as (d & Hd & Hnd & Hk & Hout & Hin).
    exists d. split_and!; [done | | | | | | | |].
    + apply Hnd, NoDup_nil_2.
    + intros p. rewrite Hk. cbn. rewrite elem_of_nil. tauto.
    + intros p Hp Hr. by rewrite (Hin p _ Hp Hr).
    + intros p Hp Hr. by rewrite (Hin p _ Hp Hr).
    + intros p flags Hp Hr H12 H14. rewrite (Hin p _ Hp Hr).
      unfold scapy_status. cbn [tcp_flags].
      by rewrite !bool_decide_eq_false_2.
    + intros p Hp Hr. by rewrite (Hin p _ Hp Hr).
    + intros p Hp Hr. by rewrite (Hin p None).
    + intros p s Hg. destruct (decide (p ∈ ports)) as [Hp|Hp].
      * destruct (Hok p Hp) as [r Hr]. rewrite (Hin p r Hp Hr) in Hg.
        injection Hg as <-. apply scapy_status_not_error.
      * by rewrite Hout in Hg.
  - intros env target before p after e Hok Hp. unfold scan_with_scapy.
    generalize (@nil (Z * PortStatus)).
    induction before as [|q before IH]; intros acc.
    + cbn. by rewrite Hp.
    + cbn. destruct (Hok q) as [r ->]; [apply list_elem_of_here|].
      apply IH. intros q' Hq'. apply Hok. by apply list_elem_of_further.
Qed.

Lemma X5_witness :
  (∀ p, p ∈ [22; 23; 80; 443] →
        ∃ r, sr1 env_all_live "10.0.0.5" p 1 = Ok r)
  ∧ (∃ d, scan_with_scapy env_all_live "10.0.0.5" [22; 23; 80; 443] = Ok d
          ∧ PyDict.get d 80 = Some st_open
          ∧ PyDict.get d 22 = Some st_closed
          ∧ PyDict.get d 23 = Some st_filtered
          ∧ PyDict.get d 443 = Some st_filtered)
  ∧ sr1 env_all_live "10.0.0.5" 25 1 = Raise "Operation not permitted"
  ∧ scan_with_scapy env_all_live "10.0.0.5" [22; 25; 80]
    = Raise "Operation not permitted".
Proof.
  destruct X5_scan_with_scapy_result as [Hok Hraise].
  assert (∀ p, p ∈ [22; 23; 80; 443] →
               ∃ r, sr1 env_all_live "10.0.0.5" p 1 = Ok r) as H.
  { intros p Hp. repeat (apply elem_of_cons in Hp as [->|Hp];
                         [eexists; reflexivity|]).
    by apply elem_of_nil in Hp. }
  split_and!; [exact H | | reflexivity |].
  - destruct (Hok env_all_live "10.0.0.5" [22; 23; 80; 443] H)
      as (d & Hd & _ & _ & Hopen & Hclosed & Hother & _ & Hnone & _).
    exists d. split_and!; [exact Hd | | | |].
    + apply Hopen; [|reflexivity].
      do 2 apply list_elem_of_further. apply list_elem_of_here.
    + apply Hclosed; [|reflexivity]. apply list_elem_of_here.
    + apply (Hother 23 0x04); [|reflexivity|discriminate|discriminate].
      apply list_elem_of_further, list_elem_of_here.
    + apply Hnone; [|reflexivity].
      do 3 apply list_elem_of_further. apply list_elem_of_here.
  - apply (Hraise env_all_live "10.0.0.5" [22] 25 [80]); [|reflexivity].
    intros q ->%list_elem_of_singleton. eexists. reflexivity.
Defined.
End DirectScan.

(** ** What a completed scan stores *)

Section StoredResults.
Import NetworkScanner Observe Writes Examples.

Lemma keeps_meta_bind {A B} (m : M A) (f : A → M B) :
  keeps_meta m → (∀ a, keeps_meta (f a)) → keeps_meta (bind m f).
Proof.
  intros Hm Hf st. unfold bind. specialize (Hm st).
  destruct (m st) as [[a|e] st']; cbn in *; [|done].
  by rewrite Hf.
Qed.

Lemma keeps_meta_try {A} (m : M A) (h : string → M A) :
  keeps_meta m → (∀ e, keeps_meta (h e)) → keeps_meta (try_except m h).
Proof.
  intros Hm Hh st. unfold try_except. specialize (Hm st).
  destruct (m st) as [[a|e] st']; cbn in *; [done|].
  by rewrite Hh.
Qed.

Lemma keeps_frame_meta {A} (m : M A) : keeps_frame m → keeps_meta m.
Proof. intros Hm st. by rewrite Hm. Qed.

Lemma keeps_frame_update_scan scan_id f : keeps_frame (update_scan scan_id f).
Proof.
  intros st. unfold update_scan, bind, get_self.
  by destruct (active_scans (self st) !! scan_id).
Qed.

Lemma keeps_frame_if_active scan_id m :
  keeps_frame m → keeps_frame (if_active scan_id m).
Proof.
  intros Hm st. unfold if_active, bind, get_self.
  case_bool_decide; [apply Hm | done].
Qed.

Lemma keeps_meta_write_port t p pr : keeps_meta (write_port t p pr).
Proof.
  intros st. unfold write_port, bind, get_frame.
  by destruct (PyDict.get (r_results (frame st)) t).
Qed.

Lemma keeps_meta_scan_port env scan_id t p timeout :
  keeps_meta (_scan_port env scan_id t p timeout).
Proof.
  apply keeps_meta_try.
  - apply keeps_meta_bind; [by intros st|].
    intros r. apply keeps_meta_write_port.
  - intros e. apply keeps_meta_write_port.
Qed.

Lemma keeps_frame_call {A} env stage (a : A) : keeps_frame (call env stage a).
Proof. intros st. unfold call. by destruct (fault env stage). Qed.

Lemma keeps_meta_submit_ports env t ports futures :
  keeps_meta (submit_ports env t ports futures).
Proof.
  revert futures. induction ports as [|p ports IH]; intros futures.
  - by intros st.
  - cbn [submit_ports].
    apply keeps_meta_bind; [apply keeps_frame_meta, keeps_frame_call|].
    intros _. apply IH.
Qed.

Lemma keeps_meta_submit_targets env live ports futures :
  keeps_meta (submit_targets env live ports futures).
Proof.
  revert futures. induction live as [|t live IH]; intros futures.
  - by intros st.
  - cbn [submit_targets]. intros st. unfold bind at 1 2. cbn [get_frame set_frame].
    set (st1 := mkSt _ _ _).
    assert (meta (frame st1) = meta (frame st)) as <- by done.
    revert st1. apply keeps_meta_bind;
      [apply keeps_meta_submit_ports | intros fs; apply IH].
Qed.

Lemma keeps_meta_await env scan_id timeout total futures : ∀ k,
  keeps_meta (await_futures env scan_id timeout total futures k).
Proof.
  induction futures as [|[t p] fs IH]; intros k.
  - by intros st.
  - cbn [await_futures].
    apply keeps_meta_bind; [apply keeps_meta_scan_port|]. intros _.
    apply keeps_meta_bind; [by intros st|]. intros q.
    apply keeps_meta_bind; [|intros _; apply IH].
    apply keeps_frame_meta, keeps_frame_if_active, keeps_frame_update_scan.
Qed.

Lemma detect_ext a b :
  r_results a = r_results b → AnomalyDetector.detect a = AnomalyDetector.detect b.
Proof.
  intros H. unfold AnomalyDetector.detect,
    AnomalyDetector._check_unusual_port_combinations,
    AnomalyDetector._check_potential_vulnerabilities,
    AnomalyDetector._check_unusual_network_patterns,
    AnomalyDetector.targets_with_open_ports.
  by rewrite H.
Qed.

(** The local [results] at the end of a [try] block that returned. *)
Lemma try_stored env scan_id targets ports timeout st :
  match _execute_scan_try env scan_id targets ports timeout st with
  | (Ok _, st') =>
      meta (frame st')
      = (scan_id, now_start env, targets, ports, timeout,
         Some (AnomalyDetector.detect (frame st')), Some (now_end env),
         Some (now_end env - now_start env)%Q)
      ∧ scan_results (self st') !! scan_id = Some (frame st')
      ∧ files (self st') !! results_file env scan_id
        = Some (dumped (frame st'))
  | (Raise _, _) => True
  end.
Proof.
  unfold _execute_scan_try.
  unfold bind at 1. cbn [set_frame]. set (st0 := mkSt _ _ _).
  unfold bind at 1, call.
  destruct (fault env AtDiscover) as [e|]; [done|]. cbn [ret].
  unfold bind at 1.
  pose proof (keeps_meta_submit_targets env
                (_discover_hosts env targets) ports [] st0) as H1.
  destruct (submit_targets _ _ _ _ st0) as [[fs|e] st1]; [|done].
  cbn [snd] in H1. unfold bind at 1.
  pose proof (keeps_meta_await env scan_id timeout
                (length targets * length ports) fs 0 st1) as H2.
  destruct (await_futures _ _ _ _ _ _ st1) as [[[]|e] st2]; [|done].
  cbn [snd] in H2. rewrite H1 in H2. clear H1.
  unfold meta in H2. cbn [frame st0 r_scan_id r_start_time r_targets r_ports
                           r_timeout r_anomalies r_end_time r_duration] in H2.
  injection H2 as Hid Hstart Htargets Hports Htimeout _ _ _.
  unfold bind at 1, _detect_anomalies, bind at 1 2, get_frame, call.
  destruct (fault env AtDetect) as [e|]; [done|].
  cbn [ret set_frame]. unfold bind at 1 2. cbn [get_frame set_frame frame].
  cbn [r_scan_id r_start_time r_targets r_ports r_timeout r_results
         r_anomalies r_end_time r_duration].
  set (st3 := mkSt _ _ _).
  unfold bind at 1.
  destruct (completion_frame scan_id (set_status completed) (set_progress 100)
              (set_end_time (now_end env))
              (set_duration (now_end env - now_start env)%Q) st3)
    as (st4 & -> & Hf4 & _).
  unfold bind at 1 2. cbn [get_frame commit].
  unfold _save_results.
  destruct (fault env AtSave) as [e|]; [by destruct (torn_write env)|].
  unfold write_file. cbn [commit self frame scan_results files]. rewrite Hf4.
  split_and!; [|apply lookup_insert_eq|apply lookup_insert_eq].
  unfold meta, st3. cbn [frame r_scan_id r_start_time r_targets r_ports
                           r_timeout r_anomalies r_end_time r_duration].
  rewrite Hid, Hstart, Htargets, Hports, Htimeout.
  repeat f_equal; by apply detect_ext.
Qed.

(** X8. A scan whose [try] block returned has stored the same results
    in memory and in the results file, and the results query returns
    them.  They carry the scan id, the targets, ports and timeout of the
    request, the start and end times of the execution with their
    difference as duration, and as anomalies exactly what the detector
    reports on their own per-target results. *)
Theorem X8_stored_results_are_what_the_query_returns :
  ∀ env scan_id targets ports timeout w0 st,
    _execute_scan_try env scan_id targets ports timeout
      (scan_start_state env scan_id targets ports timeout w0) = (Ok tt, st) →
    ∃ res,
      run_scan env scan_id targets ports timeout w0 = (Ok tt, st)
      ∧ scan_results (self st) !! scan_id = Some res
      ∧ files (self st) !! results_file env scan_id = Some (dumped res)
      ∧ get_scan_results env scan_id st = (Ok (Some (Stored res)), st)
      ∧ r_scan_id res = scan_id ∧ r_targets res = targets
      ∧ r_ports res = ports ∧ r_timeout res = timeout
      ∧ r_start_time res = now_start env
      ∧ r_end_time res = Some (now_end env)
      ∧ r_duration res = Some (now_end env - now_start env)%Q
      ∧ r_anomalies res = Some (AnomalyDetector.detect res).
Proof.
  intros env scan_id targets ports timeout w0 st Htry.
  pose proof (try_stored env scan_id targets ports timeout
                (scan_start_state env scan_id targets ports timeout w0))
    as H.
  rewrite Htry in H. destruct H as (Hm & Hs & Hf).
  unfold meta in Hm. injection Hm as ? ? ? ? ? ? ? ?.
  exists (frame st). split_and!; try done.
  - unfold run_scan, _execute_scan, try_except. by rewrite Htry.
  - rewrite get_scan_results_read. by rewrite Hs.
Qed.

Lemma X8_witness :
  ∃ st res,
    _execute_scan_try env_all_live "s1" ["10.0.0.5"] [21; 23] 5
      (scan_start_state env_all_live "s1" ["10.0.0.5"] [21; 23] 5
         empty_scanner) = (Ok tt, st)
    ∧ get_scan_results env_all_live "s1" st = (Ok (Some (Stored res)), st)
    ∧ files (self st) !! "scan_results/s1.json" = Some (dumped res)
    ∧ r_duration res = Some 1%Q
    ∧ r_anomalies res = Some (AnomalyDetector.detect res).
Proof.
  destruct (_execute_scan_try env_all_live "s1" ["10.0.0.5"] [21; 23] 5
              (scan_start_state env_all_live "s1" ["10.0.0.5"] [21; 23] 5
                 empty_scanner)) as [o st] eqn:Htry.
  assert (o = Ok tt) as ->.
  { apply (f_equal fst) in Htry. cbn [fst] in Htry. rewrite <- Htry.
    vm_compute. reflexivity. }
  destruct (X8_stored_results_are_what_the_query_returns env_all_live "s1"
              ["10.0.0.5"] [21; 23] 5 empty_scanner st Htry)
    as (res & _ & _ & Hf & Hq & _ & _ & _ & _ & _ & _ & Hd & Ha).
  exists st, res.
  split_and!; [reflexivity | exact Hq | exact Hf | | exact Ha].
  rewrite Hd. reflexivity.
Defined.

Lemma port_status_of_cases resp port :
  pr_status (port_status_of resp port) = st_open
  ∨ pr_status (port_status_of resp port) = st_closed.
Proof.
  unfold port_status_of. cbn [pr_status].
  destruct resp as [[[flags|]]|]; cbn [tcp_flags]; [|auto|auto].
  do 2 (case_bool_decide; [auto|]). auto.
Qed.

(** X9. One probe task.  When the target has an entry in the local
    results, [_scan_port] returns without raising, leaves the registry
    alone and writes one port result under the port: every other port
    of the target and every other target keep what they had.  The result
    always carries the guessed service; its status is never filtered; it
    is error, with the message as detail, exactly when [sr1] raised.
    When the target has no entry, the [KeyError] escapes the handler and
    nothing is written. *)
Theorem X9_scan_port_writes_one_entry :
  (∀ env scan_id target port timeout st td,
      PyDict.get (r_results (frame st)) target = Some td →
      ∃ st' pr,
        _scan_port env scan_id target port timeout st = (Ok tt, st')
        ∧ self st' = self st ∧ past st' = past st
        ∧ PyDict.get (r_results (frame st')) target
          = Some (mkTargetResult (tr_status td)
                    (PyDict.set (tr_ports td) port pr))
        ∧ PyDict.get (PyDict.set (tr_ports td) port pr) port = Some pr
        ∧ (∀ port', port' ≠ port →
                    PyDict.get (PyDict.set (tr_ports td) port pr) port'
                    = PyDict.get (tr_ports td) port')
        ∧ (∀ target', target' ≠ target →
                      PyDict.get (r_results (frame st')) target'
                      = PyDict.get (r_results (frame st)) target')
        ∧ PyDict.keys (r_results (frame st'))
          = PyDict.keys (r_results (frame st))
        ∧ pr_service pr = _guess_service port
        ∧ pr_status pr ≠ st_filtered
        ∧ (pr_status pr = st_error
           ↔ ∃ e, sr1 env target port timeout = Raise e)
        ∧ (∀ e, pr_error pr = Some e
                ↔ sr1 env target port timeout = Raise e))
  ∧ (∀ env scan_id target port timeout st,
        PyDict.get (r_results (frame st)) target = None →
        _scan_port env scan_id target port timeout st
        = (Raise ("'" +:+ target +:+ "'"), st)).
Proof.
  split.
  - intros env scan_id target port timeout st td Hg.
    assert (∀ pr, ∃ st',
      write_port target port pr st = (Ok tt, st')
      ∧ self st' = self st ∧ past st' = past st
      ∧ PyDict.get (r_results (frame st')) target
        = Some (mkTargetResult (tr_status td)
                  (PyDict.set (tr_ports td) port pr))
      ∧ (∀ target', target' ≠ target →
                    PyDict.get (r_results (frame st')) target'
                    = PyDict.get (r_results (frame st)) target')
      ∧ PyDict.keys (r_results (frame st'))
        = PyDict.keys (r_results (frame st))) as Hw.
    { intros pr. eexists. split; [by apply write_port_eq|].
      cbn [self past frame]. unfold with_port.
      cbn [r_results set_r_results]. split_and!; try done.
      - apply dict_get_set_eq.
      - intros t' Hne. by apply dict_get_set_ne.
      - rewrite dict_keys_set. unfold PyDict.mem. by rewrite Hg. }
    unfold _scan_port, try_except, bind at 1, lift.
    destruct (sr1 env target port timeout) as [resp|e] eqn:Hsr.
    + destruct (Hw (port_status_of resp port))
        as (st' & -> & Hs & Hp & Hget & Hoth & Hk).
      exists st', (port_status_of resp port).
      destruct (port_status_of_cases resp port) as [Hst|Hst].
      all: split_and!;
        [ done | done | done | done | apply dict_get_set_eq
        | by intros p' Hne; apply dict_get_set_ne | done | done | done
        | by rewrite Hst
        | rewrite Hst; split; [done | by intros [e [=]]]
        | by intros e; split ].
    + destruct (Hw (mkPortResult st_error (_guess_service port) (Some e)))
        as (st' & -> & Hs & Hp & Hget & Hoth & Hk).
      exists st', (mkPortResult st_error (_guess_service port) (Some e)).
      split_and!;
        [ done | done | done | done | apply dict_get_set_eq
        | by intros p' Hne; apply dict_get_set_ne | done | done | done
        | done
        | split; [eauto | done]
        | intros e'; cbn [pr_error]; split; congruence ].
  - intros env scan_id target port timeout st Hg.
    unfold _scan_port, try_except, bind at 1, lift.
    assert (∀ pr, write_port target port pr st
                  = (Raise ("'" +:+ target +:+ "'"), st)) as Hw.
    { intros pr. unfold write_port, bind, get_frame. by rewrite Hg. }
    destruct (sr1 env target port timeout); by rewrite !Hw.
Qed.

Lemma X9_witness :
  let fr := mkResults "s1" 2 ["10.0.0.5"] [25; 80] 5
              [("10.0.0.5",
                mkTargetResult "scanned"
                  [(80, mkPortResult st_open "HTTP" None)])]
              None None None in
  let st := mkSt empty_scanner [] fr in
  PyDict.get (r_results (frame st)) "10.0.0.5"
  = Some (mkTargetResult "scanned" [(80, mkPortResult st_open "HTTP" None)])
  ∧ PyDict.get (r_results (frame st)) "10.0.0.9" = None
  ∧ (∃ st' pr,
       _scan_port env_all_live "s1" "10.0.0.5" 25 5 st = (Ok tt, st')
       ∧ pr_status pr = st_error ∧ pr_service pr = "SMTP"
       ∧ pr_error pr = Some "Operation not permitted"
       ∧ PyDict.get (r_results (frame st')) "10.0.0.5"
         = Some (mkTargetResult "scanned"
                   [(80, mkPortResult st_open "HTTP" None); (25, pr)]))
  ∧ _scan_port env_all_live "s1" "10.0.0.9" 25 5 st
    = (Raise "'10.0.0.9'", st).
Proof.
  intros fr st.
  destruct X9_scan_port_writes_one_entry as [Hok Hmiss].
  split_and!; [reflexivity | reflexivity | |].
  - destruct (Hok env_all_live "s1" "10.0.0.5" 25 5%Q st _ eq_refl)
      as (st' & pr & Hrun & _ & _ & Hget & _ & _ & _ & _ & Hsvc & _ & Herr
          & Hdet).
    exists st', pr.
    assert (pr_error pr = Some "Operation not permitted") as He
      by (apply Hdet; reflexivity).
    assert (pr_status pr = st_error) as Hs
      by (apply Herr; eexists; reflexivity).
    split_and!; [exact Hrun | exact Hs | | exact He | exact Hget].
    rewrite Hsvc. reflexivity.
  - apply (Hmiss env_all_live "s1" "10.0.0.9" 25 5%Q st). reflexivity.
Defined.
End StoredResults.

Section WritesWitnesses.
Import NetworkScanner Observe Writes Examples.

Lemma X6_witness :
  let w0 := self (run_scan env_paths "old" ["10.0.0.9"] [80] 5
                    empty_scanner).2 in
  let st := (run_scan env_paths "s1" two_targets [22; 80] 5 w0).2 in
  let st' := (run_scan env_paths "./old" ["10.0.0.9"] [22] 5 w0).2 in
  self st ∈ history st
  ∧ "old" ≠ "s1"
  ∧ active_scans (self st) !! "old" = active_scans w0 !! "old"
  ∧ scan_results (self st) !! "old" = scan_results w0 !! "old"
  ∧ files (self st) !! "scan_results/old.json"
    = files w0 !! "scan_results/old.json"
  ∧ (∃ r0, files w0 !! "scan_results/old.json" = Some (dumped r0)
           ∧ r_scan_id r0 = "old")
  ∧ "./old" ≠ "old"
  ∧ files (self st') !! "scan_results/old.json" = Some (dumped (frame st'))
  ∧ r_scan_id (frame st') = "./old".
Proof.
  intros w0 st st'.
  destruct X6_scan_leaves_other_scans_alone as (Hids & Hfiles & Halias).
  assert (self st ∈ history st) as Hin by apply list_elem_of_here.
  assert ("old" ≠ "s1") as Hne by discriminate.
  destruct (Hids env_paths "s1" two_targets [22; 80] 5%Q w0 (self st) "old"
              Hin Hne) as (Ha & Hs & _).
  assert ("scan_results/old.json" ≠ results_file env_paths "s1") as Hpath
    by discriminate.
  pose proof (Hfiles env_paths "s1" two_targets [22; 80] 5%Q w0 (self st)
                "scan_results/old.json" Hin Hpath) as Hf.
  assert (r_scan_id (frame st') = "./old") as Hid
    by (vm_compute; reflexivity).
  assert (∃ st2, _execute_scan_try env_paths "./old" ["10.0.0.9"] [22] 5
                   (scan_start_state env_paths "./old" ["10.0.0.9"] [22] 5
                      w0) = (Ok tt, st2) ∧ st' = st2) as (st2 & Htry & Heq).
  { destruct (_execute_scan_try env_paths "./old" ["10.0.0.9"] [22] 5
                (scan_start_state env_paths "./old" ["10.0.0.9"] [22] 5 w0))
      as [o st2] eqn:Htry.
    assert (o = Ok tt) as ->.
    { apply (f_equal fst) in Htry. cbn [fst] in Htry. rewrite <- Htry.
      vm_compute. reflexivity. }
    exists st2. split; [reflexivity|].
    unfold st', run_scan, _execute_scan, try_except. by rewrite Htry. }
  pose proof (Halias env_paths "./old" ["10.0.0.9"] [22] 5%Q w0 st2 "old"
                Htry eq_refl) as Hover.
  rewrite <- Heq in Hover.
  split_and!; [exact Hin | exact Hne | exact Ha | exact Hs | exact Hf
              | | discriminate | exact Hover | exact Hid].
  eexists. split; [vm_compute; reflexivity | reflexivity].
Defined.

Lemma X7_witness :
  let st := (run_scan env_detect_fails "s1" two_targets [22; 80] 5
               empty_scanner).2 in
  self st ∈ history st
  ∧ ∃ r, active_scans (self st) !! "s1" = Some r
         ∧ sc_targets r = two_targets ∧ sc_ports r = [22; 80]
         ∧ sc_timeout r = 5%Q ∧ sc_start_time r = 1%Q.
Proof.
  intros st.
  assert (self st ∈ history st) as Hin by apply list_elem_of_here.
  split; [exact Hin|].
  destruct (X7_record_keeps_scan_parameters env_detect_fails "s1" two_targets
              [22; 80] 5 empty_scanner (self st) Hin)
    as (r & Hr & H1 & H2 & H3 & H4 & _).
  exists r. split_and!; [exact Hr | exact H1 | exact H2 | exact H3 | exact H4].
Defined.
End WritesWitnesses.


(** ** Facts about [analyze_scan_results] *)

Section AgentFacts.
Import ScannerAgent.

Lemma foldl_flat_map {A B C} (f : A → C → A) (g : B → list C) l : ∀ a,
  foldl (λ acc x, foldl f acc (g x)) a l = foldl f a (flat_map g l).
Proof.
  induction l as [|x l IH]; intros a; [done|].
  cbn [foldl flat_map]. by rewrite foldl_app, IH.
Qed.

Lemma count_step_fold es : ∀ t o c d,
  foldl count_step (t, o, c, d) es
  = ((t + length es)%nat,
     (o + length (filter (λ e : Z * PortResult,
                            pr_status e.2 = st_open) es))%nat,
     (c + length (filter (λ e : Z * PortResult,
                            pr_status e.2 = st_closed) es))%nat,
     count_services_from d
       ((λ e : Z * PortResult, pr_service e.2)
          <$> filter (λ e : Z * PortResult, pr_status e.2 = st_open) es)).
Proof.
  induction es as [|e es IH]; intros t o c d.
  - cbn. by rewrite !Nat.add_0_r.
  - cbn [foldl]. unfold count_step at 2.
    destruct (decide (pr_status e.2 = st_open)) as [Ho|Ho].
    + rewrite bool_decide_eq_true_2 by done. rewrite IH.
      rewrite !(filter_cons_True (λ e, pr_status e.2 = st_open)) by done.
      rewrite filter_cons_False by (cbn; congruence).
      cbn [length fmap list_fmap]. unfold count_services_from.
      cbn [foldl]. by rewrite <- !Nat.add_succ_comm.
    + rewrite bool_decide_eq_false_2 by done.
      rewrite !(filter_cons_False (λ e, pr_status e.2 = st_open)) by done.
      destruct (decide (pr_status e.2 = st_closed)) as [Hc|Hc].
      * rewrite bool_decide_eq_true_2 by done. rewrite IH.
        rewrite filter_cons_True by done.
        cbn [length]. by rewrite <- !Nat.add_succ_comm.
      * rewrite bool_decide_eq_false_2 by done. rewrite IH.
        rewrite filter_cons_False by done.
        cbn [length]. by rewrite <- !Nat.add_succ_comm.
Qed.

Lemma count_ports_eq results :
  count_ports results
  = (length (all_entries results),
     length (filter (λ e : Z * PortResult, pr_status e.2 = st_open)
                    (all_entries results)),
     length (filter (λ e : Z * PortResult, pr_status e.2 = st_closed)
                    (all_entries results)),
     count_services_from [] (open_services results)).
Proof.
  unfold count_ports, all_entries, open_services.
  by rewrite foldl_flat_map, count_step_fold.
Qed.

Lemma count_services_get l : ∀ d s,
  PyDict.get (count_services_from d l) s
  = match PyDict.get d s, occurrences s l with
    | None, O => None
    | o, n => Some (default 0 o + n)%nat
    end.
Proof.
  unfold count_services_from, occurrences.
  induction l as [|x l IH]; intros d s.
  - cbn. destruct (PyDict.get d s); [by rewrite Nat.add_0_r | done].
  - cbn [foldl]. rewrite IH, dict_get_set.
    destruct (decide (x = s)) as [->|Hne].
    + rewrite filter_cons_True by done. cbn [length].
      destruct (PyDict.get d s); cbn [default]; unfold id; f_equal; lia.
    + by rewrite filter_cons_False by done.
Qed.

Lemma count_services_NoDup l : ∀ d,
  NoDup (PyDict.keys d) → NoDup (PyDict.keys (count_services_from d l)).
Proof.
  unfold count_services_from.
  induction l as [|x l IH]; intros d H; [done|].
  cbn [foldl]. by apply IH, dict_NoDup_keys_set.
Qed.

Lemma common_open_ports_elem results s n :
  (s, n) ∈ count_services_from [] (open_services results)
  ↔ n = occurrences s (open_services results) ∧ (0 < n)%nat.
Proof.
  pose proof (count_services_NoDup (open_services results) []
                (NoDup_nil_2 : NoDup (PyDict.keys (@nil (string * nat)))))
    as Hnd.
  pose proof (count_services_get (open_services results) [] s) as Hg.
  cbn [PyDict.get default] in Hg. split.
  - intros Hin%(dict_elem_get_Some _ _ _ Hnd). rewrite Hin in Hg.
    destruct (occurrences s (open_services results)); [done|].
    injection Hg as ->. split; [done | lia].
  - intros [-> Hpos]. apply dict_get_Some_elem. rewrite Hg.
    destruct (occurrences s (open_services results)); [lia | done].
Qed.

Lemma insert_desc_perm x l : insert_desc x l ≡ₚ x :: l.
Proof.
  induction l as [|y l IH]; [done|]. cbn [insert_desc].
  destruct (x.2 <? y.2)%nat; [|reflexivity].
  rewrite IH. apply Permutation_swap.
Qed.

Lemma sorted_desc_perm l : sorted_desc l ≡ₚ l.
Proof.
  unfold sorted_desc. induction l as [|x l IH]; [done|].
  cbn [foldr]. by rewrite insert_desc_perm, IH.
Qed.

Lemma insert_desc_sorted x l :
  StronglySorted (λ a b : string * nat, (b.2 ≤ a.2)%nat) l →
  StronglySorted (λ a b : string * nat, (b.2 ≤ a.2)%nat) (insert_desc x l).
Proof.
  induction 1 as [|y l Hl IH Hy]; cbn [insert_desc].
  - repeat constructor.
  - destruct (x.2 <? y.2)%nat eqn:Hlt.
    + apply Nat.ltb_lt in Hlt. constructor; [done|].
      rewrite insert_desc_perm. constructor; [lia | done].
    + apply Nat.ltb_ge in Hlt. constructor; [by constructor|].
      constructor; [done|].
      eapply Forall_impl; [exact Hy|]. cbn. intros z Hz. lia.
Qed.

Lemma sorted_desc_sorted l :
  StronglySorted (λ a b : string * nat, (b.2 ≤ a.2)%nat) (sorted_desc l).
Proof.
  unfold sorted_desc. induction l as [|x l IH]; cbn [foldr].
  - constructor.
  - by apply insert_desc_sorted.
Qed.

Lemma StronglySorted_take {A} (R : relation A) n l :
  StronglySorted R l → StronglySorted R (take n l).
Proof.
  intros H. revert n. induction H as [|x l Hl IH Hx]; intros [|n]; cbn;
    try constructor; [apply IH|].
  by apply Forall_take.
Qed.

(** The four groups of insights. *)
Lemma insights_of_eq results :
  insights_of results
  = [statistics (length (r_targets results))
       (length (all_entries results))
       (length (filter (λ e : Z * PortResult, pr_status e.2 = st_open)
                       (all_entries results)))
       (length (filter (λ e : Z * PortResult, pr_status e.2 = st_closed)
                       (all_entries results)))
       (Z.of_nat (length (all_entries results))
        - Z.of_nat (length (filter (λ e : Z * PortResult,
                                      pr_status e.2 = st_open)
                                   (all_entries results)))
        - Z.of_nat (length (filter (λ e : Z * PortResult,
                                      pr_status e.2 = st_closed)
                                   (all_entries results))))]
    ++ (match count_services_from [] (open_services results) with
        | [] => []
        | d => [common_services (take 5 (sorted_desc d))]
        end)
    ++ (match _generate_security_recommendations
                (count_services_from [] (open_services results)) with
        | [] => []
        | recommendations => [security_recommendations recommendations]
        end)
    ++ (match r_anomalies results with
        | Some (a :: anomalies) =>
            [anomalies_insight (length (a :: anomalies))
               (take 5 (a :: anomalies))]
        | _ => []
        end).
Proof.
  unfold insights_of. rewrite count_ports_eq.
  by destruct (count_services_from [] (open_services results)).
Qed.

Lemma filter_three_way (es : list (Z * PortResult)) :
  (length (filter (λ e : Z * PortResult, pr_status e.2 = st_open) es)
   + length (filter (λ e : Z * PortResult, pr_status e.2 = st_closed) es)
   + length (filter (λ e : Z * PortResult,
                       pr_status e.2 ≠ st_open
                       ∧ pr_status e.2 ≠ st_closed) es))%nat
  = length es.
Proof.
  induction es as [|e es IH]; [done|].
  destruct (decide (pr_status e.2 = st_open)) as [Ho|Ho].
  - rewrite filter_cons_True by done.
    rewrite !filter_cons_False by (cbn; first [congruence | tauto]).
    cbn [length]. lia.
  - rewrite (filter_cons_False (λ e, pr_status e.2 = st_open)) by done.
    destruct (decide (pr_status e.2 = st_closed)) as [Hc|Hc].
    + rewrite filter_cons_True by done.
      rewrite filter_cons_False by tauto. cbn [length]. lia.
    + rewrite filter_cons_False by done.
      rewrite filter_cons_True by done. cbn [length]. lia.
Qed.
Lemma occurrences_pos s l : (0 < occurrences s l)%nat ↔ s ∈ l.
Proof.
  unfold occurrences. split.
  - destruct (filter (λ x, x = s) l) as [|x l'] eqn:Hf; cbn [length]; [lia|].
    intros _. assert (x ∈ filter (λ x, x = s) l) as Hx
      by (rewrite Hf; apply list_elem_of_here).
    by apply list_elem_of_filter in Hx as [-> Hx].
  - intros Hin. assert (s ∈ filter (λ x, x = s) l) as Hs
      by by apply list_elem_of_filter.
    destruct (filter (λ x, x = s) l); [by apply elem_of_nil in Hs|].
    cbn [length]. lia.
Qed.

Lemma common_open_ports_keys results s :
  s ∈ PyDict.keys (count_services_from [] (open_services results))
  ↔ s ∈ open_services results.
Proof.
  rewrite <- (occurrences_pos s (open_services results)).
  unfold PyDict.keys. rewrite list_elem_of_fmap. split.
  - intros ([s' n] & -> & [-> ?]%common_open_ports_elem). done.
  - intros Hpos. exists (s, occurrences s (open_services results)).
    split; [done|]. by apply common_open_ports_elem.
Qed.

Lemma common_open_ports_nil results :
  count_services_from [] (open_services results) = []
  ↔ open_services results = [].
Proof.
  split.
  - intros Hd. destruct (open_services results) as [|s l] eqn:Hl; [done|].
    rewrite <- Hl in Hd.
    assert (s ∈ PyDict.keys
                  (count_services_from [] (open_services results))) as Hs
      by (apply common_open_ports_keys; rewrite Hl; apply list_elem_of_here).
    rewrite Hd in Hs. by apply elem_of_nil in Hs.
  - by intros ->.
Qed.

(** Which insights the list holds. *)
Lemma insights_elem results i :
  i ∈ insights_of results
  ↔ i = statistics (length (r_targets results))
          (length (all_entries results))
          (length (filter (λ e : Z * PortResult, pr_status e.2 = st_open)
                          (all_entries results)))
          (length (filter (λ e : Z * PortResult, pr_status e.2 = st_closed)
                          (all_entries results)))
          (Z.of_nat (length (all_entries results))
           - Z.of_nat (length (filter (λ e : Z * PortResult,
                                         pr_status e.2 = st_open)
                                      (all_entries results)))
           - Z.of_nat (length (filter (λ e : Z * PortResult,
                                         pr_status e.2 = st_closed)
                                      (all_entries results))))
    ∨ (count_services_from [] (open_services results) ≠ []
       ∧ i = common_services
               (take 5 (sorted_desc
                          (count_services_from [] (open_services results)))))
    ∨ (_generate_security_recommendations
         (count_services_from [] (open_services results)) ≠ []
       ∧ i = security_recommendations
               (_generate_security_recommendations
                  (count_services_from [] (open_services results))))
    ∨ (∃ l, r_anomalies results = Some l ∧ l ≠ []
            ∧ i = anomalies_insight (length l) (take 5 l)).
Proof.
  rewrite insights_of_eq, !elem_of_app, list_elem_of_singleton.
  generalize (_generate_security_recommendations
                (count_services_from [] (open_services results))).
  intros g.
  destruct (count_services_from [] (open_services results)) as [|x d];
    destruct g as [|r g]; destruct (r_anomalies results) as [[|a l]|];
    rewrite ?list_elem_of_singleton, ?elem_of_nil;
    (split;
     [ intros H; repeat destruct H as [H|H]; try done; subst;
       repeat first [ by left | by eexists; split_and! | right ]
     | intros [?|[[? ?]|[[? ?]|(l' & Hl' & ? & ?)]]];
       try injection Hl' as <-; subst; try done; auto ]).
Qed.



(** X10. The insights always start with exactly one [statistics]
    entry.  It counts the targets requested, every port entry of the
    results, the open ones and the closed ones; [error_ports] is the
    number of entries that are neither open nor closed, so it is never
    negative and the three counts add up to the total. *)
Theorem X10_statistics_partition_the_port_entries :
  ∀ results, ∃ total open closed err rest,
    (analyze_scan_results results).2
    = statistics (length (r_targets results)) total open closed err :: rest
    ∧ (∀ t n o c e, statistics t n o c e ∉ rest)
    ∧ total = length (all_entries results)
    ∧ open = length (filter (λ e : Z * PortResult, pr_status e.2 = st_open)
                            (all_entries results))
    ∧ closed = length (filter (λ e : Z * PortResult,
                                 pr_status e.2 = st_closed)
                              (all_entries results))
    ∧ err = Z.of_nat (length (filter (λ e : Z * PortResult,
                                        pr_status e.2 ≠ st_open
                                        ∧ pr_status e.2 ≠ st_closed)
                                     (all_entries results)))
    ∧ (Z.of_nat total = Z.of_nat open + Z.of_nat closed + err)%Z.
Proof.
  intros results. unfold analyze_scan_results. cbn [snd].
  rewrite insights_of_eq. cbn [app]. do 5 eexists.
  split; [reflexivity|].
  pose proof (filter_three_way (all_entries results)) as H3.
  split_and!; try reflexivity; try lia.
  intros t n o c e.
  generalize (_generate_security_recommendations
                (count_services_from [] (open_services results))).
  intros g.
  destruct (count_services_from [] (open_services results)) as [|x d];
    destruct g as [|r g]; destruct (r_anomalies results) as [[|a l]|];
    cbn [app]; rewrite ?elem_of_cons, ?elem_of_nil; intuition discriminate.
Qed.

(** X11. A [common_services] insight is present exactly when some port
    is open.  It lists at most five services, each once, by decreasing
    count; the count of a service is the number of open ports that carry
    it; and a service of an open port that is not listed is no more
    frequent than any listed one, which happens only when five are
    listed. *)
Theorem X11_common_services_are_the_most_frequent :
  ∀ results,
    ((∃ l, common_services l ∈ (analyze_scan_results results).2)
     ↔ ∃ e, e ∈ all_entries results ∧ pr_status e.2 = st_open)
    ∧ ∀ l, common_services l ∈ (analyze_scan_results results).2 →
        (length l ≤ 5)%nat
        ∧ NoDup l.*1
        ∧ StronglySorted (λ a b : string * nat, (b.2 ≤ a.2)%nat) l
        ∧ (∀ s n, (s, n) ∈ l →
                  n = occurrences s (open_services results) ∧ (0 < n)%nat)
        ∧ (∀ s, s ∈ open_services results →
                s ∈ l.*1
                ∨ (length l = 5%nat
                   ∧ ∀ s' n', (s', n') ∈ l →
                       (occurrences s (open_services results) ≤ n')%nat)).
Proof.
  intros results. unfold analyze_scan_results. cbn [snd].
  set (d := count_services_from [] (open_services results)).
  assert (∀ l, common_services l ∈ insights_of results
               ↔ d ≠ [] ∧ l = take 5 (sorted_desc d)) as Hcs.
  { intros l. rewrite insights_elem. fold d. split.
    - intros [[=]|[[? [= ->]]|[[_ [=]]|(? & _ & _ & [=])]]]. done.
    - intros [? ->]. auto. }
  split.
  - split.
    + intros [l [Hd _]%Hcs].
      destruct (open_services results) as [|s ss] eqn:Hs.
      { destruct Hd. unfold d. by rewrite ?Hs. }
      assert (s ∈ open_services results) as Hin
        by (rewrite Hs; apply list_elem_of_here).
      unfold open_services in Hin.
      apply list_elem_of_fmap in Hin as (e & _ & [Ho He]%list_elem_of_filter).
      by exists e.
    + intros (e & He & Ho). exists (take 5 (sorted_desc d)).
      apply Hcs. split; [|done]. unfold d.
      rewrite common_open_ports_nil. unfold open_services.
      intros Hnil. assert (e ∈ filter (λ e : Z * PortResult,
                                         pr_status e.2 = st_open)
                                      (all_entries results)) as Hin
        by by apply list_elem_of_filter.
      apply (list_elem_of_fmap_2 (λ entry : Z * PortResult,
                                    pr_service entry.2)) in Hin.
      rewrite Hnil in Hin. by apply elem_of_nil in Hin.
  - intros l [Hd ->]%Hcs.
    pose proof (sorted_desc_perm d) as Hperm.
    pose proof (sorted_desc_sorted d) as Hsorted.
    assert (NoDup (sorted_desc d).*1) as Hnd.
    { rewrite Hperm. apply (count_services_NoDup _ []). constructor. }
    split_and!.
    + rewrite length_take. lia.
    + eapply sublist_NoDup;
        first [exact Hnd | apply fmap_sublist, sublist_take].

    + by apply StronglySorted_take.
    + intros s n Hin. apply common_open_ports_elem. fold d.
      rewrite <- Hperm. by apply (subseteq_take 5).
    + intros s Hs.
      assert ((s, occurrences s (open_services results)) ∈ sorted_desc d)
        as Hin.
      { rewrite Hperm. apply common_open_ports_elem.
        split; [done | by apply occurrences_pos]. }
      rewrite <- (take_drop 5 (sorted_desc d)) in Hin, Hsorted.
      apply elem_of_app in Hin as [Hin|Hin].
      * left. by apply (list_elem_of_fmap_2 fst) in Hin.
      * right. split.
        -- rewrite length_take. apply Nat.min_l.
           destruct (decide (5 ≤ length (sorted_desc d))%nat); [done|].
           rewrite drop_ge in Hin by lia. by apply elem_of_nil in Hin.
        -- intros s' n' Hin'.
           apply (StronglySorted_app_1_elem_of _ _ _ _ _ Hsorted Hin' Hin).
Qed.


(** X12. An [anomalies] insight is present exactly when the results
    carry a non-empty list of anomalies; a missing key and an empty list
    give none.  Its count is the number of all anomalies while its
    details are only the first five.  The insights number between one
    and four, and the results themselves are returned as they were. *)
Theorem X12_anomalies_insight_shows_the_first_five :
  ∀ results,
    (∀ n details,
        anomalies_insight n details ∈ (analyze_scan_results results).2
        ↔ ∃ l, r_anomalies results = Some l ∧ l ≠ []
               ∧ n = length l ∧ details = take 5 l)
    ∧ (1 ≤ length (analyze_scan_results results).2 ≤ 4)%nat
    ∧ (analyze_scan_results results).1 = results.
Proof.
  intros results. unfold analyze_scan_results. cbn [fst snd]. split_and!.
  - intros n details. rewrite insights_elem. split.
    + intros [[=]|[[_ [=]]|[[_ [=]]|(l & Hl & Hne & [= -> ->])]]]. eauto.
    + intros (l & Hl & Hne & -> & ->). eauto 10.
  - rewrite insights_of_eq. cbn [app length].
    destruct (count_services_from [] (open_services results));
      destruct (_generate_security_recommendations _);
      destruct (r_anomalies results) as [[|??]|]; cbn [app length]; lia.
  - rewrite insights_of_eq.
    generalize (_generate_security_recommendations
                  (count_services_from [] (open_services results))).
    intros g.
    destruct (count_services_from [] (open_services results));
      destruct g; destruct (r_anomalies results) as [[|??]|];
      cbn [app length]; lia.
  - done.
Qed.


Lemma X11_witness :
  let a := mkTargetResult "scanned"
             [(21, mkPortResult st_closed "FTP" None);
              (22, mkPortResult st_open "SSH" None);
              (80, mkPortResult st_open "HTTP" None)] in
  let b := mkTargetResult "scanned"
             [(21, mkPortResult st_error "FTP" (Some "timeout"));
              (22, mkPortResult st_open "SSH" None);
              (80, mkPortResult st_closed "HTTP" None)] in
  let sr := mkResults "s1" 0 ["a"; "b"] [21; 22; 80] 5
              [("a", a); ("b", b)] None None None in
  let l := [("SSH", 2%nat); ("HTTP", 1%nat)] in
  common_services l ∈ (ScannerAgent.analyze_scan_results sr).2
  ∧ (length l ≤ 5)%nat
  ∧ NoDup l.*1
  ∧ ScannerAgent.occurrences "SSH" (ScannerAgent.open_services sr) = 2%nat.
Proof.
  intros a b sr l.
  assert (common_services l ∈ (analyze_scan_results sr).2) as Hin.
  { vm_compute. apply list_elem_of_further, list_elem_of_here. }
  split; [exact Hin|].
  destruct (proj2 (X11_common_services_are_the_most_frequent sr) l Hin)
    as (Hlen & Hnd & _ & Hocc & _).
  split_and!; [exact Hlen | exact Hnd |].
  symmetry. apply (Hocc "SSH" 2%nat). apply list_elem_of_here.
Defined.

End AgentFacts.

(** ** Facts about target strings *)

Section TargetFacts.
Import Stdlib.Strings.Ascii.
Import PyStr ScannerUtils.

Lemma append_cons a s t : String a s +:+ t = String a (s +:+ t).
Proof. done. Qed.

Lemma append_nil t : EmptyString +:+ t = t.
Proof. done. Qed.

Lemma has_app c s t : has c (s +:+ t) = has c s || has c t.
Proof.
  induction s as [|a s IH]; [done|].
  rewrite append_cons. cbn [has]. by rewrite IH, orb_assoc.
Qed.

Lemma has_cons c a s : has c (String a s) = bool_decide (a = c) || has c s.
Proof. done. Qed.

Lemma rsplit1_None sep s : has sep s = false → rsplit1 sep s = None.
Proof.
  induction s as [|a s IH]; [done|]. cbn [has rsplit1].
  intros [Ha Hs]%orb_false_iff. by rewrite IH, Ha.
Qed.

Lemma rsplit1_app sep before after :
  has sep after = false →
  rsplit1 sep (before +:+ String sep after) = Some (before, after).
Proof.
  intros Hafter. induction before as [|a before IH].
  - rewrite append_nil. cbn [rsplit1]. rewrite rsplit1_None by done.
    by rewrite bool_decide_eq_true_2.
  - rewrite append_cons. cbn [rsplit1]. by rewrite IH.
Qed.

Lemma split_None sep s : has sep s = false → split sep s = [s].
Proof.
  induction s as [|a s IH]; [done|]. cbn [has split].
  intros [Ha Hs]%orb_false_iff. by rewrite Ha, IH.
Qed.

Lemma split_app sep s t :
  has sep s = false → split sep (s +:+ String sep t) = s :: split sep t.
Proof.
  induction s as [|a s IH]; rewrite ?append_nil, ?append_cons; cbn [has split].
  - intros _. by rewrite bool_decide_eq_true_2.
  - intros [Ha Hs]%orb_false_iff. by rewrite Ha, IH.
Qed.

Lemma split_nonempty sep s : ∃ part parts, split sep s = part :: parts.
Proof.
  destruct s as [|a s]; cbn [split]; [eauto|].
  case_bool_decide; [eauto|]. destruct (split sep s); eauto.
Qed.

Lemma append_inj_r s t1 t2 : s +:+ t1 = s +:+ t2 → t1 = t2.
Proof.
  induction s as [|a s IH]; [done|]. rewrite !append_cons.
  intros [= H]. by apply IH.
Qed.

Lemma addresses_NoDup base a b : NoDup (addresses base a b).
Proof.
  unfold addresses. apply NoDup_fmap_2_strong; [|apply NoDup_seqZ].
  intros i j _ _ H%append_inj_r. rewrite !append_cons, !append_nil in H.
  injection H as H. by apply (inj pretty).
Qed.

Lemma addresses_elem base a b t :
  t ∈ addresses base a b
  ↔ ∃ i, (a ≤ i ≤ b)%Z ∧ t = base +:+ "." +:+ pretty i.
Proof.
  unfold addresses. rewrite list_elem_of_fmap. split.
  - intros (i & -> & Hi%elem_of_seqZ). exists i. split; [lia|done].
  - intros (i & Hi & ->). exists i. split; [done|].
    apply elem_of_seqZ. lia.
Qed.

Lemma fromkeys_from (l : list string) : ∀ d : list (string * unit),
  ∃ r, PyDict.keys (foldl (λ d k, PyDict.set d k tt) d l)
       = PyDict.keys d ++ r
       ∧ r `sublist_of` l
       ∧ (∀ k, k ∈ r ↔ k ∈ l ∧ k ∉ PyDict.keys d)
       ∧ (NoDup (PyDict.keys d) → NoDup (PyDict.keys d ++ r)).
Proof.
  induction l as [|k l IH]; intros d.
  - exists []. rewrite app_nil_r. split_and!; [done|done| |done].
    intros k. rewrite !elem_of_nil. tauto.
  - cbn [foldl]. destruct (IH (PyDict.set d k tt)) as (r & Hk & Hsub & Hr & Hnd).
    destruct (decide (k ∈ PyDict.keys d)) as [Hin|Hnin].
    + assert (PyDict.keys (PyDict.set d k tt) = PyDict.keys d) as Heq.
      { apply dict_get_is_Some in Hin as [v Hv].
        clear -Hv. induction d as [|[k' v'] d IH]; [done|].
        cbn [PyDict.get PyDict.set] in *. unfold PyDict.keys in *.
        destruct (decide (k = k')); [done|].
        rewrite !fmap_cons. f_equal. by apply IH. }
      rewrite Heq in Hk, Hr, Hnd. exists r.
      split_and!; [done | by apply sublist_cons | | done].
      intros k'. rewrite Hr, elem_of_cons. split; [tauto|].
      intros [[->|?] ?]; tauto.
    + assert (PyDict.keys (PyDict.set d k tt) = PyDict.keys d ++ [k]) as Heq.
      { rewrite dict_set_fresh by done. unfold PyDict.keys.
        by rewrite fmap_app. }
      rewrite Heq in Hk, Hr, Hnd.
      exists (k :: r). rewrite <- app_assoc in Hk, Hnd. cbn [app] in Hk, Hnd.
      split_and!; [done | by apply sublist_skip | |].
      * intros k'. rewrite (elem_of_cons r), Hr.
        destruct (decide (k' = k)) as [->|Hne].
        -- split; [intros _; split; [apply list_elem_of_here | done] | auto].
        -- rewrite elem_of_app, list_elem_of_singleton, elem_of_cons. tauto.
      * intros H. apply Hnd. apply NoDup_app. split_and!; [done| |].
        -- intros k' ? ->%list_elem_of_singleton. done.
        -- apply NoDup_singleton.
Qed.

Lemma fromkeys_keys l :
  NoDup (PyDict.keys (fromkeys l))
  ∧ PyDict.keys (fromkeys l) `sublist_of` l
  ∧ (∀ k, k ∈ PyDict.keys (fromkeys l) ↔ k ∈ l).
Proof.
  unfold fromkeys. destruct (fromkeys_from l []) as (r & -> & Hsub & Hr & Hnd).
  cbn [PyDict.keys fmap list_fmap app] in *. split_and!.
  - apply Hnd. constructor.
  - done.
  - intros k. rewrite Hr, elem_of_nil. tauto.
Qed.
Lemma fromkeys_NoDup (l : list string) : ∀ d : list (string * unit),
  NoDup (PyDict.keys d ++ l) →
  PyDict.keys (foldl (λ d k, PyDict.set d k tt) d l) = PyDict.keys d ++ l.
Proof.
  induction l as [|k l IH]; intros d Hnd; [by rewrite app_nil_r|].
  cbn [foldl].
  assert (k ∉ PyDict.keys d) as Hfresh.
  { apply NoDup_app in Hnd as (_ & Hd & _). intros Hk.
    apply (Hd k Hk), list_elem_of_here. }
  assert (PyDict.keys (PyDict.set d k tt) = PyDict.keys d ++ [k]) as Heq.
  { rewrite dict_set_fresh by done. unfold PyDict.keys.
    by rewrite fmap_app. }
  rewrite IH; rewrite Heq, <- app_assoc; done.
Qed.

Lemma dashed_range_parts base start end_ :
  has "." start = false → has "-" start = false →
  has "." end_ = false → has "-" end_ = false →
  has "-" (base +:+ "." +:+ start +:+ "-" +:+ end_) = true
  ∧ rsplit1 "." (base +:+ "." +:+ start +:+ "-" +:+ end_)
    = Some (base, start +:+ "-" +:+ end_)
  ∧ has "-" (start +:+ "-" +:+ end_) = true
  ∧ split "-" (start +:+ "-" +:+ end_) = [start; end_].
Proof.
  intros Hds Hms Hde Hme.
  change (start +:+ "-" +:+ end_) with (start +:+ String "-" end_).
  change (base +:+ "." +:+ start +:+ String "-" end_)
    with (base +:+ String "." (start +:+ String "-" end_)).
  assert (has "-" (start +:+ String "-" end_) = true) as Hrange.
  { rewrite has_app, has_cons, bool_decide_eq_true_2 by done.
    by rewrite orb_true_r. }
  assert (has "." (start +:+ String "-" end_) = false) as Hdot.
  { rewrite has_app, has_cons, Hds, Hde.
    by rewrite bool_decide_eq_false_2. }
  split_and!; [|by apply rsplit1_app|done|].
  - by rewrite has_app, has_cons, Hrange, !orb_true_r.
  - rewrite split_app by done. by rewrite split_None.
Qed.

Lemma expand_dashed int base start end_ a b :
  has "." start = false → has "-" start = false →
  has "." end_ = false → has "-" end_ = false →
  int start = Some a → int end_ = Some b →
  expand_ip_range int (base +:+ "." +:+ start +:+ "-" +:+ end_)
  = if bool_decide ((0 ≤ a ≤ 255)%Z ∧ (0 ≤ b ≤ 255)%Z)
    then addresses base a b
    else [base +:+ "." +:+ start +:+ "-" +:+ end_].
Proof.
  intros Hds Hms Hde Hme Ha Hb. unfold expand_ip_range.
  destruct (dashed_range_parts base start end_ Hds Hms Hde Hme)
    as (-> & -> & -> & ->).
  by rewrite Ha, Hb.
Qed.

Lemma agent_expand_dashed int base start end_ a b :
  has "." start = false → has "-" start = false →
  has "." end_ = false → has "-" end_ = false →
  int start = Some a → int end_ = Some b →
  ScannerAgent._expand_ip_range int
    (base +:+ "." +:+ start +:+ "-" +:+ end_)
  = Ok (join "," (addresses base a b)).
Proof.
  intros Hds Hms Hde Hme Ha Hb. unfold ScannerAgent._expand_ip_range.
  destruct (dashed_range_parts base start end_ Hds Hms Hde Hme)
    as (-> & -> & -> & ->).
  by rewrite Ha, Hb.
Qed.

(** X15. [expand_ip_range] on a base, a dot and a first and a last
    number joined by a dash.  With both numbers within 0..255 the result
    is the addresses from the first to the last number, in order, each
    once, and so many as the range holds: none at all when the last
    number is below the first.  With a number outside 0..255 the input
    comes back as the only element. *)
Theorem X15_expand_ip_range_of_a_dashed_range :
  ∀ int base start end_ a b,
    has "." start = false → has "-" start = false →
    has "." end_ = false → has "-" end_ = false →
    int start = Some a → int end_ = Some b →
    let ip_range := base +:+ "." +:+ start +:+ "-" +:+ end_ in
    ((0 ≤ a ≤ 255)%Z ∧ (0 ≤ b ≤ 255)%Z →
       length (expand_ip_range int ip_range) = Z.to_nat (b + 1 - a)
       ∧ NoDup (expand_ip_range int ip_range)
       ∧ (∀ i : nat, (a + Z.of_nat i ≤ b)%Z →
                     expand_ip_range int ip_range !! i
                     = Some (base +:+ "." +:+ pretty (a + Z.of_nat i)%Z))
       ∧ (∀ t, t ∈ expand_ip_range int ip_range
               ↔ ∃ i, (a ≤ i ≤ b)%Z ∧ t = base +:+ "." +:+ pretty i)
       ∧ ((b < a)%Z → expand_ip_range int ip_range = []))
    ∧ (¬ ((0 ≤ a ≤ 255)%Z ∧ (0 ≤ b ≤ 255)%Z) →
       expand_ip_range int ip_range = [ip_range]).
Proof.
  intros int base start end_ a b Hds Hms Hde Hme Ha Hb ip_range.
  unfold ip_range. rewrite (expand_dashed int base start end_ a b) by done.
  split.
  - intros Hbounds. rewrite bool_decide_eq_true_2 by done. split_and!.
    + unfold addresses. by rewrite length_fmap, length_seqZ.
    + apply addresses_NoDup.
    + intros i Hi. unfold addresses. rewrite list_lookup_fmap.
      rewrite lookup_seqZ_lt by lia. done.
    + apply addresses_elem.
    + intros Hlt. unfold addresses. by rewrite seqZ_nil by lia.
  - intros Hout. by rewrite bool_decide_eq_false_2.
Qed.

(** X16. The agent's [_expand_ip_range] compared with
    [expand_ip_range].  On a dashed range it joins the same addresses
    with commas but checks no bounds, so a range up to 300 is expanded
    where the utility returns its input; a reversed range gives the
    empty string.  A dash without any dot, and a second dash in the
    last part, raise where the utility returns its input.  A string
    without a dash is returned as it is. *)
Theorem X16_agent_expansion_has_no_bounds_and_raises :
  ∀ int,
    (∀ base start end_ a b,
        has "." start = false → has "-" start = false →
        has "." end_ = false → has "-" end_ = false →
        int start = Some a → int end_ = Some b →
        ScannerAgent._expand_ip_range int
          (base +:+ "." +:+ start +:+ "-" +:+ end_)
        = Ok (join "," (addresses base a b))
        ∧ ((b < a)%Z →
           ScannerAgent._expand_ip_range int
             (base +:+ "." +:+ start +:+ "-" +:+ end_) = Ok EmptyString)
        ∧ ((0 ≤ a ≤ 255)%Z ∧ (0 ≤ b ≤ 255)%Z →
           ScannerAgent._expand_ip_range int
             (base +:+ "." +:+ start +:+ "-" +:+ end_)
           = Ok (join "," (expand_ip_range int
                             (base +:+ "." +:+ start +:+ "-" +:+ end_)))))
    ∧ (∀ s, has "-" s = true → has "." s = false →
            (∃ e, ScannerAgent._expand_ip_range int s = Raise e)
            ∧ expand_ip_range int s = [s])
    ∧ (∀ base p q r,
          has "." p = false → has "-" p = false →
          has "." q = false → has "-" q = false → has "." r = false →
          let s := base +:+ "." +:+ p +:+ "-" +:+ q +:+ "-" +:+ r in
          (∃ e, ScannerAgent._expand_ip_range int s = Raise e)
          ∧ expand_ip_range int s = [s])
    ∧ (∀ s, has "-" s = false →
            ScannerAgent._expand_ip_range int s = Ok s
            ∧ expand_ip_range int s = [s]).
Proof.
  intros int. split_and!.
  - intros base start end_ a b Hds Hms Hde Hme Ha Hb.
    pose proof (agent_expand_dashed int base start end_ a b
                  Hds Hms Hde Hme Ha Hb) as Hagent.
    split_and!; [done | |].
    + intros Hlt. rewrite Hagent. unfold addresses.
      by rewrite seqZ_nil by lia.
    + intros Hbounds.
      rewrite Hagent, (expand_dashed int base start end_ a b) by done.
      by rewrite bool_decide_eq_true_2.
  - intros s Hdash Hdot.
    unfold ScannerAgent._expand_ip_range, expand_ip_range.
    rewrite Hdash, rsplit1_None by done. eauto.
  - intros base p q r Hdp Hmp Hdq Hmq Hdr s.
    unfold s.
    change (base +:+ "." +:+ p +:+ "-" +:+ q +:+ "-" +:+ r)
      with (base +:+ String "." (p +:+ String "-" (q +:+ String "-" r))).
    assert (has "." (p +:+ String "-" (q +:+ String "-" r)) = false)
      as Hdot.
    { rewrite !has_app, !has_cons, !has_app, !has_cons, Hdp, Hdq, Hdr.
      by rewrite !bool_decide_eq_false_2. }
    assert (has "-" (p +:+ String "-" (q +:+ String "-" r)) = true)
      as Hrange.
    { rewrite has_app, has_cons, bool_decide_eq_true_2 by done.
      by rewrite orb_true_r. }
    destruct (split_nonempty "-" r) as (x & l & Hr).
    assert (split "-" (p +:+ String "-" (q +:+ String "-" r))
            = p :: q :: x :: l) as Hsplit.
    { rewrite split_app by done. rewrite split_app by done.
      by rewrite Hr. }
    unfold ScannerAgent._expand_ip_range, expand_ip_range.
    rewrite has_app, has_cons, Hrange, !orb_true_r.
    rewrite rsplit1_app by done. rewrite Hrange, Hsplit. eauto.
  - intros s Hdash.
    unfold ScannerAgent._expand_ip_range, expand_ip_range.
    by rewrite Hdash.
Qed.

(** X17. [parse_target_input] returns no target twice; a target is
    returned exactly when one of the comma-separated parts, stripped,
    yields it; the targets keep the order in which the parts yield them;
    and the empty input gives no target. *)
Theorem X17_parse_target_input_has_no_duplicates :
  ∀ int strip ip_network_hosts target_input,
    let targets :=
      parse_target_input int strip ip_network_hosts target_input in
    let yielded :=
      flat_map (parse_target int ip_network_hosts)
               (strip <$> split "," target_input) in
    NoDup targets
    ∧ (∀ t, t ∈ targets ↔ target_input ≠ EmptyString ∧ t ∈ yielded)
    ∧ targets `sublist_of` yielded
    ∧ (target_input = EmptyString → targets = [])
    ∧ (NoDup yielded → target_input ≠ EmptyString → targets = yielded).
Proof.
  intros int strip hosts target_input targets yielded.
  destruct (fromkeys_keys yielded) as (Hnd & Hsub & Hin).
  unfold targets, parse_target_input.
  destruct target_input as [|c rest].
  - split_and!; [constructor | | apply sublist_nil_l | done | done].
    intros t. rewrite elem_of_nil. tauto.
  - fold yielded. split_and!; [done | | done | done |].
    + intros t. rewrite Hin. split; [by intros ?|by intros [_ ?]].
    + intros Hy _. unfold fromkeys. by rewrite fromkeys_NoDup.
Qed.
Lemma has_pretty_N_go c x : ∀ s,
  (∀ n, pretty_N_char n ≠ c) → has c (pretty_N_go x s) = has c s.
Proof.
  induction (N.lt_wf_0 x) as [x _ IH]; intros s Hc.
  destruct (decide (x = 0)%N) as [->|Hx]; [by rewrite pretty_N_go_0|].
  rewrite pretty_N_go_step by lia.
  rewrite IH; [|apply N.div_lt; lia|done].
  rewrite has_cons. by rewrite bool_decide_eq_false_2.
Qed.

Lemma has_pretty_nonneg c (i : Z) :
  (0 ≤ i)%Z → (∀ n, pretty_N_char n ≠ c) → has c (pretty i) = false.
Proof.
  intros Hi Hc. destruct i as [|x|x]; [| |lia].
  - cbn. pose proof (Hc 0%N) as H0. cbn in H0.
    by rewrite bool_decide_eq_false_2.
  - unfold pretty, pretty_Z, pretty, pretty_positive, pretty, pretty_N.
    rewrite decide_False by done. by rewrite has_pretty_N_go.
Qed.

Lemma not_a_digit c :
  c ∈ [","%char; "."%char; "/"%char; "-"%char] → ∀ n, pretty_N_char n ≠ c.
Proof.
  intros Hc n. unfold pretty_N_char.
  repeat (apply elem_of_cons in Hc as [->|Hc];
          [by repeat case_match|]).
  by apply elem_of_nil in Hc.
Qed.

Lemma split_join sep l :
  Forall (λ x, has sep x = false) l → l ≠ [] →
  split sep (join (String sep EmptyString) l) = l.
Proof.
  induction 1 as [|x l Hx Hl IH]; [done|]. intros _.
  destruct l as [|y l].
  - cbn [join]. by apply split_None.
  - change (join (String sep EmptyString) (x :: y :: l))
      with (x +:+ String sep (join (String sep EmptyString) (y :: l))).
    rewrite split_app by done. by rewrite IH.
Qed.

Lemma flat_map_singleton {A} (f : A → list A) (l : list A) :
  (∀ x, x ∈ l → f x = [x]) → flat_map f l = l.
Proof.
  induction l as [|x l IH]; intros H; [done|]. cbn [flat_map].
  rewrite H by apply list_elem_of_here. cbn [app]. f_equal.
  apply IH. intros y Hy. by apply H, list_elem_of_further.
Qed.

Lemma fmap_fixed {A} (f : A → A) (l : list A) :
  (∀ x, x ∈ l → f x = x) → f <$> l = l.
Proof.
  induction l as [|x l IH]; intros H; [done|]. rewrite fmap_cons.
  rewrite H by apply list_elem_of_here. f_equal.
  apply IH. intros y Hy. by apply H, list_elem_of_further.
Qed.

Lemma join_empty sep x l : join sep (x :: l) = EmptyString → x = EmptyString.
Proof.
  destruct l as [|y l]; cbn [join]; [done|].
  by destruct x.
Qed.

(** An address of a range is parsed as itself. *)
Lemma parse_address int hosts base (i : Z) :
  has "/" base = false → (0 ≤ i)%Z →
  parse_target int hosts (base +:+ "." +:+ pretty i)
  = [base +:+ "." +:+ pretty i].
Proof.
  intros Hslash Hi. unfold parse_target, expand_ip_range.
  change (base +:+ "." +:+ pretty i) with (base +:+ String "." (pretty i)).
  assert (∀ c, c ∈ [","%char; "."%char; "/"%char; "-"%char] →
               has c (pretty i) = false) as Hp.
  { intros c Hc. by apply has_pretty_nonneg, not_a_digit. }
  rewrite rsplit1_app by (apply Hp; set_unfold; tauto).
  rewrite (Hp "-"%char) by (set_unfold; tauto).
  assert (has "/" (base +:+ String "." (pretty i)) = false) as ->.
  { rewrite has_app, has_cons, Hslash, Hp by (set_unfold; tauto).
    by rewrite bool_decide_eq_false_2. }
  by destruct (has "-" (base +:+ String "." (pretty i))),
              (String.prefix "http" (base +:+ String "." (pretty i))).
Qed.

(** X18. A dashed range on its way from the request to the scanner,
    for a request without comma or slash that does not start with
    [http], a first number that is not negative and a [strip] that
    leaves the addresses alone.  [optimize_scan_parameters] replaces the
    range by its addresses joined with commas, leaves the custom ports
    alone and turns a comprehensive scan into a standard one exactly
    when the range holds more than ten addresses; [parse_target_input]
    then returns these addresses, each once and in order.  The bounds
    0..255 of [expand_ip_range] play no part on this way. *)
Theorem X18_dashed_range_from_request_to_targets :
  ∀ int strip ip_network_hosts base start end_ a b scan_type custom_ports,
    has "." start = false → has "-" start = false →
    has "." end_ = false → has "-" end_ = false →
    int start = Some a → int end_ = Some b → (0 ≤ a)%Z →
    has "," (base +:+ "." +:+ start +:+ "-" +:+ end_) = false →
    String.prefix "http" (base +:+ "." +:+ start +:+ "-" +:+ end_) = false →
    has "/" base = false →
    (∀ i : Z, (a ≤ i ≤ b)%Z →
              strip (base +:+ "." +:+ pretty i) = base +:+ "." +:+ pretty i) →
    ∃ p,
      ScannerAgent.optimize_scan_parameters int strip
        (base +:+ "." +:+ start +:+ "-" +:+ end_) scan_type custom_ports
      = Ok p
      ∧ ScannerAgent.sp_targets p = join "," (addresses base a b)
      ∧ ScannerAgent.sp_custom_ports p = custom_ports
      ∧ ScannerAgent.sp_scan_type p
        = (if bool_decide (scan_type = "comprehensive" ∧ (10 < b + 1 - a)%Z)
           then "standard" else scan_type)
      ∧ parse_target_input int strip ip_network_hosts
          (ScannerAgent.sp_targets p)
        = addresses base a b.
Proof.
  intros int strip hosts base start end_ a b scan_type custom_ports
    Hds Hms Hde Hme Ha Hb Hpos Hcomma Hhttp Hslash Hstrip.
  assert (has "," base = false) as Hbase.
  { rewrite has_app in Hcomma. by apply orb_false_iff in Hcomma as [? _]. }
  assert (Forall (λ x, has "," x = false) (addresses base a b)) as Hfree.
  { apply Forall_forall. intros t (i & Hi & ->)%addresses_elem.
    change (base +:+ "." +:+ pretty i) with (base +:+ String "." (pretty i)).
    rewrite has_app, has_cons, Hbase.
    rewrite has_pretty_nonneg; [|lia|apply not_a_digit; set_unfold; tauto].
    by rewrite bool_decide_eq_false_2. }
  assert (length (split "," (join "," (addresses base a b)))
          = Nat.max 1 (Z.to_nat (b + 1 - a))) as Hcount.
  { destruct (decide (addresses base a b = [])) as [Hnil|Hne].
    - assert (length (addresses base a b) = 0%nat) as Hlen by by rewrite Hnil.
      unfold addresses in Hlen. rewrite length_fmap, length_seqZ in Hlen.
      rewrite Hnil, Hlen. done.
    - rewrite split_join by done. unfold addresses in *.
      rewrite length_fmap, length_seqZ.
      destruct (Z.to_nat (b + 1 - a)) eqn:Hn; [|lia].
      destruct Hne. by rewrite seqZ_nil by lia. }
  assert (parse_target_input int strip hosts (join "," (addresses base a b))
          = addresses base a b) as Hparse.
  { unfold parse_target_input.
    destruct (decide (addresses base a b = [])) as [Hnil|Hne].
    { by rewrite Hnil. }
    destruct (join "," (addresses base a b)) as [|c rest] eqn:Hjoin.
    { destruct (addresses base a b) as [|x l] eqn:Hl; [done|].
      apply join_empty in Hjoin as ->.
      assert (EmptyString ∈ addresses base a b) as (i & _ & Hi)%addresses_elem
        by (rewrite Hl; apply list_elem_of_here).
      by destruct base. }
    rewrite <- Hjoin, split_join by done.
    rewrite fmap_fixed.
    2:{ intros t (i & Hi & ->)%addresses_elem. by apply Hstrip. }
    rewrite flat_map_singleton.
    2:{ intros t (i & Hi & ->)%addresses_elem. apply parse_address; [done|lia]. }
    unfold fromkeys. rewrite fromkeys_NoDup; [done|].
    apply addresses_NoDup. }
  unfold ScannerAgent.optimize_scan_parameters.
  rewrite Hcomma.
  destruct (dashed_range_parts base start end_ Hds Hms Hde Hme)
    as (Hdash & _).
  rewrite Hdash, Hhttp. cbn [negb andb].
  rewrite (agent_expand_dashed int base start end_ a b) by done.
  rewrite Hcount.
  destruct (decide (scan_type = "comprehensive" ∧ (10 < b + 1 - a)%Z))
    as [[-> Hmany]|Hfew].
  - rewrite bool_decide_eq_true_2 by lia.
    rewrite (bool_decide_eq_true_2 ("comprehensive" = "comprehensive"))
      by done.
    cbn [andb]. eexists. split; [reflexivity|]. cbn.
    rewrite bool_decide_eq_true_2 by done. by rewrite Hparse.
  - assert (bool_decide (10 < Nat.max 1 (Z.to_nat (b + 1 - a)))%nat
            && bool_decide (scan_type = "comprehensive") = false) as ->.
    { apply andb_false_iff.
      destruct (decide (scan_type = "comprehensive")) as [Hc|Hc].
      - left. apply bool_decide_eq_false_2. intros Hlt. apply Hfew.
        split; [done|lia].
      - right. by apply bool_decide_eq_false_2. }
    eexists. split; [reflexivity|]. cbn.
    rewrite bool_decide_eq_false_2 by done. by rewrite Hparse.
Qed.
Lemma split_parts_free sep s : Forall (λ x, has sep x = false) (split sep s).
Proof.
  induction s as [|a s IH]; cbn [split]; [by repeat constructor|].
  case_bool_decide as Ha.
  - by constructor.
  - destruct (split sep s) as [|part parts].
    + repeat constructor. cbn [has]. by rewrite bool_decide_eq_false_2.
    + apply Forall_cons in IH as [Hpart Hparts]. constructor; [|done].
      cbn [has]. by rewrite bool_decide_eq_false_2.
Qed.

Lemma split_has sep s :
  has sep s = true → ∃ x y l, split sep s = x :: y :: l.
Proof.
  induction s as [|a s IH]; [done|]. cbn [has split].
  case_bool_decide as Ha.
  - intros _. destruct (split_nonempty sep s) as (y & l & ->). eauto.
  - cbn [orb]. intros (x & y & l & ->)%IH. eauto.
Qed.

(** X19. A comma-separated request on its way to the scanner.
    [optimize_scan_parameters] strips the parts and joins them again,
    expands no range itself, leaves the custom ports alone and turns a
    comprehensive scan into a standard one exactly when there are more
    than ten parts; [parse_target_input] returns for its output the
    targets it returns for the request itself. *)
Theorem X19_comma_list_from_request_to_targets :
  ∀ int strip ip_network_hosts targets scan_type custom_ports,
    has "," targets = true →
    (∀ t, strip (strip t) = strip t) →
    (∀ t, has "," t = false → has "," (strip t) = false) →
    ∃ p,
      ScannerAgent.optimize_scan_parameters int strip targets scan_type
        custom_ports = Ok p
      ∧ ScannerAgent.sp_targets p = join "," (strip <$> split "," targets)
      ∧ ScannerAgent.sp_custom_ports p = custom_ports
      ∧ ScannerAgent.sp_scan_type p
        = (if bool_decide (scan_type = "comprehensive"
                           ∧ (10 < length (split "," targets))%nat)
           then "standard" else scan_type)
      ∧ parse_target_input int strip ip_network_hosts
          (ScannerAgent.sp_targets p)
        = parse_target_input int strip ip_network_hosts targets.
Proof.
  intros int strip hosts targets scan_type custom_ports Hcomma Hidem Hfree.
  set (parts := strip <$> split "," targets).
  assert (Forall (λ x, has "," x = false) parts) as Hparts.
  { unfold parts. apply Forall_fmap. eapply Forall_impl.
    - apply split_parts_free.
    - intros x Hx. by apply Hfree. }
  destruct (split_has "," targets Hcomma) as (x & y & l & Hsplit).
  assert (parts ≠ []) as Hne by (unfold parts; by rewrite Hsplit).
  assert (split "," (join "," parts) = parts) as Hback
    by by apply split_join.
  assert (parse_target_input int strip hosts (join "," parts)
          = parse_target_input int strip hosts targets) as Hparse.
  { unfold parse_target_input. rewrite Hback.
    assert (strip <$> parts = parts) as ->.
    { unfold parts. rewrite <- list_fmap_compose.
      apply list_fmap_ext. intros _ t _. apply Hidem. }
    destruct targets as [|c rest]; [done|].
    destruct (join "," parts) as [|c' rest'] eqn:Hjoin; [|done].
    unfold parts in Hjoin. rewrite Hsplit, !fmap_cons in Hjoin.
    cbn [join] in Hjoin. by destruct (strip x). }
  unfold ScannerAgent.optimize_scan_parameters. rewrite Hcomma.
  fold parts. rewrite Hback.
  assert (length parts = length (split "," targets)) as Hlen
    by (unfold parts; by rewrite length_fmap).
  rewrite Hlen.
  destruct (decide (scan_type = "comprehensive"
                    ∧ (10 < length (split "," targets))%nat))
    as [[-> Hmany]|Hfew].
  - rewrite bool_decide_eq_true_2 by done.
    rewrite (bool_decide_eq_true_2 ("comprehensive" = "comprehensive"))
      by done.
    cbn [andb]. eexists. split; [reflexivity|]. cbn.
    rewrite bool_decide_eq_true_2 by done. by rewrite Hparse.
  - assert (bool_decide (10 < length (split "," targets))%nat
            && bool_decide (scan_type = "comprehensive") = false) as ->.
    { apply andb_false_iff.
      destruct (decide (scan_type = "comprehensive")) as [Hc|Hc].
      - left. apply bool_decide_eq_false_2. intros Hlt. by apply Hfew.
      - right. by apply bool_decide_eq_false_2. }
    eexists. split; [reflexivity|]. cbn.
    rewrite bool_decide_eq_false_2 by done. by rewrite Hparse.
Qed.
End TargetFacts.

Section TargetWitnesses.
Import Stdlib.Strings.Ascii.
Import PyStr ScannerUtils TargetExamples.

Lemma X15_witness :
  length (expand_ip_range digits_int
            ("192.168.1" +:+ "." +:+ "1" +:+ "-" +:+ "3")) = 3%nat
  ∧ expand_ip_range digits_int
      ("192.168.1" +:+ "." +:+ "1" +:+ "-" +:+ "3") !! 2%nat
    = Some "192.168.1.3"
  ∧ expand_ip_range digits_int
      ("192.168.1" +:+ "." +:+ "3" +:+ "-" +:+ "1") = []
  ∧ expand_ip_range digits_int
      ("192.168.1" +:+ "." +:+ "250" +:+ "-" +:+ "300")
    = ["192.168.1.250-300"].
Proof.
  destruct (X15_expand_ip_range_of_a_dashed_range digits_int "192.168.1"
              "1" "3" 1 3 eq_refl eq_refl eq_refl eq_refl eq_refl eq_refl)
    as [Hin _].
  destruct Hin as (Hlen & _ & Hnth & _); [lia|].
  destruct (X15_expand_ip_range_of_a_dashed_range digits_int "192.168.1"
              "3" "1" 3 1 eq_refl eq_refl eq_refl eq_refl eq_refl eq_refl)
    as [Hrev _].
  destruct Hrev as (_ & _ & _ & _ & Hnil); [lia|].
  destruct (X15_expand_ip_range_of_a_dashed_range digits_int "192.168.1"
              "250" "300" 250 300 eq_refl eq_refl eq_refl eq_refl eq_refl
              eq_refl) as [_ Hout].
  split_and!.
  - exact Hlen.
  - apply (Hnth 2%nat). lia.
  - apply Hnil. lia.
  - apply Hout. lia.
Defined.

Lemma X16_witness :
  ScannerAgent._expand_ip_range digits_int
    ("10.0.0" +:+ "." +:+ "255" +:+ "-" +:+ "256")
  = Ok "10.0.0.255,10.0.0.256"
  ∧ expand_ip_range digits_int "10.0.0.255-256" = ["10.0.0.255-256"]
  ∧ (∃ e, ScannerAgent._expand_ip_range digits_int "a-b" = Raise e)
  ∧ expand_ip_range digits_int "a-b" = ["a-b"]
  ∧ (∃ e, ScannerAgent._expand_ip_range digits_int
            ("1" +:+ "." +:+ "2" +:+ "-" +:+ "3" +:+ "-" +:+ "4") = Raise e)
  ∧ ScannerAgent._expand_ip_range digits_int "my.host" = Ok "my.host".
Proof.
  destruct (X16_agent_expansion_has_no_bounds_and_raises digits_int)
    as (Hrange & Hnodot & Htwo & Hplain).
  destruct (Hrange "10.0.0" "255" "256" 255 256
              eq_refl eq_refl eq_refl eq_refl eq_refl eq_refl) as (Hok & _).
  destruct (Hnodot "a-b" eq_refl eq_refl) as [Hraise Hsame].
  destruct (Htwo "1" "2" "3" "4" eq_refl eq_refl eq_refl eq_refl eq_refl)
    as [Hraise2 _].
  destruct (Hplain "my.host" eq_refl) as [Hid _].
  split_and!; [exact Hok | reflexivity | exact Hraise | exact Hsame
              | exact Hraise2 | exact Hid].
Defined.

Lemma X17_witness :
  NoDup (parse_target_input digits_int no_strip hosts_demo
           "10.0.0.0/30,10.0.0.1,x")
  ∧ parse_target_input digits_int no_strip hosts_demo "192.168.1.1-2,x"
    = ["192.168.1.1"; "192.168.1.2"; "x"]
  ∧ parse_target_input digits_int no_strip hosts_demo "" = [].
Proof.
  destruct (X17_parse_target_input_has_no_duplicates digits_int no_strip
              hosts_demo "10.0.0.0/30,10.0.0.1,x") as (Hnd & _).
  destruct (X17_parse_target_input_has_no_duplicates digits_int no_strip
              hosts_demo "192.168.1.1-2,x") as (_ & _ & _ & _ & Hsame).
  destruct (X17_parse_target_input_has_no_duplicates digits_int no_strip
              hosts_demo "") as (_ & _ & _ & Hnil & _).
  split_and!; [exact Hnd | | by apply Hnil].
  rewrite Hsame; [reflexivity | | discriminate].
  vm_compute. repeat (constructor; [by rewrite ?elem_of_cons, elem_of_nil;
                                    intuition discriminate|]).
  constructor.
Defined.
Lemma X18_witness :
  ∃ p,
    ScannerAgent.optimize_scan_parameters digits_int no_strip
      ("192.168.1" +:+ "." +:+ "250" +:+ "-" +:+ "300") "comprehensive" None
    = Ok p
    ∧ ScannerAgent.sp_scan_type p = "standard"
    ∧ length (parse_target_input digits_int no_strip hosts_demo
                (ScannerAgent.sp_targets p)) = 51%nat
    ∧ expand_ip_range digits_int "192.168.1.250-300"
      = ["192.168.1.250-300"].
Proof.
  assert (0 ≤ 250)%Z as Hpos by lia.
  destruct (X18_dashed_range_from_request_to_targets digits_int no_strip
              hosts_demo "192.168.1" "250" "300" 250 300 "comprehensive"
              None eq_refl eq_refl eq_refl eq_refl eq_refl eq_refl Hpos
              eq_refl eq_refl eq_refl (λ _ _, eq_refl))
    as (p & Hopt & _ & _ & Htype & Hparse).
  exists p. split_and!; [exact Hopt | | | reflexivity].
  - rewrite Htype. reflexivity.
  - rewrite Hparse. unfold addresses.
    rewrite length_fmap, length_seqZ. reflexivity.
Defined.
Lemma X19_witness :
  ∃ p,
    ScannerAgent.optimize_scan_parameters digits_int no_strip
      "10.0.0.1-2,x,x" "comprehensive" (Some "22") = Ok p
    ∧ ScannerAgent.sp_targets p = "10.0.0.1-2,x,x"
    ∧ ScannerAgent.sp_scan_type p = "comprehensive"
    ∧ parse_target_input digits_int no_strip hosts_demo
        (ScannerAgent.sp_targets p)
      = ["10.0.0.1"; "10.0.0.2"; "x"].
Proof.
  destruct (X19_comma_list_from_request_to_targets digits_int no_strip
              hosts_demo "10.0.0.1-2,x,x" "comprehensive" (Some "22")
              eq_refl (λ _, eq_refl) (λ _ H, H))
    as (p & Hopt & Htargets & _ & Htype & Hparse).
  exists p. split_and!; [exact Hopt | | |].
  - rewrite Htargets. reflexivity.
  - rewrite Htype. reflexivity.
  - rewrite Hparse. reflexivity.
Defined.
End TargetWitnesses.

(** ** The two ways of probing a port *)

Section ProbeComparison.
Import NetworkScanner.

(** X14. The direct scan and the background scan read the same reply
    differently.  A reply the direct scan calls open is open for the
    background scan too; a reply the direct scan calls closed is open
    for the background scan; and whatever the background scan calls
    closed, no reply included, the direct scan calls filtered.  So the
    two never agree on closed. *)
Theorem X14_direct_and_background_probes_never_agree_on_closed :
  ∀ resp port,
    (scapy_status resp = st_open →
     pr_status (port_status_of resp port) = st_open)
    ∧ (scapy_status resp = st_closed →
       pr_status (port_status_of resp port) = st_open)
    ∧ (pr_status (port_status_of resp port) = st_closed →
       scapy_status resp = st_filtered).
Proof.
  intros resp port. unfold scapy_status, port_status_of. cbn [pr_status].
  destruct resp as [[[flags|]]|]; cbn [tcp_flags]; [|done|done].
  destruct (decide (flags = 0x12)) as [->|H12].
  { rewrite (bool_decide_eq_true_2 (0x12 = 0x12)%Z) by done.
    rewrite (bool_decide_eq_true_2 (Z.land 0x12 0x12 ≠ 0)) by done.
    done. }
  rewrite (bool_decide_eq_false_2 (flags = 0x12)) by done.
  destruct (decide (flags = 0x14)) as [->|H14].
  { rewrite (bool_decide_eq_true_2 (0x14 = 0x14)%Z) by done.
    rewrite (bool_decide_eq_true_2 (Z.land 0x14 0x12 ≠ 0)) by done.
    done. }
  rewrite (bool_decide_eq_false_2 (flags = 0x14)) by done.
  split_and!; done.
Qed.

Lemma X14_witness :
  scapy_status (Some (mkPacket (Some 0x14))) = st_closed
  ∧ pr_status (port_status_of (Some (mkPacket (Some 0x14))) 80) = st_open
  ∧ pr_status (port_status_of None 80) = st_closed
  ∧ scapy_status None = st_filtered.
Proof.
  destruct (X14_direct_and_background_probes_never_agree_on_closed
              (Some (mkPacket (Some 0x14))) 80) as (_ & Hclosed & _).
  destruct (X14_direct_and_background_probes_never_agree_on_closed
              None 80) as (_ & _ & Hfiltered).
  split_and!; [reflexivity | by apply Hclosed | reflexivity
              | by apply Hfiltered].
Defined.
End ProbeComparison.
